(** * The RAG content pipeline of avatar-app, embedded in Rocq

    The pipeline lives in [server/services]: [textProcessor.js] (cleaning,
    chunking, token estimate), [embeddingService.js] (size guard, cosine
    similarity), [vectorRepository.js] with the SQL function
    [match_content_chunks] of [supabaseClient.js] (owner-scoped search and
    the inserts), [responseGenerator.js] (context assembly, completion
    request, summary), [queryProcessor.js] (a query from text to stored
    answer, keyword search) and [contentIngestion.js] (custom text).

    JavaScript strings are sequences of UTF-16 code units, numbers are IEEE
    binary64 values.  Indices and lengths are integers and are kept in [Z];
    the numbers the cosine similarity computes with are primitive floats. *)

From Stdlib Require Import ZArith NArith List Bool Lia String Ascii Floats.
From Stdlib Require Import DecimalString Sorted Permutation.
Import ListNotations.

#[local] Set Warnings "-inexact-float".
Local Open Scope Z_scope.

(* ------------------------------------------------------------------ *)
(** * JavaScript strings *)

Module JS.

Definition char := N.
Definition jsstring := list char.

(** A string literal of the source, code unit by code unit. *)
Definition lit (s : string) : jsstring :=
  List.map N_of_ascii (list_ascii_of_string s).

Definition len (s : jsstring) : Z := Z.of_nat (List.length s).

(** [!text] on a string: only the empty string is falsy. *)
Definition truthy (s : jsstring) : bool :=
  match s with [] => false | _ :: _ => true end.

Definition TAB : char := 9%N.
Definition LF : char := 10%N.
Definition CR : char := 13%N.
Definition SP : char := 32%N.
Definition DOLLAR : char := 36%N.

(** ECMAScript LineTerminator: LF, CR, LS, PS. *)
Definition isLineTerminator (c : char) : bool :=
  (c =? 10)%N || (c =? 13)%N || (c =? 8232)%N || (c =? 8233)%N.

(** ECMAScript WhiteSpace and LineTerminator: the class [\s] of a regular
    expression and the characters [String.prototype.trim] strips. *)
Definition isSpace (c : char) : bool :=
  ((9 <=? c) && (c <=? 13))%N || (c =? 32)%N || (c =? 160)%N
  || (c =? 5760)%N || ((8192 <=? c) && (c <=? 8202))%N
  || (c =? 8232)%N || (c =? 8233)%N || (c =? 8239)%N || (c =? 8287)%N
  || (c =? 12288)%N || (c =? 65279)%N.

Definition isDigit (c : char) : bool := ((48 <=? c) && (c <=? 57))%N.
Definition isUpper (c : char) : bool := ((65 <=? c) && (c <=? 90))%N.
Definition isLower (c : char) : bool := ((97 <=? c) && (c <=? 122))%N.

Fixpoint trimStart (s : jsstring) : jsstring :=
  match s with
  | c :: s' => if isSpace c then trimStart s' else s
  | [] => []
  end.

Definition trimEnd (s : jsstring) : jsstring := rev (trimStart (rev s)).

(** [String.prototype.trim]. *)
Definition trim (s : jsstring) : jsstring := trimEnd (trimStart s).

Definition clamp (x lo hi : Z) : Z := Z.min (Z.max x lo) hi.

(** [String.prototype.substring(start, end)]: both arguments are clamped to
    [0, length] and swapped when [start > end]. *)
Definition substring (s : jsstring) (start end_ : Z) : jsstring :=
  let a := clamp start 0 (len s) in
  let b := clamp end_ 0 (len s) in
  let from := Z.min a b in
  let to := Z.max a b in
  firstn (Z.to_nat (to - from)) (skipn (Z.to_nat from) s).

Fixpoint eqb (s t : jsstring) : bool :=
  match s, t with
  | [], [] => true
  | c :: s', d :: t' => (c =? d)%N && eqb s' t'
  | _, _ => false
  end.

(** [array.includes(x)] on an array of strings. *)
Definition includes (xs : list jsstring) (x : jsstring) : bool :=
  existsb (eqb x) xs.

Fixpoint startsWith (p s : jsstring) : bool :=
  match p, s with
  | [], _ => true
  | c :: p', d :: s' => (c =? d)%N && startsWith p' s'
  | _ :: _, [] => false
  end.

(** The largest index [k' <= k] at which [search] occurs in [s], or [-1]. *)
Fixpoint lastIndexFrom (s search : jsstring) (k : nat) : Z :=
  if startsWith search (skipn k s) then Z.of_nat k
  else match k with
       | O => -1
       | S k' => lastIndexFrom s search k'
       end.

(** [String.prototype.lastIndexOf(search, position)]. *)
Definition lastIndexOf (s search : jsstring) (position : Z) : Z :=
  lastIndexFrom s search (Z.to_nat (clamp position 0 (len s))).

(** The first index at which [search] occurs in [s], if any. *)
Fixpoint indexOf (search s : jsstring) : option nat :=
  if startsWith search s then Some O
  else match s with
       | [] => None
       | _ :: s' => option_map S (indexOf search s')
       end.

(** [Array.prototype.join(sep)] on an array of strings. *)
Fixpoint join (sep : jsstring) (xs : list jsstring) : jsstring :=
  match xs with
  | [] => []
  | [x] => x
  | x :: xs' => x ++ sep ++ join sep xs'
  end.

(** ** The regular expressions of the source

    Every pattern of [textProcessor.js] is built from literal characters,
    character classes, [^] under the [m] flag, an optional character and
    greedy repetitions of a class.  [rx_match] is the backtracking matcher
    of ECMAScript restricted to these forms; the continuation receives the
    last character consumed so far and the rest of the input. *)

Inductive regex : Type :=
| Chr (c : char)
| Cls (p : char -> bool)
| Bol
| OptChr (c : char)
| Plus (p : char -> bool)
| Star (p : char -> bool)
| Seq (r1 r2 : regex).

Definition atLineStart (prev : option char) : bool :=
  match prev with
  | None => true
  | Some c => isLineTerminator c
  end.

Fixpoint many {A} (p : char -> bool) (prev : option char) (s : jsstring)
         (k : option char -> jsstring -> option A) : option A :=
  match s with
  | c :: s' =>
      if p c then
        match many p (Some c) s' k with
        | Some r => Some r
        | None => k prev s
        end
      else k prev s
  | [] => k prev s
  end.

Fixpoint rx_match {A} (r : regex) (prev : option char) (s : jsstring)
         (k : option char -> jsstring -> option A) : option A :=
  match r with
  | Chr c =>
      match s with
      | d :: s' => if (c =? d)%N then k (Some d) s' else None
      | [] => None
      end
  | Cls p =>
      match s with
      | d :: s' => if p d then k (Some d) s' else None
      | [] => None
      end
  | Bol => if atLineStart prev then k prev s else None
  | OptChr c =>
      match s with
      | d :: s' =>
          if (c =? d)%N then
            match k (Some d) s' with
            | Some x => Some x
            | None => k prev s
            end
          else k prev s
      | [] => k prev s
      end
  | Plus p =>
      match s with
      | d :: s' => if p d then many p (Some d) s' k else None
      | [] => None
      end
  | Star p => many p prev s k
  | Seq r1 r2 => rx_match r1 prev s (fun prev' s' => rx_match r2 prev' s' k)
  end.

(** Length of the match of [r] that starts at the head of [s], if any. *)
Definition matchAt (r : regex) (prev : option char) (s : jsstring) : option nat :=
  rx_match r prev s (fun _ rest => Some (List.length s - List.length rest)%nat).

(** [str.replace(/r/g, replacement)] for a replacement without [$]: scan
    from the left, replace each match and resume behind it; after an empty
    match the next character is copied.  [skip] counts the characters of
    the current match that are still to be dropped. *)
Fixpoint replaceGo (r : regex) (replacement : jsstring) (prev : option char)
         (s : jsstring) (skip : nat) : jsstring :=
  match skip with
  | S n =>
      match s with
      | c :: s' => replaceGo r replacement (Some c) s' n
      | [] => []
      end
  | O =>
      match matchAt r prev s with
      | Some (S n) =>
          replacement ++
          match s with
          | c :: s' => replaceGo r replacement (Some c) s' n
          | [] => []
          end
      | Some O =>
          replacement ++
          match s with
          | c :: s' => c :: replaceGo r replacement (Some c) s' O
          | [] => []
          end
      | None =>
          match s with
          | c :: s' => c :: replaceGo r replacement (Some c) s' O
          | [] => []
          end
      end
  end.

Definition replaceAll (r : regex) (replacement s : jsstring) : jsstring :=
  replaceGo r replacement None s O.

Fixpoint seqLit (s : jsstring) (r : regex) : regex :=
  match s with
  | [] => r
  | c :: s' => Seq (Chr c) (seqLit s' r)
  end.

(** [GetSubstitution] for a string pattern (no captures): [$$], [$&],
    [$`] and [$'] are expanded in the replacement, every other character
    is copied. *)
Fixpoint getSubstitution (matched before after template : jsstring) : jsstring :=
  match template with
  | [] => []
  | d :: rest =>
      if (d =? DOLLAR)%N then
        match rest with
        | c :: t' =>
            if (c =? 36)%N then DOLLAR :: getSubstitution matched before after t'
            else if (c =? 38)%N then matched ++ getSubstitution matched before after t'
            else if (c =? 96)%N then before ++ getSubstitution matched before after t'
            else if (c =? 39)%N then after ++ getSubstitution matched before after t'
            else d :: getSubstitution matched before after rest
        | [] => [d]
        end
      else d :: getSubstitution matched before after rest
  end.

(** [str.replace(pattern, replacement)] with a string pattern: the first
    occurrence only. *)
Definition replaceFirst (pattern replacement s : jsstring) : jsstring :=
  match indexOf pattern s with
  | None => s
  | Some i =>
      let before := firstn i s in
      let after := skipn (i + List.length pattern) s in
      before ++ getSubstitution pattern before after replacement ++ after
  end.

End JS.

Import JS.

(* ------------------------------------------------------------------ *)
(** * server/services/textProcessor.js *)

Module TextProcessor.

(** [/\s+/g], [/\n+/g], [/\t+/g], [/\r/g]. *)
Definition rxSpaces : regex := Plus isSpace.
Definition rxNewlines : regex := Plus (N.eqb LF).
Definition rxTabs : regex := Plus (N.eqb TAB).
Definition rxCR : regex := Chr CR.

Definition cleanText (text : jsstring) : jsstring :=
  if negb (truthy text) then []
  else
    trim
      (replaceAll rxCR []
         (replaceAll rxTabs [SP]
            (replaceAll rxNewlines [LF]
               (replaceAll rxSpaces [SP] text)))).

(** [/\[\d+:\d+:\d+\]/g] *)
Definition rxTimestampBracket : regex :=
  Seq (Chr 91%N) (Seq (Plus isDigit) (Seq (Chr 58%N) (Seq (Plus isDigit)
    (Seq (Chr 58%N) (Seq (Plus isDigit) (Chr 93%N)))))).

(** [/\(\d+:\d+\)/g] *)
Definition rxTimestampParen : regex :=
  Seq (Chr 40%N) (Seq (Plus isDigit) (Seq (Chr 58%N) (Seq (Plus isDigit) (Chr 41%N)))).

(** [/^Speaker \d+:?\s*/gm] *)
Definition rxSpeakerLabel : regex :=
  Seq Bol (seqLit (lit "Speaker ") (Seq (Plus isDigit) (Seq (OptChr 58%N) (Star isSpace)))).

(** [/^[A-Z][a-z]+:?\s*/gm] *)
Definition rxSpeakerName : regex :=
  Seq Bol (Seq (Cls isUpper) (Seq (Plus isLower) (Seq (OptChr 58%N) (Star isSpace)))).

Definition cleanTranscript (transcript : jsstring) : jsstring :=
  if negb (truthy transcript) then []
  else
    trim
      (replaceAll rxNewlines [LF]
         (replaceAll rxSpaces [SP]
            (replaceAll rxSpeakerName []
               (replaceAll rxSpeakerLabel []
                  (replaceAll rxTimestampParen []
                     (replaceAll rxTimestampBracket [] transcript)))))).

Record Chunk : Type := mkChunk {
  text : jsstring;
  startChar : Z;
  endChar : Z
}.

(** The end position one pass of the loop settles on. *)
Definition chunkEnd (text : jsstring) (chunkSize startChar : Z) : Z :=
  let endChar := startChar + chunkSize in
  if endChar <? len text then
    let paraBreak := lastIndexOf text [LF; LF] endChar in
    let sentenceBreak := lastIndexOf text (lit ". ") endChar in
    if (paraBreak >? startChar) && (paraBreak >? endChar - 200) then paraBreak + 1
    else if (sentenceBreak >? startChar) && (sentenceBreak >? endChar - 100)
         then sentenceBreak + 1
         else endChar
  else len text.

(** What a bounded run of the [while] loop ends in: the array it returned,
    or the loop still live at [startChar] with the chunks pushed so far. *)
Inductive outcome : Type :=
| Returned (chunks : list Chunk)
| Running (startChar : Z) (chunks : list Chunk).

(** The [while (startChar < text.length)] loop, at most [fuel] passes. *)
Fixpoint chunkLoop (fuel : nat) (text : jsstring) (chunkSize overlap : Z)
         (startChar : Z) (chunks : list Chunk) : outcome :=
  if startChar <? len text then
    match fuel with
    | O => Running startChar chunks
    | S fuel' =>
        let endChar := chunkEnd text chunkSize startChar in
        let chunkText := trim (substring text startChar endChar) in
        let chunks' :=
          if truthy chunkText then chunks ++ [mkChunk chunkText startChar endChar]
          else chunks in
        let startChar' := endChar - overlap in
        if startChar' >=? len text then Returned chunks'
        else chunkLoop fuel' text chunkSize overlap startChar' chunks'
    end
  else Returned chunks.

Definition chunkText (fuel : nat) (text : jsstring) (chunkSize overlap : Z) : outcome :=
  if negb (truthy text) then Returned []
  else if len text <=? chunkSize then Returned [mkChunk text 0 (len text)]
  else chunkLoop fuel text chunkSize overlap 0 [].

(** [Math.ceil(text.length / 4)]; the quotient of a length by 4 is exact in
    binary64, so the ceiling is the integer one. *)
Definition estimateTokenCount (text : jsstring) : Z :=
  if negb (truthy text) then 0
  else (len text + 3) / 4.

End TextProcessor.

Import TextProcessor.

(* ------------------------------------------------------------------ *)
(** * Effects: exceptions, the console and the external services

    An [async] function of the source is a computation that either
    resolves with a value or rejects with the value thrown; every call to
    an external SDK and every [console.error] is appended to a log.  The
    external services answer as functions of the log so far, so a second
    call with the same request may answer differently. *)

Module Effects.

Inductive thrown : Type :=
| OpenAINotInitialized      (* new Error('OpenAI client not initialized') *)
| SupabaseNotInitialized    (* new Error('Supabase client not initialized') *)
| ContentTooLarge (tokenEstimate maxContentLength : Z)
                            (* new Error(`Content too large for embedding. ...`) *)
| External (detail : jsstring).
                            (* whatever an SDK or the database raised *)

Inductive result (A : Type) : Type :=
| Ok (a : A)
| Throw (e : thrown).
Arguments Ok {A} a.
Arguments Throw {A} e.

Record Message : Type := mkMessage {
  role : jsstring;
  content : jsstring
}.

Record ChatRequest : Type := mkChatRequest {
  cr_model : jsstring;
  cr_messages : list Message;
  cr_temperature : float;
  cr_max_tokens : float;
  cr_top_p : float;
  cr_frequency_penalty : float;
  cr_presence_penalty : float
}.

Inductive event : Type :=
| SdkCreateEmbedding (model input : jsstring)
| SdkCreateChatCompletion (req : ChatRequest)
| RpcMatchContentChunks (user_id_input : jsstring)
| ConsoleError (label : jsstring).

Definition M (A : Type) : Type := list event -> result A * list event.

Definition ret {A} (a : A) : M A := fun log => (Ok a, log).
Definition throw {A} (e : thrown) : M A := fun log => (Throw e, log).
Definition emit (e : event) : M unit := fun log => (Ok tt, log ++ [e]).
Definition getLog : M (list event) := fun log => (Ok log, log).

Definition bind {A B} (m : M A) (k : A -> M B) : M B :=
  fun log =>
    match m log with
    | (Ok a, log') => k a log'
    | (Throw e, log') => (Throw e, log')
    end.

(** [try { m } catch (error) { h error }] *)
Definition tryCatch {A} (m : M A) (h : thrown -> M A) : M A :=
  fun log =>
    match m log with
    | (Ok a, log') => (Ok a, log')
    | (Throw e, log') => h e log'
    end.

(** A synchronous computation that may throw, run inside an [async] one. *)
Definition lift {A} (r : result A) : M A := fun log => (r, log).

Fixpoint mapR {A B} (f : A -> result B) (xs : list A) : result (list B) :=
  match xs with
  | [] => Ok []
  | x :: xs' =>
      match f x with
      | Throw e => Throw e
      | Ok y =>
          match mapR f xs' with
          | Throw e => Throw e
          | Ok ys => Ok (y :: ys)
          end
      end
  end.

End Effects.

Import Effects.

Declare Scope js_scope.
Delimit Scope js_scope with js.
Notation "x <- m ;; k" := (bind m (fun x => k))
  (at level 61, m at next level, right associativity) : js_scope.
Notation "m ;;; k" := (bind m (fun _ => k))
  (at level 61, right associativity) : js_scope.

(** [x || d] on a number that may be undefined: 0, -0 and NaN are falsy. *)
Definition numTruthy (x : float) : bool :=
  negb (PrimFloat.eqb x 0%float) && negb (PrimFloat.is_nan x).

Definition numOr (x : option float) (d : float) : float :=
  match x with
  | Some v => if numTruthy v then v else d
  | None => d
  end.

(** [x || d] on a string that may be undefined. *)
Definition strOr (x : option jsstring) (d : jsstring) : jsstring :=
  match x with
  | Some v => if truthy v then v else d
  | None => d
  end.

(** [if (x)] on a string that may be undefined. *)
Definition strTruthy (x : option jsstring) : bool :=
  match x with
  | Some v => truthy v
  | None => false
  end.

(* ------------------------------------------------------------------ *)
(** * server/services/openaiClient.js *)

Module OpenaiClient.

(** The OpenAI SDK object held in [this.client]: whether it was created,
    and what its two calls answer (a failure detail or the payload). *)
Record Sdk : Type := mkSdk {
  client : bool;
  sdkCreateEmbedding : list event -> jsstring -> jsstring -> jsstring + list float;
  sdkCreateChatCompletion : list event -> ChatRequest -> jsstring + jsstring
}.

Section Client.
Variable sdk : Sdk.
Local Open Scope js_scope.

Definition isConfigured : bool := client sdk.

Definition createEmbedding (text model : jsstring) : M (list float) :=
  if negb (client sdk) then throw OpenAINotInitialized
  else
    tryCatch
      (log <- getLog ;;
       emit (SdkCreateEmbedding model text) ;;;
       match sdkCreateEmbedding sdk log model text with
       | inl detail => throw (External detail)
       | inr embedding => ret embedding
       end)
      (fun error =>
         emit (ConsoleError (lit "Error creating embedding:")) ;;;
         throw error).

Definition createChatCompletion (messages : list Message) (model : jsstring)
           (temperature max_tokens : option float) : M jsstring :=
  if negb (client sdk) then throw OpenAINotInitialized
  else
    tryCatch
      (let req :=
         mkChatRequest model messages
           (numOr temperature 0.7%float) (numOr max_tokens 1000%float)
           1%float 0%float 0%float in
       log <- getLog ;;
       emit (SdkCreateChatCompletion req) ;;;
       match sdkCreateChatCompletion sdk log req with
       | inl detail => throw (External detail)
       | inr text => ret text
       end)
      (fun error =>
         emit (ConsoleError (lit "Error creating chat completion:")) ;;;
         throw error).

End Client.

End OpenaiClient.

(* ------------------------------------------------------------------ *)
(** * server/services/embeddingService.js *)

Module EmbeddingService.

Definition defaultModel : jsstring := lit "text-embedding-ada-002".

Definition maxContentLength : Z := 8000.

(** [string | Array<string>] *)
Inductive content : Type :=
| Single (text : jsstring)
| Many (texts : list jsstring).

Record ProcessedItem : Type := mkProcessedItem {
  originalText : jsstring;
  pi_processedText : jsstring;
  pi_tokenEstimate : Z
}.

Record EmbeddingResult : Type := mkEmbeddingResult {
  er_text : jsstring;
  er_processedText : jsstring;
  er_embedding : list float;
  er_tokenEstimate : Z
}.

(** The object or the array [generateEmbeddings] resolves with;
    [results[0]] of an empty array is [undefined]. *)
Inductive embeddings : Type :=
| One (r : option EmbeddingResult)
| Several (rs : list EmbeddingResult).

Definition textArray (c : content) : list jsstring :=
  match c with
  | Single t => [t]
  | Many ts => ts
  end.

(** The callback of [textArray.map]. *)
Definition processItem (text : jsstring) : result ProcessedItem :=
  let cleanedText := cleanText text in
  let tokenEstimate := estimateTokenCount cleanedText in
  if tokenEstimate >? maxContentLength
  then Throw (ContentTooLarge tokenEstimate maxContentLength)
  else Ok (mkProcessedItem text cleanedText tokenEstimate).

Section Service.
Variable sdk : OpenaiClient.Sdk.
Local Open Scope js_scope.

(** The [for (const item of processedItems)] loop. *)
Fixpoint embedItems (model : jsstring) (items : list ProcessedItem)
         (results : list EmbeddingResult) : M (list EmbeddingResult) :=
  match items with
  | [] => ret results
  | item :: items' =>
      r <- tryCatch
             (embedding <- OpenaiClient.createEmbedding sdk (pi_processedText item) model ;;
              ret (results ++ [mkEmbeddingResult (originalText item) (pi_processedText item)
                                 embedding (pi_tokenEstimate item)]))
             (fun error =>
                emit (ConsoleError (lit "Error generating embedding:")) ;;;
                throw error) ;;
      embedItems model items' r
  end.

Definition generateEmbeddings (c : content) (model : jsstring) : M embeddings :=
  if negb (OpenaiClient.isConfigured sdk) then throw OpenAINotInitialized
  else
    processedItems <- lift (mapR processItem (textArray c)) ;;
    results <- embedItems model processedItems [] ;;
    ret (match c with
         | Many _ => Several results
         | Single _ => One (hd_error results)
         end).

(** A chunk with its embedding and token estimate attached. *)
Record EmbeddedChunk : Type := mkEmbeddedChunk {
  ec_text : jsstring;
  ec_startChar : Z;
  ec_endChar : Z;
  ec_embedding : list float;
  ec_tokenEstimate : Z
}.

(** [chunks.map((chunk, i) => ({...chunk, embedding: embeddings[i].embedding,
    tokenEstimate: embeddings[i].tokenEstimate}))]: the two arrays are
    walked together; reading a property of [embeddings[i]] past the end
    of [embeddings] is a TypeError of the runtime. *)
Fixpoint attachEmbeddings (chunks : list Chunk) (embeddings : list EmbeddingResult)
  : result (list EmbeddedChunk) :=
  match chunks with
  | [] => Ok []
  | chunk :: chunks' =>
      match embeddings with
      | [] => Throw (External (lit "TypeError: Cannot read properties of undefined"))
      | e :: embeddings' =>
          match attachEmbeddings chunks' embeddings' with
          | Throw err => Throw err
          | Ok rest =>
              Ok (mkEmbeddedChunk (text chunk) (startChar chunk) (endChar chunk)
                    (er_embedding e) (er_tokenEstimate e) :: rest)
          end
      end
  end.

Definition embedChunks (chunks : list Chunk) (model : jsstring) : M (list EmbeddedChunk) :=
  if Nat.eqb (List.length chunks) 0 then ret []
  else
    let texts := List.map text chunks in
    embeddings <- generateEmbeddings (Many texts) model ;;
    match embeddings with
    | Several results => lift (attachEmbeddings chunks results)
    | One _ => lift (attachEmbeddings chunks [])
    end.

End Service.

(** The body of the [for] loop of [cosineSimilarity]: one index, the
    three running sums. *)
Definition accumulate (acc : float * float * float) (p : float * float)
  : float * float * float :=
  let '(dotProduct, mag1, mag2) := acc in
  let '(x, y) := p in
  ((dotProduct + x * y)%float, (mag1 + x * x)%float, (mag2 + y * y)%float).

(** [cosineSimilarity(vec1, vec2)]; [None] is a missing argument. *)
Definition cosineSimilarity (vec1 vec2 : option (list float)) : float :=
  match vec1, vec2 with
  | Some v1, Some v2 =>
      if negb (Nat.eqb (List.length v1) (List.length v2)) then 0%float
      else
        let '(dotProduct, mag1, mag2) :=
          fold_left accumulate (combine v1 v2) (0%float, 0%float, 0%float) in
        let mag1 := PrimFloat.sqrt mag1 in
        let mag2 := PrimFloat.sqrt mag2 in
        if PrimFloat.eqb mag1 0%float || PrimFloat.eqb mag2 0%float then 0%float
        else (dotProduct / (mag1 * mag2))%float
  | _, _ => 0%float
  end.

(** [findSimilarEmbeddings]: the options after their defaults. *)
Record SimilarityOptions : Type := mkSimilarityOptions {
  so_threshold : option float;
  so_maxResults : option Z;
  so_includeScores : option bool
}.

Section Documents.

(** A document is any object; [embeddingOf] reads its [embedding]. *)
Variable Doc : Type.
Variable embeddingOf : Doc -> option (list float).

(** [{...doc, similarity}], and the same after [delete doc.similarity]. *)
Record Scored : Type := mkScored {
  doc : Doc;
  similarity : option float
}.

Definition scoreOf (d : Scored) : float :=
  match similarity d with
  | Some x => x
  | None => PrimFloat.nan
  end.

(** [sort((a, b) => b.similarity - a.similarity)]: a stable sort; [m]
    comes behind every element the comparator does not put behind it. *)
Fixpoint insertByScore (m : Scored) (sorted : list Scored) : list Scored :=
  match sorted with
  | [] => [m]
  | x :: rest =>
      if PrimFloat.ltb 0%float (scoreOf m - scoreOf x)%float
      then m :: sorted
      else x :: insertByScore m rest
  end.

Definition sortByScore (ds : list Scored) : list Scored :=
  fold_left (fun sorted m => insertByScore m sorted) ds [].

(** [array.slice(0, end)] for an integer [end]. *)
Definition slice0 {A} (xs : list A) (end_ : Z) : list A :=
  let n := Z.of_nat (List.length xs) in
  let k := if end_ <? 0 then Z.max (n + end_) 0 else Z.min end_ n in
  firstn (Z.to_nat k) xs.

Definition findSimilarEmbeddings (queryEmbedding : option (list float))
           (documents : list Doc) (options : SimilarityOptions) : list Scored :=
  let threshold := match so_threshold options with Some t => t | None => 0.7%float end in
  let maxResults := match so_maxResults options with Some n => n | None => 5 end in
  let includeScores := match so_includeScores options with Some b => b | None => true end in
  match queryEmbedding with
  | None => []
  | Some _ =>
      if Nat.eqb (List.length documents) 0 then []
      else
        let scored :=
          List.map (fun d => mkScored d (Some (cosineSimilarity queryEmbedding (embeddingOf d))))
            documents in
        let filtered :=
          slice0 (sortByScore (filter (fun d => PrimFloat.leb threshold (scoreOf d)) scored))
            maxResults in
        if negb includeScores
        then List.map (fun d => mkScored (doc d) None) filtered
        else filtered
  end.

End Documents.

End EmbeddingService.

(* ------------------------------------------------------------------ *)
(** * server/services/supabaseClient.js and vectorRepository.js *)

Module VectorRepository.

(** [metadata JSONB]: the keys the pipeline reads.  [md_created_at] is the
    time value of [new Date(metadata.created_at)], [None] when the key is
    absent or does not parse (an invalid date). *)
Record Metadata : Type := mkMetadata {
  md_created_at : option Z;
  md_startChar : Z;
  md_endChar : Z;
  md_tokenEstimate : Z
}.

(** A row of the table [content_chunks]. *)
Record Row : Type := mkRow {
  id : N;
  user_id : jsstring;
  content_type : jsstring;
  content_id : jsstring;
  content_source : jsstring;
  chunk_index : Z;
  chunk_text : jsstring;
  metadata : Metadata;
  embedding : list float;
  created_at : Z
}.

(** A row of the table [match_content_chunks] returns. *)
Record Match : Type := mkMatch {
  m_id : N;
  m_content_id : jsstring;
  m_content_type : jsstring;
  m_content_text : jsstring;
  m_metadata : Metadata;
  m_similarity : float
}.

(** PostgreSQL orders [float8] with NaN equal to itself and above every
    other value. *)
Definition pg_lt (a b : float) : bool :=
  if PrimFloat.is_nan b then negb (PrimFloat.is_nan a)
  else if PrimFloat.is_nan a then false
  else PrimFloat.ltb a b.

Definition pg_gt (a b : float) : bool := pg_lt b a.

Definition defaultSimilarityThreshold : float := 0.75%float.
Definition defaultMatchCount : Z := 5.

Record Options : Type := mkOptions {
  threshold : option float;
  matchCount : option Z;
  contentTypes : list jsstring;
  contentIds : list jsstring;
  startDate : option (option Z);   (* given?, and the time value it parses to *)
  endDate : option (option Z)
}.

Definition noOptions : Options := mkOptions None None [] [] None None.

(** The database behind [supabaseClient.client]. *)
Record Supabase : Type := mkSupabase {
  sb_client : bool;
  content_chunks : list Row;
  rpcFailure : list event -> option jsstring
}.

Section Store.

(** The cosine-distance operator [<=>] of the vector extension. *)
Variable cosine_distance : list float -> list float -> float.

Definition similarityOf (query_embedding : list float) (c : Row) : float :=
  (1 - cosine_distance (embedding c) query_embedding)%float.

(** The [WHERE] clause. *)
Definition selected (query_embedding : list float) (match_threshold : float)
           (user_id_input : jsstring) (c : Row) : bool :=
  JS.eqb (user_id c) user_id_input
  && pg_gt (similarityOf query_embedding c) match_threshold.

(** The [SELECT] list. *)
Definition project (query_embedding : list float) (c : Row) : Match :=
  mkMatch (id c) (content_id c) (content_type c) (chunk_text c) (metadata c)
    (similarityOf query_embedding c).

(** [ORDER BY similarity DESC]; rows of equal similarity keep the order of
    the table here, the database promises none. *)
Fixpoint insertDesc (m : Match) (sorted : list Match) : list Match :=
  match sorted with
  | [] => [m]
  | x :: rest =>
      if pg_lt (m_similarity x) (m_similarity m) then m :: sorted
      else x :: insertDesc m rest
  end.

Definition orderBySimilarityDesc (ms : list Match) : list Match :=
  fold_right insertDesc [] ms.

(** The function [match_content_chunks] that [setupSchema] creates; a
    negative [LIMIT] is an error of the database. *)
Definition match_content_chunks (table : list Row) (query_embedding : list float)
           (match_threshold : float) (match_count : Z) (user_id_input : jsstring)
  : jsstring + list Match :=
  if match_count <? 0 then inl (lit "LIMIT must not be negative")
  else
    inr (firstn (Z.to_nat match_count)
           (orderBySimilarityDesc
              (List.map (project query_embedding)
                 (filter (selected query_embedding match_threshold user_id_input)
                    table)))).

Variable supabase : Supabase.
Local Open Scope js_scope.

(** What [supabaseClient.client.rpc(...)] resolves with: [{data, error}],
    each possibly null. *)
Record RpcResult : Type := mkRpcResult {
  data : option (list Match);
  error : option jsstring
}.

(** [supabaseClient.client.rpc('match_content_chunks', ...)]: the request
    may fail on its way, or the function runs in the database. *)
Definition rpc (query_embedding : list float) (match_threshold : float)
           (match_count : Z) (user_id_input : jsstring) : M RpcResult :=
  log <- getLog ;;
  emit (RpcMatchContentChunks user_id_input) ;;;
  match rpcFailure supabase log with
  | Some detail => ret (mkRpcResult None (Some detail))
  | None =>
      match match_content_chunks (content_chunks supabase) query_embedding
              match_threshold match_count user_id_input with
      | inl detail => ret (mkRpcResult None (Some detail))
      | inr rows => ret (mkRpcResult (Some rows) None)
      end
  end.

(** [new Date(item.metadata?.created_at || item.created_at)]: the rows of
    the function carry no [created_at] of their own. *)
Definition itemDate (item : Match) : option Z := md_created_at (m_metadata item).

(** [x >= y] and [x <= y] on dates; an invalid date compares false. *)
Definition dateGe (x y : option Z) : bool :=
  match x, y with
  | Some a, Some b => a >=? b
  | _, _ => false
  end.

Definition dateLe (x y : option Z) : bool :=
  match x, y with
  | Some a, Some b => a <=? b
  | _, _ => false
  end.

Definition clientFilter (options : Options) (data : list Match) : list Match :=
  let filtered := data in
  let filtered :=
    if (0 <? Z.of_nat (List.length (contentTypes options)))
    then filter (fun item => includes (contentTypes options) (m_content_type item)) filtered
    else filtered in
  let filtered :=
    if (0 <? Z.of_nat (List.length (contentIds options)))
    then filter (fun item => includes (contentIds options) (m_content_id item)) filtered
    else filtered in
  let filtered :=
    match startDate options with
    | Some startDateObj => filter (fun item => dateGe (itemDate item) startDateObj) filtered
    | None => filtered
    end in
  let filtered :=
    match endDate options with
    | Some endDateObj => filter (fun item => dateLe (itemDate item) endDateObj) filtered
    | None => filtered
    end in
  filtered.

Definition findSimilarChunks (queryEmbedding : list float) (userId : jsstring)
           (options : Options) : M (list Match) :=
  if negb (sb_client supabase) then throw SupabaseNotInitialized
  else
    let threshold := match threshold options with
                     | Some t => t
                     | None => defaultSimilarityThreshold
                     end in
    let matchCount := match matchCount options with
                      | Some n => n
                      | None => defaultMatchCount
                      end in
    tryCatch
      (r <- rpc queryEmbedding threshold matchCount userId ;;
       match error r with
       | Some error => throw (External error)
       | None =>
           match data r with
           | None => ret []
           | Some data => ret (clientFilter options data)
           end
       end)
      (fun error =>
         emit (ConsoleError (lit "Error finding similar chunks:")) ;;;
         throw error).

End Store.

End VectorRepository.

(* ------------------------------------------------------------------ *)
(** * server/services/responseGenerator.js *)

Module ResponseGenerator.

Definition defaultSystemPrompt : jsstring :=
  lit "You are an AI assistant that provides helpful, accurate, and concise responses. "
  ++ [LF] ++ lit "Use the provided context to answer the user's question. "
  ++ [LF] ++ lit "If the context doesn't contain relevant information, say that you don't have enough information and suggest what might help."
  ++ [LF] ++ lit "Don't make up information that isn't supported by the context."
  ++ [LF] ++ lit "Always maintain a friendly, helpful tone.".

Definition contextFormat : jsstring :=
  [LF] ++ lit "----- CONTEXT START -----" ++ [LF] ++ lit "{context}"
  ++ [LF] ++ lit "----- CONTEXT END -----" ++ [LF].

Definition separator : jsstring := [LF; LF] ++ lit "---" ++ [LF; LF].

Definition apology : jsstring :=
  lit "Sorry, I encountered an error while generating a response. Please try again later.".

(** The keys of [avatarConfig] the generator reads; [None] is an absent key. *)
Record AvatarConfig : Type := mkAvatarConfig {
  name : option jsstring;
  description : option jsstring;
  tone : option jsstring;
  writingStyle : option jsstring;
  knowledgeLevel : option jsstring;
  personality : option jsstring;
  customInstructions : option jsstring;
  model : option jsstring;
  temperature : option float;
  maxTokens : option float
}.

Definition emptyConfig : AvatarConfig :=
  mkAvatarConfig None None None None None None None None None None.

Definition isSome {A} (o : option A) : bool :=
  match o with Some _ => true | None => false end.

(** [Object.keys(avatarConfig).length === 0] *)
Definition noKeys (c : AvatarConfig) : bool :=
  negb (isSome (name c) || isSome (description c) || isSome (tone c)
        || isSome (writingStyle c) || isSome (knowledgeLevel c)
        || isSome (personality c) || isSome (customInstructions c)
        || isSome (model c) || isSome (temperature c) || isSome (maxTokens c)).

(** [${x}] of a template literal for a string that may be undefined. *)
Definition interpolate (x : option jsstring) : jsstring :=
  match x with
  | Some v => v
  | None => lit "undefined"
  end.

Definition asciiLower (c : char) : char :=
  if isUpper c then (c + 32)%N else c.

(** [s.toLowerCase() === target] for a [target] of the letters of
    "expert" and "beginner": no character outside A-Z lowers to one of
    them alone, so lowering A-Z decides the comparison. *)
Definition lowerIs (s target : jsstring) : bool :=
  JS.eqb (List.map asciiLower s) target.

Definition contextInstructions : jsstring :=
  lit "Use the provided context to answer the user's question. "
  ++ [LF] ++ lit "If the context doesn't contain relevant information, say that you don't have enough information and suggest what might help."
  ++ [LF] ++ lit "Don't make up information that isn't supported by the context."
  ++ [LF; LF].

Definition buildSystemPrompt (avatarConfig : AvatarConfig) : jsstring :=
  if noKeys avatarConfig then defaultSystemPrompt
  else
    let prompt := lit "You are " ++ strOr (name avatarConfig) (lit "an AI assistant") in
    let prompt :=
      if strTruthy (description avatarConfig)
      then prompt ++ lit ", " ++ interpolate (description avatarConfig)
      else prompt in
    let prompt := prompt ++ lit "." ++ [LF; LF] in
    let prompt :=
      if strTruthy (tone avatarConfig)
      then prompt ++ lit "Maintain a " ++ interpolate (tone avatarConfig)
                  ++ lit " tone in your responses. "
      else prompt in
    let prompt :=
      if strTruthy (writingStyle avatarConfig)
      then prompt ++ lit "Write in a " ++ interpolate (writingStyle avatarConfig)
                  ++ lit " style. "
      else prompt in
    let prompt := prompt ++ [LF; LF] in
    let prompt :=
      if strTruthy (knowledgeLevel avatarConfig)
      then
        let level := interpolate (knowledgeLevel avatarConfig) in
        let prompt := prompt ++ lit "Your expertise level is " ++ level ++ lit ". " in
        let prompt :=
          if lowerIs level (lit "expert")
          then prompt ++ lit "Use domain-specific terminology where appropriate. "
          else if lowerIs level (lit "beginner")
               then prompt ++ lit "Explain concepts in simple terms. "
               else prompt in
        prompt ++ [LF; LF]
      else prompt in
    let prompt :=
      if strTruthy (personality avatarConfig)
      then prompt ++ lit "Your personality traits include: "
                  ++ interpolate (personality avatarConfig)
                  ++ lit ". Reflect these traits in your responses." ++ [LF; LF]
      else prompt in
    let prompt := prompt ++ contextInstructions in
    let prompt :=
      if strTruthy (customInstructions avatarConfig)
      then prompt ++ interpolate (customInstructions avatarConfig) ++ [LF; LF]
      else prompt in
    prompt.

(** The context section of the system message. *)
Definition contextSection (contextTexts : list jsstring) : jsstring :=
  if 0 <? Z.of_nat (List.length contextTexts)
  then
    let combinedContext := join separator contextTexts in
    replaceFirst (lit "{context}") combinedContext contextFormat
  else [].

Section Generator.
Variable sdk : OpenaiClient.Sdk.
Local Open Scope js_scope.

Definition generateResponse (query : jsstring) (contextTexts : list jsstring)
           (avatarConfig : AvatarConfig) : M jsstring :=
  if negb (OpenaiClient.isConfigured sdk) then throw OpenAINotInitialized
  else
    tryCatch
      (let contextSection := contextSection contextTexts in
       let systemPrompt := buildSystemPrompt avatarConfig in
       let messages :=
         [ mkMessage (lit "system") (systemPrompt ++ contextSection);
           mkMessage (lit "user") query ] in
       response <- OpenaiClient.createChatCompletion sdk messages
                     (strOr (model avatarConfig) (lit "gpt-4-turbo"))
                     (Some (numOr (temperature avatarConfig) 0.7%float))
                     (Some (numOr (maxTokens avatarConfig) 1000%float)) ;;
       ret response)
      (fun error =>
         emit (ConsoleError (lit "Error generating response:")) ;;;
         ret apology).

(** [${n}] for a safe integer [n] (at most 2^53 - 1 in absolute value):
    its decimal digits.  A larger number prints with its digits rounded,
    and from 10^21 on in exponent form; those are outside this
    definition. *)
Definition numberToString (n : Z) : jsstring :=
  lit (NilZero.string_of_int (Z.to_int n)).

(** [generateSummary(content, maxLength)], for an integer [maxLength]. *)
Definition generateSummary (content : jsstring) (maxLength : Z) : M jsstring :=
  if negb (OpenaiClient.isConfigured sdk) then throw OpenAINotInitialized
  else
    tryCatch
      (let messages :=
         [ mkMessage (lit "system")
             (lit "Summarize the following text concisely in "
              ++ numberToString maxLength
              ++ lit " characters or less. Capture the key points while maintaining accuracy.");
           mkMessage (lit "user") content ] in
       summary <- OpenaiClient.createChatCompletion sdk messages
                    (lit "gpt-3.5-turbo") (Some 0.5%float) (Some 100%float) ;;
       ret summary)
      (fun error =>
         emit (ConsoleError (lit "Error generating summary:")) ;;;
         ret (substring content 0 maxLength ++ lit "...")).

End Generator.

End ResponseGenerator.

(* ------------------------------------------------------------------ *)
(** * Writes to the database: vectorRepository.js, second part

    The inserts of [vectorRepository.js] go to the same client as the
    search.  They are logged next to the events of the first part: a log
    of the second kind holds those events and the inserts, in the order
    they happened. *)

Module Persistence.

Import VectorRepository.

(** A value of a metadata object. *)
Inductive jsvalue : Type :=
| VNum (n : Z)
| VStr (s : jsstring)
| VArr (xs : list jsstring).

(** An object read by key; the order of the keys is not kept by the
    [JSONB] column the objects are written to. *)
Definition object : Type := jsstring -> option jsvalue.

Definition emptyObject : object := fun _ => None.

(** [{...o, key: v}] *)
Definition setProp (o : object) (key : jsstring) (v : jsvalue) : object :=
  fun k => if JS.eqb k key then Some v else o k.

(** A row handed to [.from('content_chunks').insert(records)]. *)
Record ChunkRecord : Type := mkChunkRecord {
  r_user_id : jsstring;
  r_content_type : jsstring;
  r_content_id : jsstring;
  r_content_source : jsstring;
  r_chunk_index : Z;
  r_chunk_text : jsstring;
  r_metadata : object;
  r_embedding : list float
}.

(** What [.select('id, content_id, chunk_index, created_at')] gives back. *)
Record StoredChunk : Type := mkStoredChunk {
  s_id : N;
  s_content_id : jsstring;
  s_chunk_index : Z;
  s_created_at : Z
}.

(** A row handed to [.from('chat_history').insert(...)]. *)
Record HistoryRecord : Type := mkHistoryRecord {
  h_user_id : jsstring;
  h_user_query : jsstring;
  h_query_embedding : list float;
  h_system_response : jsstring;
  h_retrieved_chunk_ids : list N
}.

(** The stored row, as [.select('*').single()] gives it back. *)
Record HistoryRow : Type := mkHistoryRow {
  hr_id : N;
  hr_record : HistoryRecord;
  hr_created_at : Z
}.

Inductive dbEvent : Type :=
| InsertContentChunks (records : list ChunkRecord)
| InsertChatHistory (record : HistoryRecord).

Definition entry : Type := (event + dbEvent)%type.

Definition M2 (A : Type) : Type := list entry -> result A * list entry.

Definition ret2 {A} (a : A) : M2 A := fun log => (Ok a, log).
Definition throw2 {A} (e : thrown) : M2 A := fun log => (Throw e, log).
Definition emit2 (e : entry) : M2 unit := fun log => (Ok tt, log ++ [e]).
Definition getLog2 : M2 (list entry) := fun log => (Ok log, log).

Definition bind2 {A B} (m : M2 A) (k : A -> M2 B) : M2 B :=
  fun log =>
    match m log with
    | (Ok a, log') => k a log'
    | (Throw e, log') => (Throw e, log')
    end.

Definition tryCatch2 {A} (m : M2 A) (h : thrown -> M2 A) : M2 A :=
  fun log =>
    match m log with
    | (Ok a, log') => (Ok a, log')
    | (Throw e, log') => h e log'
    end.

(** The events of the first kind in a log. *)
Fixpoint events (log : list entry) : list event :=
  match log with
  | [] => []
  | inl e :: log' => e :: events log'
  | inr _ :: log' => events log'
  end.

(** A computation of the first part, run on the events logged so far;
    what it appends is appended here. *)
Definition liftM {A} (m : M A) : M2 A :=
  fun log =>
    let '(r, log') := m (events log) in
    (r, log ++ List.map inl (skipn (List.length (events log)) log')).

(** What the inserts answer: the error or the data of [{data, error}]. *)
Record Tables : Type := mkTables {
  insertContentChunks : list entry -> list ChunkRecord -> jsstring + list StoredChunk;
  insertChatHistory : list entry -> HistoryRecord -> jsstring + HistoryRow
}.

Declare Scope db_scope.
Delimit Scope db_scope with db.
Notation "x <- m ;; k" := (bind2 m (fun x => k))
  (at level 61, m at next level, right associativity) : db_scope.
Notation "m ;;; k" := (bind2 m (fun _ => k))
  (at level 61, right associativity) : db_scope.

(** [chunks.map((chunk, index) => ({...}))], from [index] on. *)
Fixpoint recordsFrom (index : Z) (chunks : list EmbeddingService.EmbeddedChunk)
         (userId contentType contentId contentSource : jsstring) (metadata : object)
  : list ChunkRecord :=
  match chunks with
  | [] => []
  | chunk :: chunks' =>
      mkChunkRecord userId contentType contentId contentSource index
        (EmbeddingService.ec_text chunk)
        (setProp
           (setProp
              (setProp metadata (lit "startChar") (VNum (EmbeddingService.ec_startChar chunk)))
              (lit "endChar") (VNum (EmbeddingService.ec_endChar chunk)))
           (lit "tokenEstimate") (VNum (EmbeddingService.ec_tokenEstimate chunk)))
        (EmbeddingService.ec_embedding chunk)
      :: recordsFrom (index + 1) chunks' userId contentType contentId contentSource metadata
  end.

Section Writes.

Variable supabase : Supabase.
Variable tables : Tables.
Local Open Scope db_scope.

Definition storeContentChunks (chunks : list EmbeddingService.EmbeddedChunk)
           (userId contentType contentId contentSource : jsstring) (metadata : object)
  : M2 (list StoredChunk) :=
  if negb (sb_client supabase) then throw2 SupabaseNotInitialized
  else if Nat.eqb (List.length chunks) 0 then ret2 []
  else
    tryCatch2
      (let records := recordsFrom 0 chunks userId contentType contentId contentSource metadata in
       log <- getLog2 ;;
       emit2 (inr (InsertContentChunks records)) ;;;
       match insertContentChunks tables log records with
       | inl error => throw2 (External error)
       | inr data => ret2 data
       end)
      (fun error =>
         emit2 (inl (ConsoleError (lit "Error storing content chunks:"))) ;;;
         throw2 error).

Definition storeChatHistory (userId query : jsstring) (queryEmbedding : list float)
           (response : jsstring) (retrievedChunkIds : list N) : M2 HistoryRow :=
  if negb (sb_client supabase) then throw2 SupabaseNotInitialized
  else
    tryCatch2
      (let record := mkHistoryRecord userId query queryEmbedding response retrievedChunkIds in
       log <- getLog2 ;;
       emit2 (inr (InsertChatHistory record)) ;;;
       match insertChatHistory tables log record with
       | inl error => throw2 (External error)
       | inr data => ret2 data
       end)
      (fun error =>
         emit2 (inl (ConsoleError (lit "Error storing chat history:"))) ;;;
         throw2 error).

End Writes.

End Persistence.

(* ------------------------------------------------------------------ *)
(** * server/services/queryProcessor.js *)

Module QueryProcessor.

Import VectorRepository Persistence.

Definition defaultSimilarityThreshold : float := 0.75%float.
Definition defaultMaxChunks : Z := 5.

(** The keys of [options] that [processQuery] reads. *)
Record QueryOptions : Type := mkQueryOptions {
  qo_threshold : option float;
  qo_maxChunks : option Z;
  qo_contentTypes : list jsstring;
  qo_contentIds : list jsstring
}.

Record QueryResult : Type := mkQueryResult {
  qr_query : jsstring;
  qr_response : jsstring;
  qr_similarChunks : list Match;
  qr_hasResults : bool
}.

(** [n || d] on an integer that may be undefined. *)
Definition intOr (x : option Z) (d : Z) : Z :=
  match x with
  | Some v => if v =? 0 then d else v
  | None => d
  end.

Section Processor.

Variable sdk : OpenaiClient.Sdk.
Variable cosine_distance : list float -> list float -> float.
Variable supabase : Supabase.
Variable tables : Tables.
Local Open Scope db_scope.

(** [queryEmbeddingResult.embedding]: a string gives one result object;
    reading the property of [undefined] is a TypeError of the runtime,
    and an array has no such property. *)
Definition embeddingOfResult (r : EmbeddingService.embeddings) : result (list float) :=
  match r with
  | EmbeddingService.One (Some e) => Ok (EmbeddingService.er_embedding e)
  | EmbeddingService.One None =>
      Throw (External (lit "TypeError: Cannot read properties of undefined"))
  | EmbeddingService.Several _ =>
      Throw (External (lit "TypeError: embedding is undefined"))
  end.

Definition processQuery (query userId : jsstring)
           (avatarConfig : ResponseGenerator.AvatarConfig) (options : QueryOptions)
  : M2 QueryResult :=
  tryCatch2
    (let cleanedQuery := cleanText query in
     queryEmbeddingResult <-
       liftM (EmbeddingService.generateEmbeddings sdk
                (EmbeddingService.Single cleanedQuery) EmbeddingService.defaultModel) ;;
     queryEmbedding <- (fun log => (embeddingOfResult queryEmbeddingResult, log)) ;;
     let threshold := numOr (qo_threshold options) defaultSimilarityThreshold in
     let maxChunks := intOr (qo_maxChunks options) defaultMaxChunks in
     similarChunks <-
       liftM (findSimilarChunks cosine_distance supabase queryEmbedding userId
                (mkOptions (Some threshold) (Some maxChunks)
                   (qo_contentTypes options) (qo_contentIds options) None None)) ;;
     if Nat.eqb (List.length similarChunks) 0 then
       noContextResponse <-
         liftM (ResponseGenerator.generateResponse sdk cleanedQuery [] avatarConfig) ;;
       storeChatHistory supabase tables userId cleanedQuery queryEmbedding
         noContextResponse [] ;;;
       ret2 (mkQueryResult cleanedQuery noContextResponse [] false)
     else
       let retrievedChunkTexts := List.map m_content_text similarChunks in
       response <-
         liftM (ResponseGenerator.generateResponse sdk cleanedQuery
                  retrievedChunkTexts avatarConfig) ;;
       let chunkIds := List.map m_id similarChunks in
       storeChatHistory supabase tables userId cleanedQuery queryEmbedding
         response chunkIds ;;;
       ret2 (mkQueryResult cleanedQuery response similarChunks true))
    (fun error =>
       emit2 (inl (ConsoleError (lit "Error processing query:"))) ;;;
       throw2 error).

End Processor.

End QueryProcessor.

(* ------------------------------------------------------------------ *)
(** * contentIngestion.js: [ingestCustomText]

    The other entry points of the file fetch from YouTube and Instagram
    through services that are not modelled.  [ingestCustomText] takes its
    text from the caller. *)

Module ContentIngestion.

Import VectorRepository Persistence.

(** The keys of [options] that [ingestCustomText] reads. *)
Record IngestOptions : Type := mkIngestOptions {
  io_chunkSize : option Z;
  io_overlap : option Z
}.

(** What the [catch] block catches: the error thrown for a short text,
    or one thrown by a service. *)
Inductive ingestError : Type :=
| TextTooShort
| Raised (e : thrown).

(** The object the call resolves with; [error] stands for the
    [error.message] of the object. *)
Inductive IngestResult : Type :=
| Success (contentType contentId contentTitle : jsstring)
          (chunksProcessed totalTokens : Z) (metadata : object)
| Failure (contentType : jsstring) (error : ingestError).

(** The call has resolved, or it is still in the loop of [chunkText]
    after the passes given. *)
Inductive ingestion : Type :=
| Resolved (r : IngestResult)
| Chunking (startChar : Z) (chunks : list Chunk).

(** [chunk.tokenEstimate || 0] *)
Definition zOr (x d : Z) : Z := if x =? 0 then d else x.

(** [chunks.reduce((total, chunk) => total + (chunk.tokenEstimate || 0), 0)] *)
Definition totalTokensOf (chunks : list EmbeddingService.EmbeddedChunk) : Z :=
  fold_left (fun total chunk => total + zOr (EmbeddingService.ec_tokenEstimate chunk) 0)
    chunks 0.

Section Ingestion.

Variable sdk : OpenaiClient.Sdk.
Variable supabase : Supabase.
Variable tables : Tables.

(** [ContentTypes.CUSTOM_TEXT], of [models/contentTypes], a module that
    is not among the sources. *)
Variable CUSTOM_TEXT : jsstring.

(** [textProcessor.extractKeywords]: its lower-casing and its counting
    object are not modelled; the ingestion stores what it returns. *)
Variable extractKeywords : jsstring -> Z -> list jsstring.

(** [Date.now()], [Math.floor(Math.random() * 1000)] and
    [new Date().toISOString()], read with the log so far. *)
Variable dateNow : list entry -> Z.
Variable random1000 : list entry -> Z.
Variable toISOString : list entry -> jsstring.

Local Open Scope db_scope.

Definition metadataOf (title : option jsstring) (keywords : list jsstring)
           (createdAt : jsstring) : object :=
  setProp
    (setProp
       (setProp emptyObject (lit "title") (VStr (strOr title (lit "Custom Text"))))
       (lit "keywords") (VArr keywords))
    (lit "createdAt") (VStr createdAt).

(** [ingestCustomText(text, userId, title, options)].  The log records
    the requests to the provider and to the database and the
    [console.error] lines; the informational [console.log] line with the
    content id, written before the text is cleaned, is not recorded. *)
Definition ingestCustomText (fuel : nat) (text userId : jsstring) (title : option jsstring)
           (options : IngestOptions) : list entry -> ingestion * list entry :=
  fun log =>
    let failed (error : ingestError) (log' : list entry) :=
      (Resolved (Failure CUSTOM_TEXT error),
       log' ++ [inl (ConsoleError (lit "Error ingesting custom text:"))]) in
    if negb (truthy text) || (len text <? 100) then failed TextTooShort log
    else
      let contentId :=
        lit "custom_" ++ ResponseGenerator.numberToString (dateNow log)
          ++ lit "_" ++ ResponseGenerator.numberToString (random1000 log) in
      let cleanedText := cleanText text in
      match chunkText fuel cleanedText
              (QueryProcessor.intOr (io_chunkSize options) 1500)
              (QueryProcessor.intOr (io_overlap options) 150) with
      | Running startChar chunks => (Chunking startChar chunks, log)
      | Returned chunks =>
          match
            (chunksWithEmbeddings <-
               liftM (EmbeddingService.embedChunks sdk chunks EmbeddingService.defaultModel) ;;
             let keywords := extractKeywords text 10 in
             log' <- getLog2 ;;
             let metadata := metadataOf title keywords (toISOString log') in
             storedChunks <-
               storeContentChunks supabase tables chunksWithEmbeddings userId CUSTOM_TEXT
                 contentId (strOr title (lit "Custom Text")) metadata ;;
             ret2 (Success CUSTOM_TEXT contentId (strOr title (lit "Custom Text"))
                     (Z.of_nat (List.length storedChunks))
                     (totalTokensOf chunksWithEmbeddings) metadata)) log
          with
          | (Ok r, log') => (Resolved r, log')
          | (Throw e, log') => failed (Raised e) log'
          end
      end.

End Ingestion.

End ContentIngestion.

(* ------------------------------------------------------------------ *)
(** * queryProcessor.js: [searchByKeyword]

    The search groups the rows it finds in an object keyed by
    [content_id].  The object is a list of its own properties in the
    order they were created; a key it does not own is read through
    [Object.prototype]. *)

Module KeywordSearch.

Import VectorRepository.

Record KeywordMatch : Type := mkKeywordMatch {
  km_chunkId : N;
  km_text : jsstring;
  km_similarity : float
}.

Record Group : Type := mkGroup {
  g_contentId : jsstring;
  g_contentType : jsstring;
  g_matches : list KeywordMatch;
  g_maxSimilarity : float
}.

Record SearchResult : Type := mkSearchResult {
  sr_keyword : jsstring;
  sr_results : list Group;
  sr_totalMatches : Z;
  sr_hasResults : bool
}.

(** The own properties of [groupedResults]. *)
Definition grouped : Type := list (jsstring * Group).

(** The property names of [Object.prototype]: methods, and the accessor
    [__proto__].  Each reads as a truthy value without a [matches]
    property. *)
Definition objectPrototypeKeys : list jsstring :=
  List.map lit
    ["constructor"; "__defineGetter__"; "__defineSetter__"; "hasOwnProperty";
     "__lookupGetter__"; "__lookupSetter__"; "isPrototypeOf"; "propertyIsEnumerable";
     "toString"; "valueOf"; "__proto__"; "toLocaleString"]%string.

Fixpoint own (key : jsstring) (o : grouped) : option Group :=
  match o with
  | [] => None
  | (k, g) :: o' => if JS.eqb k key then Some g else own key o'
  end.

Fixpoint update (key : jsstring) (f : Group -> Group) (o : grouped) : grouped :=
  match o with
  | [] => []
  | (k, g) :: o' => if JS.eqb k key then (k, f g) :: o' else (k, g) :: update key f o'
  end.

(** The two statements after the [if]: push the match, raise the
    maximum. *)
Definition record (chunk : Match) (g : Group) : Group :=
  mkGroup (g_contentId g) (g_contentType g)
    (g_matches g ++ [mkKeywordMatch (m_id chunk) (m_content_text chunk) (m_similarity chunk)])
    (if PrimFloat.ltb (g_maxSimilarity g) (m_similarity chunk)
     then m_similarity chunk
     else g_maxSimilarity g).

(** One call of the [forEach] callback. *)
Definition addChunk (groupedResults : grouped) (chunk : Match) : result grouped :=
  let contentId := m_content_id chunk in
  match own contentId groupedResults with
  | Some _ => Ok (update contentId (record chunk) groupedResults)
  | None =>
      if includes objectPrototypeKeys contentId
      then Throw (External (lit "TypeError: Cannot read properties of undefined (reading 'push')"))
      else
        Ok (groupedResults
              ++ [(contentId, record chunk (mkGroup contentId (m_content_type chunk) [] 0%float))])
  end.

Fixpoint forEach (chunks : list Match) (groupedResults : grouped) : result grouped :=
  match chunks with
  | [] => Ok groupedResults
  | chunk :: chunks' =>
      match addChunk groupedResults chunk with
      | Throw e => Throw e
      | Ok groupedResults' => forEach chunks' groupedResults'
      end
  end.

(** A key that is an array index: the decimal form, without leading
    zeros, of an integer below 2^32 - 1. *)
Definition arrayIndex (key : jsstring) : option N :=
  match key with
  | [] => None
  | c :: rest =>
      if forallb isDigit key && (negb (N.eqb c 48) || Nat.eqb (List.length rest) 0)
      then
        let n := fold_left (fun acc d => 10 * acc + (d - 48))%N key 0%N in
        if (n <=? 4294967294)%N then Some n else None
      else None
  end.

Fixpoint insertByIndex (e : N * Group) (sorted : list (N * Group)) : list (N * Group) :=
  match sorted with
  | [] => [e]
  | x :: rest =>
      if (fst e <? fst x)%N then e :: sorted else x :: insertByIndex e rest
  end.

(** [Object.values]: the values of the array-index keys in ascending
    order of the index, then those of the other keys in the order the
    keys were created. *)
Definition objectValues (o : grouped) : list Group :=
  let indexed :=
    flat_map (fun p => match arrayIndex (fst p) with
                       | Some n => [(n, snd p)]
                       | None => []
                       end) o in
  let named :=
    filter (fun p => match arrayIndex (fst p) with
                     | Some _ => false
                     | None => true
                     end) o in
  List.map snd (fold_left (fun sorted e => insertByIndex e sorted) indexed [])
    ++ List.map snd named.

(** [sort((a, b) => b.maxSimilarity - a.maxSimilarity)]: a stable sort;
    [m] comes behind every element the comparator does not put behind
    it. *)
Fixpoint insertByMax (m : Group) (sorted : list Group) : list Group :=
  match sorted with
  | [] => [m]
  | x :: rest =>
      if PrimFloat.ltb 0%float (g_maxSimilarity m - g_maxSimilarity x)%float
      then m :: sorted
      else x :: insertByMax m rest
  end.

Definition sortByMax (gs : list Group) : list Group :=
  fold_left (fun sorted m => insertByMax m sorted) gs [].

Section Search.

Variable sdk : OpenaiClient.Sdk.
Variable cosine_distance : list float -> list float -> float.
Variable supabase : Supabase.
Local Open Scope js_scope.

Definition searchByKeyword (keyword userId : jsstring)
           (options : QueryProcessor.QueryOptions) : M SearchResult :=
  tryCatch
    (let cleanedKeyword := cleanText keyword in
     keywordEmbeddingResult <-
       EmbeddingService.generateEmbeddings sdk (EmbeddingService.Single cleanedKeyword)
         EmbeddingService.defaultModel ;;
     keywordEmbedding <- lift (QueryProcessor.embeddingOfResult keywordEmbeddingResult) ;;
     let threshold := numOr (QueryProcessor.qo_threshold options) 0.7%float in
     let maxChunks := QueryProcessor.intOr (QueryProcessor.qo_maxChunks options) 20 in
     similarChunks <-
       findSimilarChunks cosine_distance supabase keywordEmbedding userId
         (mkOptions (Some threshold) (Some maxChunks)
            (QueryProcessor.qo_contentTypes options)
            (QueryProcessor.qo_contentIds options) None None) ;;
     groupedResults <- lift (forEach similarChunks []) ;;
     let results := sortByMax (objectValues groupedResults) in
     ret (mkSearchResult cleanedKeyword results
            (Z.of_nat (List.length similarChunks))
            (0 <? Z.of_nat (List.length similarChunks))))
    (fun error =>
       emit (ConsoleError (lit "Error searching by keyword:")) ;;;
       throw error).

End Search.

End KeywordSearch.

(* ------------------------------------------------------------------ *)
(** * Example inputs *)

Module Examples.

(** One hundred characters of prose, two sentences. *)
Definition paragraph : jsstring :=
  lit "The keeper climbed the narrow stairs at dusk and lit the lamp. "
  ++ lit "Far below the boats turned for home. ".

(** A 5000-character text. *)
Definition prose5000 : jsstring := List.concat (repeat paragraph 50).

Definition twoLines : jsstring := lit "a" ++ [LF] ++ lit "b".

(** 32001 characters: an estimate of 8001 tokens. *)
Definition oversize : jsstring := repeat 97%N (N.to_nat 32001).

(** A provider that answers, and one that is out of quota. *)
Definition sdkUp : OpenaiClient.Sdk :=
  OpenaiClient.mkSdk true (fun _ _ _ => inr [1%float]) (fun _ _ => inr (lit "Hi!")).

(** A chunk text that passes the size guard: 20000 characters, an
    estimate of 5000 tokens. *)
Definition longChunk : jsstring := repeat 97%N (N.to_nat 20000).

Definition sdkDown : OpenaiClient.Sdk :=
  OpenaiClient.mkSdk true
    (fun _ _ _ => inl (lit "429 rate limit"))
    (fun _ _ => inl (lit "429 rate limit")).

(** Two owners hold a chunk with the same text and the same embedding. *)
Definition noMetadata : VectorRepository.Metadata :=
  VectorRepository.mkMetadata None 0 4 1.

Definition rowA : VectorRepository.Row :=
  VectorRepository.mkRow 1%N (lit "A") (lit "custom_text") (lit "c1") (lit "")
    0 (lit "same") noMetadata [1%float; 0%float] 0.

Definition rowB : VectorRepository.Row :=
  VectorRepository.mkRow 2%N (lit "B") (lit "custom_text") (lit "c2") (lit "")
    0 (lit "same") noMetadata [1%float; 0%float] 0.

Definition table : list VectorRepository.Row := [rowB; rowA].

Definition store : VectorRepository.Supabase :=
  VectorRepository.mkSupabase true table (fun _ => None).

(** The distance the vector extension computes, with the arithmetic of
    [cosineSimilarity]. *)
Definition distance (a b : list float) : float :=
  (1 - EmbeddingService.cosineSimilarity (Some a) (Some b))%float.

End Examples.

(* ------------------------------------------------------------------ *)
(** * Properties of the text processor *)

Module TextProcessorFacts.

(** ** Token estimate *)

Lemma estimateTokenCount_bounds : forall text,
  4 * (estimateTokenCount text - 1) < len text <= 4 * estimateTokenCount text.
Proof.
  intros text.
  assert (E : estimateTokenCount text = (len text + 3) / 4)
    by (destruct text; reflexivity).
  rewrite E.
  pose proof (Z.div_mod (len text + 3) 4 ltac:(lia)) as D.
  pose proof (Z.mod_pos_bound (len text + 3) 4 ltac:(lia)) as B.
  lia.
Qed.

(** C9: the estimate is the ceiling of a quarter of the length (the least
    integer [e] with [len <= 4 * e]), it is 0 for the empty text, and a
    text at least as long never gets a smaller estimate. *)
Theorem estimateTokenCount_ceil_monotone :
  (forall text,
      4 * (estimateTokenCount text - 1) < len text <= 4 * estimateTokenCount text)
  /\ estimateTokenCount [] = 0
  /\ (forall s t, len s <= len t -> estimateTokenCount s <= estimateTokenCount t).
Proof.
  assert (E : forall text, estimateTokenCount text = (len text + 3) / 4).
  { intros [|c text]; reflexivity. }
  split; [|split].
  - exact estimateTokenCount_bounds.
  - reflexivity.
  - intros s t H. rewrite !E. apply Z.div_le_mono; lia.
Qed.

Lemma estimateTokenCount_ceil_monotone_witness :
  estimateTokenCount (lit "abcde") <= estimateTokenCount (lit "abcdefghi").
Proof.
  apply (proj2 (proj2 estimateTokenCount_ceil_monotone)).
  vm_compute. intro H. discriminate H.
Defined.

(** ** The chunking loop *)

Lemma startsWith_length : forall p s,
  startsWith p s = true -> (List.length p <= List.length s)%nat.
Proof.
  induction p as [|c p IH]; intros [|d s] H; simpl in *; try lia; try discriminate.
  apply andb_true_iff in H. destruct H as [_ H]. apply IH in H. lia.
Qed.

(** A non-empty pattern is found strictly inside the string, or not at all. *)
Lemma lastIndexFrom_lt_len : forall s search k,
  search <> [] -> lastIndexFrom s search k < len s.
Proof.
  intros s search k Hne. unfold len.
  induction k as [|k IH]; cbn [lastIndexFrom].
  - destruct (startsWith search (skipn 0 s)) eqn:E; [|lia].
    apply startsWith_length in E. rewrite length_skipn in E.
    destruct search; [congruence|]. simpl in E. lia.
  - destruct (startsWith search (skipn (S k) s)) eqn:E; [|exact IH].
    apply startsWith_length in E. rewrite length_skipn in E.
    destruct search; [congruence|]. simpl in E. lia.
Qed.

Lemma chunkEnd_le_len : forall text chunkSize startChar,
  chunkEnd text chunkSize startChar <= len text.
Proof.
  intros text chunkSize startChar. unfold chunkEnd.
  destruct (startChar + chunkSize <? len text) eqn:E; [|lia].
  apply Z.ltb_lt in E.
  pose proof (lastIndexFrom_lt_len text [LF; LF]
                (Z.to_nat (clamp (startChar + chunkSize) 0 (len text)))
                ltac:(discriminate)) as P.
  pose proof (lastIndexFrom_lt_len text (lit ". ")
                (Z.to_nat (clamp (startChar + chunkSize) 0 (len text)))
                ltac:(discriminate)) as Q.
  unfold lastIndexOf.
  repeat match goal with |- context [if ?b then _ else _] => destruct b end; lia.
Qed.

(** With a positive overlap the next start stays below the length of the
    text, so a pass of the loop that began inside the text is followed by
    another one: the exit test [startChar >= text.length] never holds. *)
Lemma chunkLoop_keeps_running : forall fuel text chunkSize overlap startChar chunks,
  0 < overlap -> startChar < len text ->
  exists startChar' chunks',
    chunkLoop fuel text chunkSize overlap startChar chunks = Running startChar' chunks'
    /\ (List.length chunks <= List.length chunks')%nat.
Proof.
  induction fuel as [|fuel IH]; intros text chunkSize overlap startChar chunks Hov Hlt;
    simpl; apply Z.ltb_lt in Hlt as Hb; rewrite Hb.
  - eauto.
  - pose proof (chunkEnd_le_len text chunkSize startChar) as Hle.
    destruct (chunkEnd text chunkSize startChar - overlap >=? len text) eqn:E; [lia|].
    match goal with |- context [chunkLoop fuel _ _ _ _ ?cs] =>
      destruct (IH text chunkSize overlap (chunkEnd text chunkSize startChar - overlap)
                  cs Hov ltac:(lia)) as (st' & cs' & Heq & Hlen)
    end.
    exists st', cs'. split; [exact Heq|].
    destruct (truthy _); [rewrite length_app in Hlen; simpl in Hlen|]; lia.
Qed.

(** C1 (the code parts from it): a non-empty text no longer than
    [chunkSize] comes back as one chunk; for a text longer than
    [chunkSize] and [0 < overlap < chunkSize] the loop of [chunkText] is
    still running after any number of passes: it never returns.  No pass
    forces an advance: the next start is [endChar - overlap], below the
    length of the text whenever the overlap is positive. *)
Theorem chunkText_never_returns : forall text chunkSize overlap,
  0 < overlap < chunkSize ->
  (text <> [] -> len text <= chunkSize ->
     forall fuel, chunkText fuel text chunkSize overlap
                  = Returned [mkChunk text 0 (len text)])
  /\ (chunkSize < len text ->
      forall fuel, exists startChar chunks,
        chunkText fuel text chunkSize overlap = Running startChar chunks).
Proof.
  intros text chunkSize overlap [Hov Hcs]. split.
  - intros Hne Hlen fuel. unfold chunkText.
    destruct text as [|c text]; [congruence|]. cbn [truthy negb].
    apply Z.leb_le in Hlen. rewrite Hlen. reflexivity.
  - intros Hlen fuel. unfold chunkText.
    destruct text as [|c text]; [unfold len in Hlen; simpl in Hlen; lia|].
    cbn [truthy negb].
    destruct (len (c :: text) <=? chunkSize) eqn:E; [lia|].
    destruct (chunkLoop_keeps_running fuel (c :: text) chunkSize overlap 0 [] Hov ltac:(lia))
      as (st & cs & Heq & _).
    eauto.
Qed.

Lemma chunkText_never_returns_witness :
  exists startChar chunks,
    chunkText 1000 (lit "aaaaaaaaaaaa") 10 3 = Running startChar chunks.
Proof.
  apply (proj2 (chunkText_never_returns (lit "aaaaaaaaaaaa") 10 3 ltac:(lia)));
    vm_compute; reflexivity.
Defined.

(** Start, end and length of the text of a chunk. *)
Definition span (c : Chunk) : Z * Z * Z := (startChar c, endChar c, len (text c)).

(** C2 (the code parts from it): on the 5000-character text with
    [chunkSize = 1500] and [overlap = 150] the first four passes push the
    four chunks of the scenario, the last one ending at 5000; the loop
    then goes on from 4850, pushing the same tail chunk again, and does
    not return whatever number of passes it is given. *)
Theorem chunkText_prose5000 :
  (exists chunks,
      chunkText 4 Examples.prose5000 1500 150 = Running 4850 chunks
      /\ List.map span chunks
         = [(0, 1499, 1499); (1349, 2799, 1450); (2649, 4099, 1450); (3949, 5000, 1050)])
  /\ (exists chunks,
      chunkText 6 Examples.prose5000 1500 150 = Running 4850 chunks
      /\ List.map span (skipn 4 chunks) = [(4850, 5000, 149); (4850, 5000, 149)])
  /\ (forall fuel, exists startChar chunks,
      chunkText fuel Examples.prose5000 1500 150 = Running startChar chunks).
Proof.
  split; [|split].
  - eexists. split; vm_compute; reflexivity.
  - eexists. split; vm_compute; reflexivity.
  - intros fuel. unfold chunkText.
    replace (negb (truthy Examples.prose5000)) with false by (vm_compute; reflexivity).
    replace (len Examples.prose5000 <=? 1500) with false by (vm_compute; reflexivity).
    destruct (chunkLoop_keeps_running fuel Examples.prose5000 1500 150 0 []
                ltac:(lia) ltac:(vm_compute; reflexivity)) as (st & cs & Heq & _).
    eauto.
Qed.

(** ** The regular expressions *)

Fixpoint dropWhile (p : char -> bool) (s : jsstring) : jsstring :=
  match s with
  | c :: s' => if p c then dropWhile p s' else s
  | [] => []
  end.

(** The last character read after [w], starting from [prev]. *)
Definition lastOr (prev : option char) (w : jsstring) : option char :=
  fold_left (fun _ c => Some c) w prev.

Lemma dropWhile_length : forall p s,
  (List.length (dropWhile p s) <= List.length s)%nat.
Proof.
  induction s as [|c s IH]; simpl; [lia|]. destruct (p c); simpl; lia.
Qed.

Lemma dropWhile_none : forall p s,
  forallb (fun c => negb (p c)) s = true -> dropWhile p s = s.
Proof.
  intros p [|c s] H; simpl in *; [reflexivity|].
  apply andb_true_iff in H. destruct H as [H _].
  destruct (p c); [discriminate|reflexivity].
Qed.

(** A greedy repetition whose continuation cannot fail stops behind the
    longest run. *)
Lemma many_greedy : forall (A : Type) p s prev (f : jsstring -> A),
  many p prev s (fun _ rest => Some (f rest)) = Some (f (dropWhile p s)).
Proof.
  induction s as [|c s IH]; intros prev f; simpl; [reflexivity|].
  destruct (p c); [rewrite IH|]; reflexivity.
Qed.

Lemma many_run : forall (A : Type) p w prev t (k : option char -> jsstring -> option A) r,
  forallb p w = true ->
  many p (lastOr prev w) t k = Some r ->
  many p prev (w ++ t) k = Some r.
Proof.
  induction w as [|c w IH]; intros prev t k r Hw Hk; simpl in *; [exact Hk|].
  apply andb_true_iff in Hw. destruct Hw as [Hc Hw]. rewrite Hc.
  rewrite (IH (Some c) t k r Hw Hk). reflexivity.
Qed.

Lemma matchAt_Plus : forall p prev d s,
  matchAt (Plus p) prev (d :: s)
  = if p d then Some (S (List.length s - List.length (dropWhile p s))) else None.
Proof.
  intros p prev d s. unfold matchAt. cbn [rx_match].
  destruct (p d); [|reflexivity].
  rewrite many_greedy. f_equal.
  pose proof (dropWhile_length p s). cbn [List.length]. lia.
Qed.

(** Whatever the pattern, a global replacement only emits characters of
    the input and of the replacement. *)
Lemma replaceGo_In : forall r repl c s prev skip,
  In c (replaceGo r repl prev s skip) -> In c repl \/ In c s.
Proof.
  induction s as [|d s IH]; intros prev skip H.
  - destruct skip; simpl in H; [|contradiction].
    destruct (matchAt r prev []) as [[|n]|]; simpl in H;
      rewrite ?app_nil_r in H; auto.
  - destruct skip as [|n]; simpl in H.
    + destruct (matchAt r prev (d :: s)) as [[|n]|].
      * apply in_app_or in H. destruct H as [H|H]; [auto|].
        destruct H as [H|H]; [right; left; exact H|].
        apply IH in H. destruct H; [auto|right; right; assumption].
      * apply in_app_or in H. destruct H as [H|H]; [auto|].
        apply IH in H. destruct H; [auto|right; right; assumption].
      * destruct H as [H|H]; [right; left; exact H|].
        apply IH in H. destruct H; [auto|right; right; assumption].
    + apply IH in H. destruct H; [auto|right; right; assumption].
Qed.

(** Replacing the runs of a class leaves no character of the class but
    what the replacement brings. *)
Lemma replaceGo_Plus_In : forall p repl c s prev skip,
  In c (replaceGo (Plus p) repl prev s skip) -> In c repl \/ p c = false.
Proof.
  induction s as [|d s IH]; intros prev skip H.
  - destruct skip; simpl in H; [|contradiction].
    unfold matchAt in H. simpl in H. contradiction.
  - destruct skip as [|n]; cbn [replaceGo] in H.
    + rewrite matchAt_Plus in H. destruct (p d) eqn:E.
      * apply in_app_or in H. destruct H as [H|H]; [auto|]. eapply IH; eassumption.
      * destruct H as [H|H]; [subst; auto|]. eapply IH; eassumption.
    + eapply IH; eassumption.
Qed.

(** A pattern that matches nowhere in [s] leaves [s] as it is.  [P] is a
    property of [s] that its suffixes inherit. *)
Lemma replaceGo_id : forall (P : jsstring -> Prop) r repl,
  (forall c t, P (c :: t) -> P t) ->
  (forall prev t, P t -> matchAt r prev t = None) ->
  forall s prev, P s -> replaceGo r repl prev s O = s.
Proof.
  intros P r repl Htl Hno. induction s as [|c s IH]; intros prev Hs;
    cbn [replaceGo]; rewrite (Hno prev _ Hs); [reflexivity|].
  f_equal. apply IH. eapply Htl; eassumption.
Qed.

Definition lacks (q : char -> bool) (s : jsstring) : Prop :=
  forallb (fun c => negb (q c)) s = true.

Lemma lacks_tail : forall q c t, lacks q (c :: t) -> lacks q t.
Proof.
  unfold lacks. simpl. intros q c t H. apply andb_true_iff in H. tauto.
Qed.

Lemma lacks_head : forall q c t, lacks q (c :: t) -> q c = false.
Proof.
  unfold lacks. simpl. intros q c t H. apply andb_true_iff in H.
  destruct H as [H _]. destruct (q c); [discriminate|reflexivity].
Qed.

Lemma lacks_In : forall q s, (forall c, In c s -> q c = false) -> lacks q s.
Proof.
  unfold lacks. intros q s H. apply forallb_forall. intros c Hc.
  rewrite (H c Hc). reflexivity.
Qed.

Lemma lacks_weaken : forall (q q' : char -> bool) s,
  (forall c, q' c = true -> q c = true) -> lacks q s -> lacks q' s.
Proof.
  unfold lacks. intros q q' s H Hs. rewrite forallb_forall in *.
  intros c Hc. specialize (Hs c Hc). destruct (q' c) eqn:E; [|reflexivity].
  rewrite (H c E) in Hs. exact Hs.
Qed.

Lemma replaceAll_Plus_id : forall p repl s,
  lacks p s -> replaceAll (Plus p) repl s = s.
Proof.
  intros p repl s H. unfold replaceAll.
  apply (replaceGo_id (lacks p)); [apply lacks_tail| |exact H].
  intros prev [|d t] Ht; [reflexivity|].
  rewrite matchAt_Plus, (lacks_head _ _ _ Ht). reflexivity.
Qed.


Lemma replaceAll_Chr1_id : forall c0 repl s,
  lacks (N.eqb c0) s -> replaceAll (Chr c0) repl s = s.
Proof.
  intros c0 repl s H. unfold replaceAll.
  apply (replaceGo_id (lacks (N.eqb c0))); [apply lacks_tail| |exact H].
  intros prev [|d t] Ht; [reflexivity|].
  unfold matchAt. cbn [rx_match]. rewrite (lacks_head _ _ _ Ht). reflexivity.
Qed.

(** ** Trimming *)

Lemma trimStart_In : forall c s, In c (trimStart s) -> In c s.
Proof.
  induction s as [|d s IH]; simpl; [tauto|].
  destruct (isSpace d); simpl; tauto.
Qed.

Lemma trim_In : forall c s, In c (trim s) -> In c s.
Proof.
  intros c s H. unfold trim, trimEnd in H.
  apply in_rev in H. apply trimStart_In in H. apply in_rev in H.
  apply trimStart_In in H. exact H.
Qed.

Lemma trim_id : forall s, lacks isSpace s -> trim s = s.
Proof.
  intros s H. unfold trim, trimEnd.
  assert (T : forall t, lacks isSpace t -> trimStart t = t).
  { intros [|c t] Ht; [reflexivity|]. simpl. rewrite (lacks_head _ _ _ Ht). reflexivity. }
  rewrite (T s H), T, rev_involutive; [reflexivity|].
  unfold lacks in *. rewrite forallb_forall in *. intros c Hc.
  apply H. apply in_rev. exact Hc.
Qed.

(** ** Cleaning *)

(** After [/\s+/g] no line feed, tab or carriage return is left, so the
    three replacements that follow find nothing. *)
Lemma cleanText_collapse : forall text,
  cleanText text = trim (replaceAll rxSpaces [SP] text).
Proof.
  intros text. unfold cleanText.
  destruct text as [|c0 text]; [reflexivity|].
  cbn [truthy negb]. set (s1 := replaceAll rxSpaces [SP] (c0 :: text)).
  assert (H : forall c, In c s1 -> c = SP \/ isSpace c = false).
  { intros c Hc. apply replaceGo_Plus_In in Hc. destruct Hc as [[Hc|[]]|Hc]; auto. }
  assert (L : forall q, q SP = false -> (forall c, q c = true -> isSpace c = true) ->
                        lacks q s1).
  { intros q HSP Hq. apply lacks_In. intros c Hc.
    destruct (H c Hc) as [->|Hn]; [exact HSP|].
    destruct (q c) eqn:E; [|reflexivity]. rewrite (Hq c E) in Hn. discriminate. }
  unfold rxNewlines, rxTabs, rxCR.
  rewrite (replaceAll_Plus_id (N.eqb LF)), (replaceAll_Plus_id (N.eqb TAB)),
    (replaceAll_Chr1_id CR); try reflexivity; apply L; try reflexivity;
    intros c E; apply N.eqb_eq in E; subst c; reflexivity.
Qed.

Lemma lacks_repeat : forall q c n, q c = false -> lacks q (repeat c n).
Proof.
  intros q c n H. apply lacks_In. intros d Hd.
  apply repeat_spec in Hd. subst d. exact H.
Qed.

(** A text without white space is clean already. *)
Lemma cleanText_plain : forall text, lacks isSpace text -> cleanText text = text.
Proof.
  intros text H. rewrite cleanText_collapse.
  unfold rxSpaces. rewrite replaceAll_Plus_id by exact H. apply trim_id. exact H.
Qed.

Lemma estimateTokenCount_len : forall text,
  estimateTokenCount text = (len text + 3) / 4.
Proof.
  intros [|c text]; reflexivity.
Qed.

Lemma len_repeat : forall c n, len (repeat c (N.to_nat n)) = Z.of_N n.
Proof.
  intros c n. unfold len. rewrite repeat_length. apply N_nat_Z.
Qed.

(** C7 (the code parts from it): a line feed between two words comes out
    as a space; in general [cleanText] is "collapse every run of white
    space, line feeds included, to one space, then trim", and its result
    holds no line feed at all. *)
Theorem cleanText_drops_newlines :
  cleanText Examples.twoLines = lit "a b"
  /\ (forall text, cleanText text = trim (replaceAll rxSpaces [SP] text))
  /\ (forall text, ~ In LF (cleanText text)).
Proof.
  split; [vm_compute; reflexivity|]. split; [exact cleanText_collapse|].
  intros text H. rewrite cleanText_collapse in H.
  apply trim_In in H. apply replaceGo_Plus_In in H.
  destruct H as [[H|[]]|H]; discriminate H.
Qed.

(** ** Transcripts *)





Lemma lacks_forallb : forall (p q : char -> bool) w,
  forallb p w = true -> (forall c, p c = true -> q c = false) -> lacks q w.
Proof.
  intros p q w Hw H. apply lacks_In. intros c Hc. apply H.
  rewrite forallb_forall in Hw. apply Hw. exact Hc.
Qed.

Lemma lastOr_snoc : forall prev a c, lastOr prev (a ++ [c]) = Some c.
Proof.
  intros prev a c. unfold lastOr. rewrite fold_left_app. reflexivity.
Qed.


(** Behind a character that ends no line, in a text without line
    terminators, [^] matches nowhere. *)
Lemma replaceGo_Bol_id : forall r repl t c,
  isLineTerminator c = false -> lacks isLineTerminator t ->
  replaceGo (Seq Bol r) repl (Some c) t O = t.
Proof.
  induction t as [|d t IH]; intros c Hc Ht; cbn [replaceGo];
    unfold matchAt; cbn [rx_match atLineStart]; rewrite Hc; [reflexivity|].
  f_equal. apply IH; [eapply lacks_head|eapply lacks_tail]; eassumption.
Qed.









(** *** The speaker labels *)




(** *** The speaker names *)





















End TextProcessorFacts.

(* ------------------------------------------------------------------ *)
(** * Properties of the embedding service *)

Module EmbeddingServiceFacts.

Import OpenaiClient EmbeddingService.

(** ** The size guard *)

(** The estimate the guard compares with [maxContentLength]. *)
Definition guardEstimate (text : jsstring) : Z := estimateTokenCount (cleanText text).

Lemma mapR_processItem_Throw : forall texts e,
  mapR processItem texts = Throw e ->
  exists t, In t texts /\ maxContentLength < guardEstimate t
            /\ e = ContentTooLarge (guardEstimate t) maxContentLength.
Proof.
  induction texts as [|t texts IH]; intros e H; simpl in H; [discriminate|].
  unfold processItem in H at 1. fold (guardEstimate t) in H.
  destruct (guardEstimate t >? maxContentLength) eqn:G.
  - inversion H; subst. exists t. repeat split; auto with datatypes.
    apply Z.gtb_lt in G. exact G.
  - destruct (mapR processItem texts) as [items|e'] eqn:E; [discriminate|].
    inversion H; subst. destruct (IH e eq_refl) as (t' & Hin & Hgt & He).
    exists t'. auto with datatypes.
Qed.

Lemma mapR_processItem_Ok : forall texts items,
  mapR processItem texts = Ok items ->
  forall t, In t texts -> guardEstimate t <= maxContentLength.
Proof.
  induction texts as [|t texts IH]; intros items H t' Hin; [contradiction|].
  simpl in H. unfold processItem in H at 1. fold (guardEstimate t) in H.
  destruct (guardEstimate t >? maxContentLength) eqn:G; [discriminate|].
  destruct (mapR processItem texts) as [items'|e'] eqn:E; [|discriminate].
  destruct Hin as [->|Hin]; [|eapply IH; eauto].
  rewrite Z.gtb_ltb in G. apply Z.ltb_ge in G. exact G.
Qed.

(** What the provider wrapper can reject with. *)
Definition fromProvider (e : thrown) : Prop :=
  e = OpenAINotInitialized \/ exists detail, e = External detail.

Lemma createEmbedding_Throw : forall sdk text model log e log',
  createEmbedding sdk text model log = (Throw e, log') -> fromProvider e.
Proof.
  intros sdk text model log e log' H. unfold createEmbedding in H.
  destruct (client sdk); simpl in H.
  - unfold tryCatch, bind, getLog, emit, throw, ret in H. simpl in H.
    destruct (sdkCreateEmbedding sdk log model text) as [detail|v]; simpl in H;
      inversion H; subst. right. eauto.
  - inversion H. left. reflexivity.
Qed.

Lemma embedItems_Throw : forall sdk model items results log e log',
  embedItems sdk model items results log = (Throw e, log') -> fromProvider e.
Proof.
  induction items as [|item items IH]; intros results log e log' H; simpl in H.
  - unfold ret in H. discriminate H.
  - unfold bind at 1, tryCatch at 1, bind at 1 in H.
    destruct (createEmbedding sdk (pi_processedText item) model log) as [[v|e0] log0] eqn:C.
    + simpl in H. eapply IH; eassumption.
    + simpl in H. inversion H; subst. eapply createEmbedding_Throw; eassumption.
Qed.

(** C8, as the code has it: with the client set up, [generateEmbeddings]
    rejects with the content-too-large error exactly when the estimate
    [ceil(len/4)] of some cleaned input text exceeds 8000, the error
    carries that estimate, and in that case nothing was logged: no call to
    the embedding provider was made. *)
Theorem generateEmbeddings_size_guard : forall sdk c model log,
  client sdk = true ->
  ((exists est,
       fst (generateEmbeddings sdk c model log) = Throw (ContentTooLarge est 8000))
   <-> (exists t, In t (textArray c) /\ 8000 < guardEstimate t))
  /\ (forall t, In t (textArray c) -> 8000 < guardEstimate t ->
        exists t', In t' (textArray c) /\ 8000 < guardEstimate t'
          /\ generateEmbeddings sdk c model log
             = (Throw (ContentTooLarge (guardEstimate t') 8000), log))
  /\ (forall t, 4 * (guardEstimate t - 1) < len (cleanText t) <= 4 * guardEstimate t).
Proof.
  intros sdk c model log Hc.
  assert (Big : forall t, In t (textArray c) -> 8000 < guardEstimate t ->
                  exists t', In t' (textArray c) /\ 8000 < guardEstimate t'
                    /\ generateEmbeddings sdk c model log
                       = (Throw (ContentTooLarge (guardEstimate t') 8000), log)).
  { intros t Hin Hgt. unfold generateEmbeddings, isConfigured. rewrite Hc.
    change (negb true) with false. cbv iota. unfold bind at 1, lift.
    destruct (mapR processItem (textArray c)) as [items|e] eqn:E.
    - pose proof (mapR_processItem_Ok _ _ E t Hin). unfold maxContentLength in *. lia.
    - destruct (mapR_processItem_Throw _ _ E) as (t' & Hin' & Hgt' & ->).
      exists t'. auto. }
  split; [split|split].
  - intros [est H]. unfold generateEmbeddings, isConfigured in H. rewrite Hc in H.
    change (negb true) with false in H. cbv iota in H. unfold bind at 1, lift in H.
    destruct (mapR processItem (textArray c)) as [items|e] eqn:E.
    + exfalso. unfold bind in H.
      destruct (embedItems sdk model items [] log) as [[rs|e] log'] eqn:R;
        simpl in H; [destruct c; discriminate|].
      apply embedItems_Throw in R. inversion H; subst.
      destruct R as [R|[d R]]; discriminate.
    + destruct (mapR_processItem_Throw _ _ E) as (t & Hin & Hgt & _).
      exists t. split; [exact Hin|exact Hgt].
  - intros (t & Hin & Hgt). destruct (Big t Hin Hgt) as (t' & _ & _ & ->).
    exists (guardEstimate t'). reflexivity.
  - exact Big.
  - intros t. unfold guardEstimate.
    apply TextProcessorFacts.estimateTokenCount_bounds.
Qed.

(** The estimate of a run of [n] letters. *)
Lemma guardEstimate_letters : forall n,
  guardEstimate (repeat 97%N (N.to_nat n)) = (Z.of_N n + 3) / 4.
Proof.
  intros n. unfold guardEstimate.
  rewrite TextProcessorFacts.cleanText_plain
    by (apply TextProcessorFacts.lacks_repeat; reflexivity).
  rewrite TextProcessorFacts.estimateTokenCount_len, TextProcessorFacts.len_repeat.
  reflexivity.
Qed.

Lemma generateEmbeddings_size_guard_witness :
  exists t', In t' [Examples.oversize] /\ 8000 < guardEstimate t'
    /\ generateEmbeddings Examples.sdkUp (Single Examples.oversize) defaultModel []
       = (Throw (ContentTooLarge (guardEstimate t') 8000), []).
Proof.
  apply (proj1 (proj2 (generateEmbeddings_size_guard Examples.sdkUp
                         (Single Examples.oversize) defaultModel [] eq_refl))
           Examples.oversize).
  - left. reflexivity.
  - unfold Examples.oversize. rewrite guardEstimate_letters. reflexivity.
Defined.

(** No client was set up: [initialize] was never called with a key. *)
Definition sdkAbsent : Sdk :=
  mkSdk false (fun _ _ _ => inr [1%float]) (fun _ _ => inr (lit "Hi!")).

(** The claim C8 fails on the code as it is stated, without the client:
    the check for the client comes first, so a text of 32001 characters,
    with an estimate of 8001 tokens, is rejected with "OpenAI client not
    initialized" and not with the content-too-large error; without a
    client every input is rejected so, before anything is logged. *)
Lemma generateEmbeddings_size_guard_needs_client :
  8000 < guardEstimate Examples.oversize
  /\ generateEmbeddings sdkAbsent (Single Examples.oversize) defaultModel []
     = (Throw OpenAINotInitialized, [])
  /\ ~ (exists est,
          fst (generateEmbeddings sdkAbsent (Single Examples.oversize) defaultModel [])
          = Throw (ContentTooLarge est 8000))
  /\ (forall c model log,
        generateEmbeddings sdkAbsent c model log = (Throw OpenAINotInitialized, log)).
Proof.
  assert (E : forall c model log,
            generateEmbeddings sdkAbsent c model log = (Throw OpenAINotInitialized, log))
    by reflexivity.
  split; [|split; [|split]].
  - unfold Examples.oversize. rewrite guardEstimate_letters. reflexivity.
  - apply E.
  - rewrite E. intros [est H]. discriminate H.
  - exact E.
Qed.

(** ** Cosine similarity in binary64 *)

Local Open Scope float_scope.

Lemma SFmul_comm : forall x y, SF64mul x y = SF64mul y x.
Proof.
  unfold SF64mul.
  intros [sx|sx| |sx mx ex] [sy|sy| |sy my ey]; simpl;
    rewrite ?(xorb_comm sx sy); try reflexivity.
  rewrite (Pos.mul_comm mx my), (Z.add_comm ex ey). reflexivity.
Qed.

Lemma mul_comm : forall x y : float, x * y = y * x.
Proof.
  intros x y. apply Prim2SF_inj. rewrite !mul_spec. apply SFmul_comm.
Qed.

(** A number that [=== 0] is one of the two zeros. *)
Lemma eqb_zero : forall x : float, PrimFloat.eqb x 0 = true -> x = 0 \/ x = -0.
Proof.
  intros x H. rewrite FloatAxioms.eqb_spec in H.
  change (Prim2SF 0) with (S754_zero false) in H.
  rewrite <- (SF2Prim_Prim2SF x).
  destruct (Prim2SF x) as [s|s| |s m e]; unfold SFeqb in H; simpl in H.
  - destruct s; [right|left]; reflexivity.
  - destruct s; discriminate H.
  - discriminate H.
  - destruct s; discriminate H.
Qed.

Lemma cosineSimilarity_eq : forall v1 v2,
  cosineSimilarity (Some v1) (Some v2)
  = if negb (Nat.eqb (List.length v1) (List.length v2)) then 0
    else
      let '(dotProduct, mag1, mag2) :=
        fold_left accumulate (combine v1 v2) (0, 0, 0) in
      if PrimFloat.eqb (sqrt mag1) 0 || PrimFloat.eqb (sqrt mag2) 0 then 0
      else dotProduct / (sqrt mag1 * sqrt mag2).
Proof. reflexivity. Qed.

Lemma accumulate_swap : forall v1 v2 d m1 m2,
  fold_left accumulate (combine v2 v1) (d, m2, m1)
  = let '(D, M1, M2) := fold_left accumulate (combine v1 v2) (d, m1, m2) in
    (D, M2, M1).
Proof.
  induction v1 as [|x v1 IH]; intros [|y v2] d m1 m2; try reflexivity.
  cbn [combine fold_left accumulate]. rewrite (mul_comm y x). apply IH.
Qed.

Definition isZeroVector (v : list float) : bool :=
  forallb (fun x => PrimFloat.eqb x 0) v.

Lemma accumulate_zero : forall a b d m2,
  isZeroVector a = true ->
  let '(_, M1, _) := fold_left accumulate (combine a b) (d, 0, m2) in M1 = 0.
Proof.
  induction a as [|x a IH]; intros [|y b] d m2 H; try reflexivity.
  cbn [combine fold_left accumulate].
  simpl in H. apply andb_true_iff in H. destruct H as [Hx Ha].
  replace (0 + x * x) with 0; [apply IH; exact Ha|].
  destruct (eqb_zero x Hx); subst x; reflexivity.
Qed.

Lemma cosineSimilarity_sym : forall a b,
  cosineSimilarity a b = cosineSimilarity b a.
Proof.
  intros [v1|] [v2|]; try reflexivity.
  rewrite !cosineSimilarity_eq, (Nat.eqb_sym (List.length v2)).
  destruct (negb _); [reflexivity|].
  rewrite (accumulate_swap v1 v2 0 0 0).
  destruct (fold_left accumulate (combine v1 v2) (0, 0, 0)) as [[D M1] M2].
  rewrite orb_comm, (mul_comm (sqrt M2)). reflexivity.
Qed.

Lemma cosineSimilarity_zero_left : forall a b,
  isZeroVector a = true -> cosineSimilarity (Some a) (Some b) = 0.
Proof.
  intros a b H. rewrite cosineSimilarity_eq.
  destruct (negb _); [reflexivity|].
  pose proof (accumulate_zero a b 0 0 H) as Z.
  destruct (fold_left accumulate (combine a b) (0, 0, 0)) as [[D M1] M2].
  subst M1. reflexivity.
Qed.

(** What the code does keep of the documented behaviour: the two orders
    of the arguments give the same number (the same NaN when the sums
    overflow); a missing argument, vectors of different lengths, and a
    vector whose entries all [=== 0] (the empty one among them) give 0. *)
Theorem cosineSimilarity_symmetric_zero :
  (forall a b, cosineSimilarity a b = cosineSimilarity b a)
  /\ (forall a, cosineSimilarity None a = 0 /\ cosineSimilarity a None = 0)
  /\ (forall a b, List.length a <> List.length b ->
                  cosineSimilarity (Some a) (Some b) = 0)
  /\ (forall a b, isZeroVector a = true \/ isZeroVector b = true ->
                  cosineSimilarity (Some a) (Some b) = 0).
Proof.
  split; [exact cosineSimilarity_sym|]. split; [|split].
  - intros [a|]; split; reflexivity.
  - intros a b H. rewrite cosineSimilarity_eq.
    apply Nat.eqb_neq in H. rewrite H. reflexivity.
  - intros a b [H|H]; [|rewrite cosineSimilarity_sym];
      apply cosineSimilarity_zero_left; exact H.
Qed.

Lemma cosineSimilarity_symmetric_zero_witness :
  cosineSimilarity (Some [0; -0]) (Some [1; 2]) = 0.
Proof.
  apply (proj2 (proj2 (proj2 cosineSimilarity_symmetric_zero))).
  left. reflexivity.
Defined.

(** C6: the function is documented to return a cosine similarity
    "(-1 to 1)", and the code leaves that range.  For [a = [1, 1, 1]] the
    result of [cosineSimilarity(a, a)] is 1.0000000000000002, above 1:
    the two square roots of 3 multiply to 2.9999999999999996 and nothing
    clamps the quotient.  For the non-zero [a = [1e-200]] the squares
    underflow and the result is 0, not 1; for [a = [1e200]] they overflow
    and the result is NaN. *)
Lemma cosineSimilarity_self_not_one :
  (let a := Some [1; 1; 1] in
   cosineSimilarity a a = 1.0000000000000002
   /\ PrimFloat.ltb 1 (cosineSimilarity a a) = true /\ cosineSimilarity a a <> 1)
  /\ (let a := Some [1e-200] in
      PrimFloat.eqb 1e-200 0 = false /\ cosineSimilarity a a = 0)
  /\ (let a := Some [1e200] in PrimFloat.is_nan (cosineSimilarity a a) = true).
Proof.
  split; [|split].
  - assert (H : PrimFloat.ltb 1 (cosineSimilarity (Some [1; 1; 1]) (Some [1; 1; 1])) = true)
      by (vm_compute; reflexivity).
    split; [vm_compute; reflexivity|].
    split; [exact H|]. intros E. rewrite E in H. vm_compute in H. discriminate H.
  - split; vm_compute; reflexivity.
  - vm_compute. reflexivity.
Qed.

End EmbeddingServiceFacts.

(* ------------------------------------------------------------------ *)
(** * Properties of the vector repository *)

Module VectorRepositoryFacts.

Import VectorRepository.

Lemma eqb_eq : forall s t, JS.eqb s t = true -> s = t.
Proof.
  induction s as [|c s IH]; intros [|d t] H; simpl in H; try discriminate.
  - reflexivity.
  - apply andb_true_iff in H. destruct H as [Hc Hs].
    apply N.eqb_eq in Hc. subst d. f_equal. apply IH. exact Hs.
Qed.

Lemma insertDesc_In : forall m x sorted,
  In x (insertDesc m sorted) -> x = m \/ In x sorted.
Proof.
  induction sorted as [|y sorted IH]; simpl; intros H.
  - destruct H as [H|[]]. left. symmetry. exact H.
  - destruct (pg_lt (m_similarity y) (m_similarity m)).
    + destruct H as [H|H]; [left; symmetry; exact H|right; exact H].
    + destruct H as [H|H]; [right; left; exact H|].
      apply IH in H. destruct H; [left|right; right]; assumption.
Qed.

Lemma orderBySimilarityDesc_In : forall x ms,
  In x (orderBySimilarityDesc ms) -> In x ms.
Proof.
  induction ms as [|m ms IH]; simpl; intros H; [exact H|].
  apply insertDesc_In in H. destruct H as [H|H]; [left; symmetry; exact H|].
  right. apply IH. exact H.
Qed.

Lemma firstn_In' : forall (A : Type) n (l : list A) x, In x (firstn n l) -> In x l.
Proof.
  induction n as [|n IH]; intros [|y l] x H; simpl in H; try contradiction.
  destruct H as [H|H]; [left; exact H|right; apply IH; exact H].
Qed.

Lemma clientFilter_In : forall options data x,
  In x (clientFilter options data) -> In x data.
Proof.
  intros options data x H. unfold clientFilter in H.
  repeat match type of H with
         | context [if ?b then _ else _] => destruct b
         | context [match ?o with Some _ => _ | None => _ end] => destruct o
         | In _ (filter _ _) => apply filter_In in H; destruct H as [H _]
         end; exact H.
Qed.

(** Every row the SQL function returns is the projection of a row of
    the caller's owner. *)
Lemma match_content_chunks_owner : forall dist table q threshold count owner data x,
  match_content_chunks dist table q threshold count owner = inr data ->
  In x data ->
  exists c, In c table /\ user_id c = owner /\ x = project dist q c.
Proof.
  intros dist table q threshold count owner data x H Hx.
  unfold match_content_chunks in H. destruct (count <? 0); [discriminate|].
  inversion H; subst data; clear H.
  apply firstn_In', orderBySimilarityDesc_In, in_map_iff in Hx.
  destruct Hx as (c & Hp & Hc). apply filter_In in Hc. destruct Hc as [Hin Hsel].
  unfold selected in Hsel. apply andb_true_iff in Hsel. destruct Hsel as [Hu _].
  exists c. repeat split; [exact Hin|apply eqb_eq; exact Hu|symmetry; exact Hp].
Qed.

(** C3: whatever is stored, whatever the query vector, the threshold and
    the options, every chunk [findSimilarChunks] resolves with is the
    projection of a stored row whose [user_id] is the caller's; with the
    primary key unique, no row of another owner has its [id] among the
    results, however similar it is. *)
Theorem findSimilarChunks_owner_only :
  forall dist supabase q userId options log results log',
    findSimilarChunks dist supabase q userId options log = (Ok results, log') ->
    (forall r, In r results ->
       exists c, In c (content_chunks supabase) /\ user_id c = userId
                 /\ r = project dist q c)
    /\ (NoDup (List.map id (content_chunks supabase)) ->
        forall c', In c' (content_chunks supabase) -> user_id c' <> userId ->
                   ~ In (id c') (List.map m_id results)).
Proof.
  intros dist supabase q userId options log results log' H.
  assert (Own : forall r, In r results ->
            exists c, In c (content_chunks supabase) /\ user_id c = userId
                      /\ r = project dist q c).
  { intros r Hr. unfold findSimilarChunks in H.
    destruct (sb_client supabase); [|discriminate].
    cbn [negb] in H. unfold rpc in H.
    unfold tryCatch, bind, getLog, emit, ret, throw in H.
    cbn beta iota in H.
    destruct (rpcFailure supabase log); cbn in H; [discriminate|].
    destruct (match_content_chunks _ _ _ _ _ _) as [err|rows] eqn:E;
      cbn in H; [discriminate|].
    inversion H; subst results; clear H.
    apply clientFilter_In in Hr.
    eapply match_content_chunks_owner; eassumption. }
  split; [exact Own|].
  intros Hnd c' Hc' Hne Hin. apply in_map_iff in Hin.
  destruct Hin as (r & Hid & Hr). destruct (Own r Hr) as (c & Hc & Hu & ->).
  cbn [project m_id] in Hid.
  assert (c = c'); [|subst c; contradiction].
  clear - Hnd Hc Hc' Hid. induction (content_chunks supabase) as [|y l IH];
    [contradiction|].
  simpl in Hnd. inversion Hnd as [|? ? Hny Hnl]; subst.
  destruct Hc as [->|Hc], Hc' as [->|Hc']; auto.
  - exfalso. apply Hny. rewrite Hid. apply in_map. exact Hc'.
  - exfalso. apply Hny. rewrite <- Hid. apply in_map. exact Hc.
Qed.

Lemma findSimilarChunks_owner_only_witness :
  exists c, In c Examples.table /\ user_id c = lit "A"
            /\ project Examples.distance [1%float; 0%float] Examples.rowA
               = project Examples.distance [1%float; 0%float] c.
Proof.
  refine (proj1 (findSimilarChunks_owner_only Examples.distance Examples.store
                   [1%float; 0%float] (lit "A") noOptions []
                   [project Examples.distance [1%float; 0%float] Examples.rowA]
                   [RpcMatchContentChunks (lit "A")] _) _ _).
  - vm_compute. reflexivity.
  - left. reflexivity.
Defined.

End VectorRepositoryFacts.

(* ------------------------------------------------------------------ *)
(** * Properties of the response generator *)

Module ResponseGeneratorFacts.

Import OpenaiClient ResponseGenerator.

(** ** Context assembly *)

Definition contextStart : jsstring := [LF] ++ lit "----- CONTEXT START -----" ++ [LF].
Definition contextEnd : jsstring := [LF] ++ lit "----- CONTEXT END -----" ++ [LF].

(** The sum of the lengths of the texts. *)
Definition totalLength (texts : list jsstring) : Z :=
  fold_right (fun t n => len t + n) 0 texts.

Lemma len_app : forall s t, len (s ++ t) = len s + len t.
Proof.
  intros s t. unfold len. rewrite length_app. lia.
Qed.

Lemma join_length : forall x xs,
  len (join separator (x :: xs)) = totalLength (x :: xs) + 7 * Z.of_nat (List.length xs).
Proof.
  intros x xs. revert x. induction xs as [|y xs IH]; intros x.
  - unfold totalLength. simpl. lia.
  - change (join separator (x :: y :: xs)) with (x ++ separator ++ join separator (y :: xs)).
    rewrite !len_app, IH. unfold totalLength. cbn [fold_right List.length].
    change (len separator) with 7. lia.
Qed.

(** A replacement text without [$] is inserted as it is. *)
Lemma getSubstitution_plain : forall matched before after template,
  TextProcessorFacts.lacks (N.eqb DOLLAR) template ->
  getSubstitution matched before after template = template.
Proof.
  induction template as [|d rest IH]; intros H; [reflexivity|].
  cbn [getSubstitution].
  pose proof (TextProcessorFacts.lacks_head _ _ _ H) as Hd.
  rewrite N.eqb_sym in Hd. rewrite Hd. f_equal.
  apply IH. eapply TextProcessorFacts.lacks_tail. exact H.
Qed.

Lemma contextSection_plain : forall x xs,
  TextProcessorFacts.lacks (N.eqb DOLLAR) (join separator (x :: xs)) ->
  contextSection (x :: xs) = contextStart ++ join separator (x :: xs) ++ contextEnd.
Proof.
  intros x xs H. unfold contextSection.
  replace (0 <? Z.of_nat (List.length (x :: xs))) with true
    by (symmetry; apply Z.ltb_lt; simpl; lia).
  unfold replaceFirst.
  replace (indexOf (lit "{context}") contextFormat) with (Some 27%nat)
    by (vm_compute; reflexivity).
  rewrite getSubstitution_plain by exact H.
  replace (firstn 27 contextFormat) with contextStart by (vm_compute; reflexivity).
  replace (skipn (27 + List.length (lit "{context}")) contextFormat) with contextEnd
    by (vm_compute; reflexivity).
  reflexivity.
Qed.

(** C4, as the code has it: the context section is every text handed in,
    in the order given, joined with the separator of seven characters and
    put between the two marker lines; nothing is dropped or cut, so its
    length grows with the texts without bound.  (A [$] in a text is read
    by [String.prototype.replace] as a replacement pattern; the equation
    is for texts without one.) *)
Theorem contextSection_joins_all :
  contextSection [] = []
  /\ (forall x xs,
        len (join separator (x :: xs))
        = totalLength (x :: xs) + 7 * Z.of_nat (List.length xs))
  /\ (forall x xs,
        TextProcessorFacts.lacks (N.eqb DOLLAR) (join separator (x :: xs)) ->
        contextSection (x :: xs) = contextStart ++ join separator (x :: xs) ++ contextEnd).
Proof.
  split; [reflexivity|]. split; [exact join_length|exact contextSection_plain].
Qed.

Lemma contextSection_joins_all_witness :
  contextSection [lit "first"; lit "second"]
  = contextStart ++ join separator [lit "first"; lit "second"] ++ contextEnd.
Proof.
  apply (proj2 (proj2 contextSection_joins_all)). vm_compute. reflexivity.
Defined.

(** The request [generateResponse] hands to the provider wrapper, as the
    wrapper sends it. *)
Definition requestOf (query : jsstring) (contextTexts : list jsstring)
           (avatarConfig : AvatarConfig) : ChatRequest :=
  mkChatRequest
    (strOr (model avatarConfig) (lit "gpt-4-turbo"))
    [ mkMessage (lit "system") (buildSystemPrompt avatarConfig ++ contextSection contextTexts);
      mkMessage (lit "user") query ]
    (numOr (Some (numOr (temperature avatarConfig) 0.7%float)) 0.7%float)
    (numOr (Some (numOr (maxTokens avatarConfig) 1000%float)) 1000%float)
    1%float 0%float 0%float.

Lemma generateResponse_answer : forall sdk query contextTexts avatarConfig log text,
  client sdk = true ->
  sdkCreateChatCompletion sdk log (requestOf query contextTexts avatarConfig) = inr text ->
  generateResponse sdk query contextTexts avatarConfig log
  = (Ok text, log ++ [SdkCreateChatCompletion (requestOf query contextTexts avatarConfig)]).
Proof.
  intros sdk query contextTexts avatarConfig log text Hc Ht.
  unfold generateResponse, isConfigured, createChatCompletion.
  rewrite Hc. cbn [negb].
  unfold tryCatch, bind, getLog, emit, ret, throw. cbn beta iota.
  fold (requestOf query contextTexts avatarConfig).
  rewrite Ht. reflexivity.
Qed.

Lemma generateResponse_failure : forall sdk query contextTexts avatarConfig log detail,
  client sdk = true ->
  sdkCreateChatCompletion sdk log (requestOf query contextTexts avatarConfig) = inl detail ->
  generateResponse sdk query contextTexts avatarConfig log
  = (Ok apology,
     ((log ++ [SdkCreateChatCompletion (requestOf query contextTexts avatarConfig)])
        ++ [ConsoleError (lit "Error creating chat completion:")])
       ++ [ConsoleError (lit "Error generating response:")]).
Proof.
  intros sdk query contextTexts avatarConfig log detail Hc Hd.
  unfold generateResponse, isConfigured, createChatCompletion.
  rewrite Hc. cbn [negb].
  unfold tryCatch, bind, getLog, emit, ret, throw. cbn beta iota.
  fold (requestOf query contextTexts avatarConfig).
  rewrite Hd. reflexivity.
Qed.

(** The claim C4 fails on the code: one retrieved chunk of 20000
    characters (it passes the size guard of the embedding service) gives a
    context section of 5013 estimated tokens, above the budget of 4000,
    and that section is sent to the provider whole. *)
Lemma contextSection_over_budget :
  EmbeddingServiceFacts.guardEstimate Examples.longChunk <= EmbeddingService.maxContentLength
  /\ estimateTokenCount (contextSection [Examples.longChunk]) = 5013
  /\ generateResponse Examples.sdkUp (lit "Hi?") [Examples.longChunk] emptyConfig []
     = (Ok (lit "Hi!"),
        [] ++ [SdkCreateChatCompletion (requestOf (lit "Hi?") [Examples.longChunk] emptyConfig)]).
Proof.
  split; [|split].
  - unfold Examples.longChunk. rewrite EmbeddingServiceFacts.guardEstimate_letters.
    vm_compute. discriminate.
  - rewrite contextSection_plain
      by (apply TextProcessorFacts.lacks_repeat; reflexivity).
    rewrite TextProcessorFacts.estimateTokenCount_len, !len_app.
    unfold join, Examples.longChunk. rewrite TextProcessorFacts.len_repeat.
    reflexivity.
  - apply generateResponse_answer; reflexivity.
Qed.

(** ** Provider failures *)

(** C5, as the code has it: without a client the call rejects with the
    not-initialised error; with one, the provider is asked exactly once;
    its answer is the result, and its failure is logged twice (by the
    wrapper and by [generateResponse]) and replaced by the fixed apology,
    with which the call resolves. *)
Theorem generateResponse_outcomes : forall sdk query contextTexts avatarConfig log,
  let req := requestOf query contextTexts avatarConfig in
  (client sdk = false ->
     generateResponse sdk query contextTexts avatarConfig log
     = (Throw OpenAINotInitialized, log))
  /\ (client sdk = true -> forall text,
        sdkCreateChatCompletion sdk log req = inr text ->
        generateResponse sdk query contextTexts avatarConfig log
        = (Ok text, log ++ [SdkCreateChatCompletion req]))
  /\ (client sdk = true -> forall detail,
        sdkCreateChatCompletion sdk log req = inl detail ->
        generateResponse sdk query contextTexts avatarConfig log
        = (Ok apology,
           ((log ++ [SdkCreateChatCompletion req])
              ++ [ConsoleError (lit "Error creating chat completion:")])
             ++ [ConsoleError (lit "Error generating response:")])).
Proof.
  intros sdk query contextTexts avatarConfig log req.
  split; [|split].
  - intros Hc. unfold generateResponse, isConfigured. rewrite Hc. reflexivity.
  - intros Hc text Ht. apply generateResponse_answer; assumption.
  - intros Hc detail Hd. eapply generateResponse_failure; eassumption.
Qed.

Lemma generateResponse_outcomes_witness :
  generateResponse Examples.sdkDown (lit "Hi?") [] emptyConfig []
  = (Ok apology,
     (([] ++ [SdkCreateChatCompletion (requestOf (lit "Hi?") [] emptyConfig)])
        ++ [ConsoleError (lit "Error creating chat completion:")])
       ++ [ConsoleError (lit "Error generating response:")]).
Proof.
  apply (proj2 (proj2 (generateResponse_outcomes Examples.sdkDown (lit "Hi?") []
                         emptyConfig [])) eq_refl (lit "429 rate limit")).
  reflexivity.
Defined.

(** The claim C5 fails on the code: the provider is out of quota, and
    [generateResponse] resolves with the apology instead of rejecting. *)
Lemma generateResponse_swallows_failure :
  sdkCreateChatCompletion Examples.sdkDown []
    (requestOf (lit "Hi?") [] emptyConfig) = inl (lit "429 rate limit")
  /\ fst (generateResponse Examples.sdkDown (lit "Hi?") [] emptyConfig []) = Ok apology
  /\ forall e, fst (generateResponse Examples.sdkDown (lit "Hi?") [] emptyConfig [])
               <> Throw e.
Proof.
  split; [reflexivity|]. split; [vm_compute; reflexivity|].
  intros e H. vm_compute in H. discriminate H.
Qed.

End ResponseGeneratorFacts.

(* ------------------------------------------------------------------ *)
(** * More on cleaning: the shape of the result *)

Module CleaningFacts.

Import TextProcessorFacts.

(** What [/\s+/g -> ' '] computes, read from left to right: [inSpace]
    tells that the current run of white space has been replaced already. *)
Fixpoint collapse (inSpace : bool) (s : jsstring) : jsstring :=
  match s with
  | [] => []
  | c :: s' =>
      if isSpace c
      then if inSpace then collapse true s' else SP :: collapse true s'
      else c :: collapse false s'
  end.

(** White space occurs as single spaces only; [prevSpace] tells that the
    character before [s] is one. *)
Fixpoint tidyb (prevSpace : bool) (s : jsstring) : bool :=
  match s with
  | [] => true
  | c :: s' =>
      if isSpace c then (c =? SP)%N && negb prevSpace && tidyb true s'
      else tidyb false s'
  end.

Lemma replaceGo_collapse : forall s prev,
  replaceGo rxSpaces [SP] prev s O = collapse false s
  /\ replaceGo rxSpaces [SP] prev s
       (List.length s - List.length (dropWhile isSpace s)) = collapse true s.
Proof.
  unfold rxSpaces.
  induction s as [|c s IH]; intros prev; [split; reflexivity|].
  pose proof (dropWhile_length isSpace s) as L.
  assert (First : replaceGo (Plus isSpace) [SP] prev (c :: s) O = collapse false (c :: s)).
  { cbn [replaceGo collapse]. rewrite matchAt_Plus. destruct (isSpace c).
    - cbn [app]. f_equal. apply (IH (Some c)).
    - f_equal. apply (IH (Some c)). }
  split; [exact First|].
  cbn [dropWhile collapse]. destruct (isSpace c) eqn:E.
  - replace (List.length (c :: s) - List.length (dropWhile isSpace s))%nat
      with (S (List.length s - List.length (dropWhile isSpace s)))
      by (cbn [List.length]; lia).
    cbn [replaceGo]. apply (IH (Some c)).
  - rewrite Nat.sub_diag. rewrite First. cbn [collapse]. rewrite E. reflexivity.
Qed.

Lemma cleanText_trim_collapse : forall text,
  cleanText text = trim (collapse false text).
Proof.
  intros text. rewrite cleanText_collapse. unfold replaceAll.
  rewrite (proj1 (replaceGo_collapse text None)). reflexivity.
Qed.

Lemma collapse_tidy : forall s,
  tidyb false (collapse false s) = true /\ forall b, tidyb b (collapse true s) = true.
Proof.
  induction s as [|c s [IH1 IH2]]; [split; reflexivity|].
  cbn [collapse]. destruct (isSpace c) eqn:E.
  - split; [|exact IH2]. cbn [tidyb]. change (isSpace SP) with true. cbv iota.
    rewrite IH2. reflexivity.
  - split; [|intros b]; cbn [tidyb]; rewrite E; exact IH1.
Qed.

Lemma tidy_fixed : forall s b, tidyb b s = true -> collapse b s = s.
Proof.
  induction s as [|c s IH]; intros b H; [reflexivity|].
  cbn [tidyb collapse] in *. destruct (isSpace c).
  - apply andb_true_iff in H. destruct H as [H Hs].
    apply andb_true_iff in H. destruct H as [Hc Hb].
    apply N.eqb_eq in Hc. subst c. destruct b; [discriminate|].
    f_equal. apply IH. exact Hs.
  - f_equal. apply IH. exact H.
Qed.

Lemma tidyb_weaken : forall s, tidyb true s = true -> tidyb false s = true.
Proof.
  intros [|c s] H; [reflexivity|]. cbn [tidyb] in *.
  destruct (isSpace c); [|exact H]. rewrite andb_false_r in H. discriminate.
Qed.

Lemma tidyb_prefix : forall x y b, tidyb b (x ++ y) = true -> tidyb b x = true.
Proof.
  induction x as [|c x IH]; intros y b H; [reflexivity|].
  cbn [app tidyb] in *. destruct (isSpace c).
  - apply andb_true_iff in H. destruct H as [H Hs]. rewrite H.
    apply (IH y true Hs).
  - apply (IH y false H).
Qed.

Lemma tidyb_trimStart : forall s, tidyb false s = true -> tidyb false (trimStart s) = true.
Proof.
  intros [|c s] H; [reflexivity|]. cbn [trimStart tidyb] in *.
  destruct (isSpace c) eqn:E; [|cbn [tidyb]; rewrite E; exact H].
  apply andb_true_iff in H. destruct H as [_ H].
  destruct s as [|d s]; [reflexivity|]. cbn [trimStart tidyb] in *.
  destruct (isSpace d) eqn:D.
  - rewrite andb_false_r in H. discriminate.
  - cbn [tidyb]. rewrite D. exact H.
Qed.

(** [trimStart] keeps a suffix, [trimEnd] a prefix. *)
Lemma trimStart_suffix : forall s, exists pre, s = pre ++ trimStart s.
Proof.
  induction s as [|c s [pre IH]]; [exists []; reflexivity|].
  cbn [trimStart]. destruct (isSpace c).
  - exists (c :: pre). cbn [app]. f_equal. exact IH.
  - exists []. reflexivity.
Qed.

Lemma trimEnd_prefix : forall s, exists post, s = trimEnd s ++ post.
Proof.
  intros s. unfold trimEnd. destruct (trimStart_suffix (rev s)) as [pre H].
  exists (rev pre). rewrite <- rev_app_distr, <- H, rev_involutive. reflexivity.
Qed.

Lemma tidyb_trim : forall s, tidyb false s = true -> tidyb false (trim s) = true.
Proof.
  intros s H. unfold trim. apply tidyb_trimStart in H.
  destruct (trimEnd_prefix (trimStart s)) as [post E].
  rewrite E in H. eapply tidyb_prefix. exact H.
Qed.

Lemma trimStart_idem : forall s, trimStart (trimStart s) = trimStart s.
Proof.
  induction s as [|c s IH]; [reflexivity|]. cbn [trimStart].
  destruct (isSpace c) eqn:E; [exact IH|]. cbn [trimStart]. rewrite E. reflexivity.
Qed.

Lemma trimStart_snoc : forall u c, isSpace c = false -> trimStart (u ++ [c]) = trimStart u ++ [c].
Proof.
  induction u as [|d u IH]; intros c H; cbn [app trimStart].
  - rewrite H. reflexivity.
  - destruct (isSpace d); [apply IH; exact H|reflexivity].
Qed.

(** The head of a trimmed text, if any, is no white space. *)
Lemma trimStart_head : forall s c t, trimStart s = c :: t -> isSpace c = false.
Proof.
  induction s as [|d s IH]; intros c t H; [discriminate|].
  cbn [trimStart] in H. destruct (isSpace d) eqn:E; [eapply IH; exact H|].
  inversion H; subst. exact E.
Qed.

Lemma trim_idem : forall s, trim (trim s) = trim s.
Proof.
  intros s. unfold trim.
  assert (H : trimStart (trimEnd (trimStart s)) = trimEnd (trimStart s)).
  { destruct (trimStart s) as [|c t] eqn:E; [reflexivity|].
    pose proof (trimStart_head _ _ _ E) as Hc.
    unfold trimEnd. cbn [rev]. rewrite trimStart_snoc by exact Hc.
    rewrite rev_app_distr. cbn [rev app trimStart]. rewrite Hc. reflexivity. }
  rewrite H. unfold trimEnd. rewrite rev_involutive, trimStart_idem. reflexivity.
Qed.

Lemma cleanText_tidy : forall text, tidyb false (cleanText text) = true.
Proof.
  intros text. rewrite cleanText_trim_collapse.
  apply tidyb_trim. apply collapse_tidy.
Qed.

Lemma cleanText_fixed : forall text,
  cleanText (cleanText text) = cleanText text.
Proof.
  intros text. rewrite (cleanText_trim_collapse (cleanText text)).
  rewrite (tidy_fixed _ _ (cleanText_tidy text)).
  rewrite cleanText_trim_collapse. apply trim_idem.
Qed.

(** Cleaning twice is cleaning once; in particular the token estimate of
    a cleaned text is the one the size guard computes for it. *)
Theorem cleanText_idempotent : forall text,
  cleanText (cleanText text) = cleanText text
  /\ estimateTokenCount (cleanText (cleanText text)) = estimateTokenCount (cleanText text).
Proof.
  intros text. rewrite cleanText_fixed. split; reflexivity.
Qed.

Lemma tidyb_adjacent : forall s1 a b s2 p,
  tidyb p (s1 ++ a :: b :: s2) = true -> isSpace a && isSpace b = false.
Proof.
  induction s1 as [|c s1 IH]; intros a b s2 p H; cbn [app tidyb] in H.
  - destruct (isSpace a); [|reflexivity].
    apply andb_true_iff in H. destruct H as [_ H]. cbn [tidyb] in H.
    destruct (isSpace b); [|reflexivity].
    rewrite andb_false_r in H. discriminate.
  - destruct (isSpace c).
    + apply andb_true_iff in H. destruct H as [_ H]. eapply IH. exact H.
    + eapply IH. exact H.
Qed.

Lemma tidyb_In : forall s p c,
  tidyb p s = true -> In c s -> isSpace c = true -> c = SP.
Proof.
  induction s as [|d s IH]; intros p c H Hin Hc; [contradiction|].
  cbn [tidyb] in H. destruct Hin as [->|Hin].
  - rewrite Hc in H. apply andb_true_iff in H. destruct H as [H _].
    apply andb_true_iff in H. destruct H as [H _]. apply N.eqb_eq in H. exact H.
  - destruct (isSpace d).
    + apply andb_true_iff in H. destruct H as [_ H]. eapply IH; eassumption.
    + eapply IH; eassumption.
Qed.

(** The result of [cleanText] holds no white space but single spaces
    between other characters: every white-space character in it is a
    space, no two stand side by side, and trimming finds nothing left. *)
Theorem cleanText_shape : forall text,
  (forall c, In c (cleanText text) -> isSpace c = true -> c = SP)
  /\ (forall s1 a b s2, cleanText text = s1 ++ a :: b :: s2 ->
                        isSpace a && isSpace b = false)
  /\ trim (cleanText text) = cleanText text.
Proof.
  intros text. pose proof (cleanText_tidy text) as T. split; [|split].
  - intros c. apply (tidyb_In _ _ _ T).
  - intros s1 a b s2 E. rewrite E in T. eapply tidyb_adjacent. exact T.
  - rewrite cleanText_trim_collapse. apply trim_idem.
Qed.

Lemma cleanTranscript_no_LF : forall transcript, ~ In LF (cleanTranscript transcript).
Proof.
  intros transcript H. unfold cleanTranscript in H.
  destruct (negb (truthy transcript)); [contradiction|].
  apply trim_In in H.
  set (y := replaceAll rxSpaces [SP] _) in H.
  assert (L : lacks (N.eqb LF) y).
  { apply lacks_In. intros c Hc. apply replaceGo_Plus_In in Hc.
    destruct Hc as [[Hc|[]]|Hc]; [subst c; reflexivity|].
    destruct (N.eqb_spec LF c); [subst c; discriminate|reflexivity]. }
  unfold rxNewlines in H. rewrite replaceAll_Plus_id in H by exact L.
  unfold lacks in L. rewrite forallb_forall in L. specialize (L LF H).
  discriminate.
Qed.

Lemma cleanText_no_LF : forall text, ~ In LF (cleanText text).
Proof.
  intros text H. rewrite cleanText_collapse in H.
  apply trim_In in H. apply replaceGo_Plus_In in H.
  destruct H as [[H|[]]|H]; discriminate H.
Qed.

Lemma lastIndexFrom_absent : forall s c rest k,
  ~ In c s -> lastIndexFrom s (c :: rest) k = -1.
Proof.
  intros s c rest k H. induction k as [|k IH]; cbn [lastIndexFrom].
  - destruct s as [|d s]; [reflexivity|]. cbn [skipn startsWith].
    destruct (N.eqb_spec c d); [subst d; exfalso; apply H; left; reflexivity|reflexivity].
  - rewrite IH. destruct (skipn (S k) s) as [|d t] eqn:E; [reflexivity|].
    cbn [startsWith]. destruct (N.eqb_spec c d); [|reflexivity].
    subst d. exfalso. apply H. rewrite <- (firstn_skipn (S k) s), E.
    apply in_or_app. right. left. reflexivity.
Qed.

(** The end position without the paragraph step. *)
Definition sentenceEnd (text : jsstring) (chunkSize startChar : Z) : Z :=
  let endChar := startChar + chunkSize in
  if endChar <? len text then
    let sentenceBreak := lastIndexOf text (lit ". ") endChar in
    if (sentenceBreak >? startChar) && (sentenceBreak >? endChar - 100)
    then sentenceBreak + 1
    else endChar
  else len text.

(** Every ingestion path chunks a text that went through [cleanText] or
    [cleanTranscript]; such a text holds no line feed, so the search for a
    paragraph break finds nothing, and from a start position that is not
    below -1 a chunk ends at a sentence break or at the hard limit.  (The
    result -1 of a failed search is compared like an index: below -1 it
    would count as a break.) *)
Theorem chunkEnd_cleaned_no_paragraph : forall raw position chunkSize startChar,
  lastIndexOf (cleanText raw) [LF; LF] position = -1
  /\ lastIndexOf (cleanTranscript raw) [LF; LF] position = -1
  /\ (-1 <= startChar ->
      chunkEnd (cleanText raw) chunkSize startChar
      = sentenceEnd (cleanText raw) chunkSize startChar
      /\ chunkEnd (cleanTranscript raw) chunkSize startChar
         = sentenceEnd (cleanTranscript raw) chunkSize startChar).
Proof.
  intros raw position chunkSize startChar.
  assert (A : forall s, ~ In LF s -> forall p, lastIndexOf s [LF; LF] p = -1).
  { intros s H p. unfold lastIndexOf. apply lastIndexFrom_absent. exact H. }
  assert (B : forall s, ~ In LF s -> -1 <= startChar ->
                        chunkEnd s chunkSize startChar = sentenceEnd s chunkSize startChar).
  { intros s H Hs. unfold chunkEnd, sentenceEnd. rewrite (A s H).
    replace (-1 >? startChar) with false by (symmetry; rewrite Z.gtb_ltb; apply Z.ltb_ge; lia).
    reflexivity. }
  split; [apply A, cleanText_no_LF|]. split; [apply A, cleanTranscript_no_LF|].
  intros Hs. split; apply B; try assumption;
    [apply cleanText_no_LF|apply cleanTranscript_no_LF].
Qed.

Lemma chunkEnd_cleaned_no_paragraph_witness :
  chunkEnd (cleanText Examples.twoLines) 2 0 = sentenceEnd (cleanText Examples.twoLines) 2 0
  /\ chunkEnd (cleanTranscript Examples.twoLines) 2 0
     = sentenceEnd (cleanTranscript Examples.twoLines) 2 0.
Proof.
  apply (proj2 (proj2 (chunkEnd_cleaned_no_paragraph Examples.twoLines 0 2 0))).
  vm_compute. discriminate.
Defined.

End CleaningFacts.

(* ------------------------------------------------------------------ *)
(** * More on chunking: what every chunk satisfies *)

Module ChunkingFacts.

Import TextProcessorFacts CleaningFacts.

Definition chunksOf (o : outcome) : list Chunk :=
  match o with
  | Returned chunks => chunks
  | Running _ chunks => chunks
  end.

(** A chunk of [source]: its text is not empty, its offsets delimit a
    non-empty range inside the source, the text is the range up to white
    space at its ends, and it is no longer than the range and than
    [chunkSize + 1]. *)
Definition wellFormed (source : jsstring) (chunkSize : Z) (c : Chunk) : Prop :=
  truthy (text c) = true
  /\ startChar c < endChar c <= len source
  /\ trim (text c) = trim (substring source (startChar c) (endChar c))
  /\ len (text c) <= endChar c - startChar c
  /\ len (text c) <= chunkSize + 1.

Lemma lastIndexFrom_le : forall s search k, lastIndexFrom s search k <= Z.of_nat k.
Proof.
  intros s search k. induction k as [|k IH]; cbn [lastIndexFrom];
    destruct (startsWith _ _); lia.
Qed.

Lemma lastIndexOf_le : forall s search position,
  lastIndexOf s search position <= Z.max position 0.
Proof.
  intros s search position. unfold lastIndexOf, clamp.
  pose proof (lastIndexFrom_le s search
                (Z.to_nat (Z.min (Z.max position 0) (len s)))) as H.
  unfold len in *. lia.
Qed.

Lemma chunkEnd_bounds : forall source chunkSize startChar,
  0 < chunkSize -> startChar < len source ->
  startChar < chunkEnd source chunkSize startChar <= len source
  /\ chunkEnd source chunkSize startChar <= Z.max (startChar + chunkSize) 0 + 1.
Proof.
  intros source chunkSize startChar Hcs Hlt.
  pose proof (lastIndexOf_le source [LF; LF] (startChar + chunkSize)) as P.
  pose proof (lastIndexOf_le source (lit ". ") (startChar + chunkSize)) as Q.
  pose proof (lastIndexFrom_lt_len source [LF; LF]
                (Z.to_nat (clamp (startChar + chunkSize) 0 (len source)))
                ltac:(discriminate)) as P'.
  pose proof (lastIndexFrom_lt_len source (lit ". ")
                (Z.to_nat (clamp (startChar + chunkSize) 0 (len source)))
                ltac:(discriminate)) as Q'.
  fold (lastIndexOf source [LF; LF] (startChar + chunkSize)) in P'.
  fold (lastIndexOf source (lit ". ") (startChar + chunkSize)) in Q'.
  unfold chunkEnd.
  set (pb := lastIndexOf source [LF; LF] (startChar + chunkSize)) in *.
  set (sb := lastIndexOf source (lit ". ") (startChar + chunkSize)) in *.
  destruct (Z.ltb_spec (startChar + chunkSize) (len source)) as [E|E]; [|lia].
  destruct ((pb >? startChar) && _) eqn:A.
  - apply andb_true_iff in A. destruct A as [A _].
    rewrite Z.gtb_ltb in A. apply Z.ltb_lt in A. lia.
  - destruct ((sb >? startChar) && _) eqn:B; [|lia].
    apply andb_true_iff in B. destruct B as [B _].
    rewrite Z.gtb_ltb in B. apply Z.ltb_lt in B. lia.
Qed.

Lemma len_nonneg : forall s, 0 <= len s.
Proof. intros s. unfold len. lia. Qed.

Lemma len_substring : forall s a b,
  a < b <= len s -> a < len s ->
  len (substring s a b) = Z.max b 0 - Z.max a 0.
Proof.
  intros s a b Hab Ha. unfold substring, clamp, len in *.
  rewrite length_firstn, length_skipn. lia.
Qed.

Lemma len_trimStart_le : forall s, len (trimStart s) <= len s.
Proof.
  intros s. destruct (trimStart_suffix s) as [pre H].
  rewrite H at 2. unfold len. rewrite length_app. lia.
Qed.

Lemma len_trim_le : forall s, len (trim s) <= len s.
Proof.
  intros s. unfold trim.
  destruct (trimEnd_prefix (trimStart s)) as [post H].
  pose proof (len_trimStart_le s) as L. rewrite H in L.
  unfold len in *. rewrite length_app in L. lia.
Qed.

Lemma substring_whole : forall s, substring s 0 (len s) = s.
Proof.
  intros s. unfold substring, clamp. pose proof (len_nonneg s).
  replace (Z.min (Z.min (Z.max 0 0) (len s)) (Z.min (Z.max (len s) 0) (len s))) with 0 by lia.
  replace (Z.max (Z.min (Z.max 0 0) (len s)) (Z.min (Z.max (len s) 0) (len s)) - 0)
    with (len s) by lia.
  unfold len. rewrite Nat2Z.id. cbn [Z.to_nat skipn]. apply firstn_all.
Qed.

Lemma chunkLoop_wellFormed : forall fuel source chunkSize overlap startChar chunks,
  0 < chunkSize ->
  Forall (wellFormed source chunkSize) chunks ->
  Forall (wellFormed source chunkSize)
    (chunksOf (chunkLoop fuel source chunkSize overlap startChar chunks)).
Proof.
  induction fuel as [|fuel IH]; intros source chunkSize overlap startChar chunks Hcs Hwf;
    cbn [chunkLoop]; destruct (startChar <? len source) eqn:E; try exact Hwf.
  apply Z.ltb_lt in E.
  destruct (chunkEnd_bounds source chunkSize startChar Hcs E) as [[B1 B2] B3].
  set (e := chunkEnd source chunkSize startChar) in *.
  assert (Hwf' : Forall (wellFormed source chunkSize)
                   (if truthy (trim (substring source startChar e))
                    then chunks ++ [mkChunk (trim (substring source startChar e)) startChar e]
                    else chunks)).
  { destruct (truthy (trim (substring source startChar e))) eqn:T; [|exact Hwf].
    apply Forall_app. split; [exact Hwf|]. constructor; [|constructor].
    pose proof (len_trim_le (substring source startChar e)) as L.
    rewrite len_substring in L by lia.
    unfold wellFormed. cbn [text TextProcessor.startChar endChar].
    repeat split; try assumption; try lia. apply trim_idem. }
  destruct (e - overlap >=? len source); [exact Hwf'|].
  apply IH; assumption.
Qed.

(** For a positive [chunkSize], every chunk [chunkText] has pushed after
    any number of passes is well formed: not empty, with
    [startChar < endChar <= text.length], equal up to outer white space
    to that range of the text, and at most [chunkSize + 1] characters
    long (a sentence break found exactly at the limit adds the period). *)
Theorem chunkText_wellFormed : forall fuel source chunkSize overlap c,
  0 < chunkSize ->
  In c (chunksOf (chunkText fuel source chunkSize overlap)) ->
  wellFormed source chunkSize c.
Proof.
  intros fuel source chunkSize overlap c Hcs Hin.
  assert (H : Forall (wellFormed source chunkSize)
                (chunksOf (chunkText fuel source chunkSize overlap))).
  { unfold chunkText. destruct source as [|d source]; [constructor|].
    cbn [truthy negb]. destruct (len (d :: source) <=? chunkSize) eqn:E.
    - apply Z.leb_le in E. constructor; [|constructor].
      unfold wellFormed. cbn [text startChar endChar].
      rewrite substring_whole. unfold len in *. cbn [List.length] in *.
      repeat split; try reflexivity; lia.
    - apply chunkLoop_wellFormed; [exact Hcs|constructor]. }
  rewrite Forall_forall in H. apply H. exact Hin.
Qed.

(** The bound is reached: ten letters, a period and a space at the limit. *)
Lemma chunkText_wellFormed_witness :
  let c := mkChunk (lit "aaaaaaaaaa.") 0 11 in
  wellFormed (lit "aaaaaaaaaa. bbbbbbbbbbbbbb") 10 c /\ len (text c) = 10 + 1.
Proof.
  split; [|reflexivity].
  apply (chunkText_wellFormed 1 (lit "aaaaaaaaaa. bbbbbbbbbbbbbb") 10 3); [lia|].
  vm_compute. left. reflexivity.
Defined.

Lemma chunkLoop_returns : forall fuel source chunkSize overlap startChar chunks,
  0 < chunkSize -> overlap <= 0 ->
  len source - startChar <= Z.of_nat fuel ->
  exists result, chunkLoop fuel source chunkSize overlap startChar chunks = Returned result.
Proof.
  induction fuel as [|fuel IH]; intros source chunkSize overlap startChar chunks Hcs Hov Hf;
    cbn [chunkLoop]; destruct (startChar <? len source) eqn:E; eauto.
  - apply Z.ltb_lt in E. lia.
  - apply Z.ltb_lt in E.
    destruct (chunkEnd_bounds source chunkSize startChar Hcs E) as [[B1 B2] B3].
    destruct (chunkEnd source chunkSize startChar - overlap >=? len source); [eauto|].
    apply IH; try assumption. lia.
Qed.

(** Without an overlap the loop does end: for a positive [chunkSize] and
    [overlap <= 0] every pass moves the start forward, and [chunkText]
    returns after at most [text.length] passes. *)
Theorem chunkText_returns_without_overlap : forall fuel source chunkSize overlap,
  0 < chunkSize -> overlap <= 0 -> len source <= Z.of_nat fuel ->
  exists result, chunkText fuel source chunkSize overlap = Returned result.
Proof.
  intros fuel source chunkSize overlap Hcs Hov Hf. unfold chunkText.
  destruct (negb (truthy source)); [eauto|].
  destruct (len source <=? chunkSize); [eauto|].
  apply chunkLoop_returns; try assumption. lia.
Qed.

Lemma chunkText_returns_without_overlap_witness :
  exists result, chunkText 12 (lit "aaaaaaaaaaaa") 10 0 = Returned result.
Proof.
  apply chunkText_returns_without_overlap; vm_compute; discriminate || reflexivity.
Defined.

End ChunkingFacts.

(* ------------------------------------------------------------------ *)
(** * More on the response generator *)

Module PromptFacts.

Import OpenaiClient ResponseGenerator TextProcessorFacts ResponseGeneratorFacts.

(** ** The system prompt *)

Definition contains (part whole : jsstring) : Prop :=
  exists pre post, whole = pre ++ part ++ post.

(** The two lines that tie the answer to the context. *)
Definition grounding : jsstring :=
  lit "If the context doesn't contain relevant information, say that you don't have enough information and suggest what might help."
  ++ [LF] ++ lit "Don't make up information that isn't supported by the context.".

Lemma contains_app_l : forall part x y, contains part x -> contains part (x ++ y).
Proof.
  intros part x y (pre & post & ->). exists pre, (post ++ y).
  rewrite <- !app_assoc. reflexivity.
Qed.

Lemma contains_app_r : forall part x y, contains part y -> contains part (x ++ y).
Proof.
  intros part x y (pre & post & ->). exists (x ++ pre), post.
  rewrite <- !app_assoc. reflexivity.
Qed.

Lemma startsWith_app : forall p x y, startsWith p x = true -> startsWith p (x ++ y) = true.
Proof.
  induction p as [|c p IH]; intros x y H; [reflexivity|].
  destruct x as [|d x]; [discriminate|]. cbn [app startsWith] in *.
  apply andb_true_iff in H. destruct H as [H1 H2]. rewrite H1. apply IH. exact H2.
Qed.

(** Whatever the avatar configuration, the system prompt opens with
    "You are " and holds the two grounding lines (say so when the context
    lacks the information; make nothing up); without a usable name the
    avatar is called "an AI assistant". *)
Theorem buildSystemPrompt_grounded : forall avatarConfig,
  startsWith (lit "You are ") (buildSystemPrompt avatarConfig) = true
  /\ contains grounding (buildSystemPrompt avatarConfig)
  /\ (strTruthy (name avatarConfig) = false ->
      startsWith (lit "You are an AI assistant") (buildSystemPrompt avatarConfig) = true).
Proof.
  intros avatarConfig.
  assert (G : contains grounding contextInstructions).
  { exists (lit "Use the provided context to answer the user's question. " ++ [LF]), [LF; LF].
    reflexivity. }
  assert (S : forall p, startsWith p (lit "You are " ++ strOr (name avatarConfig) (lit "an AI assistant")) = true ->
                        startsWith p (buildSystemPrompt avatarConfig) = true
                        \/ noKeys avatarConfig = true).
  { intros p Hp. unfold buildSystemPrompt.
    destruct (noKeys avatarConfig); [right; reflexivity|left].
    cbv zeta.
    repeat match goal with
           | |- context [if ?b then _ else _] => destruct b
           end;
      repeat first [exact Hp | apply startsWith_app]. }
  split; [|split].
  - destruct (S (lit "You are ")) as [H|H].
    + apply (startsWith_app (lit "You are ") (lit "You are ")). reflexivity.
    + exact H.
    + unfold buildSystemPrompt. rewrite H. reflexivity.
  - unfold buildSystemPrompt. destruct (noKeys avatarConfig).
    + exists (lit "You are an AI assistant that provides helpful, accurate, and concise responses. "
              ++ [LF] ++ lit "Use the provided context to answer the user's question. " ++ [LF]),
        ([LF] ++ lit "Always maintain a friendly, helpful tone.").
      reflexivity.
    + cbv zeta.
      match goal with
      | |- contains _ (if ?b then (?x ++ contextInstructions) ++ _ else _) => destruct b
      end; [apply contains_app_l|]; apply contains_app_r; exact G.
  - intros Hn. destruct (S (lit "You are an AI assistant")) as [H|H].
    + unfold strOr. unfold strTruthy in Hn.
      destruct (name avatarConfig) as [v|]; [rewrite Hn|]; reflexivity.
    + exact H.
    + unfold buildSystemPrompt. rewrite H. reflexivity.
Qed.

Lemma buildSystemPrompt_grounded_witness :
  startsWith (lit "You are an AI assistant")
    (buildSystemPrompt
       (mkAvatarConfig (Some []) None (Some (lit "warm")) None (Some (lit "Expert"))
          None None None None None)) = true.
Proof.
  apply (proj2 (proj2 (buildSystemPrompt_grounded _))). reflexivity.
Defined.

(** ** Dollar signs in the context *)

Lemma getSubstitution_prefix : forall matched before after a t,
  lacks (N.eqb DOLLAR) a ->
  getSubstitution matched before after (a ++ t)
  = a ++ getSubstitution matched before after t.
Proof.
  induction a as [|d a IH]; intros t H; [reflexivity|].
  cbn [app getSubstitution].
  pose proof (lacks_head _ _ _ H) as Hd. rewrite N.eqb_sym in Hd. rewrite Hd.
  f_equal. apply IH. eapply lacks_tail. exact H.
Qed.

(** The context is inserted with [String.prototype.replace], which reads
    [$$] and [$&] in the inserted text as patterns: a single retrieved
    text [a$$b] reaches the prompt as [a$b], and [a$&b] as [a{context}b]. *)
Theorem contextSection_dollar_patterns : forall a b,
  lacks (N.eqb DOLLAR) a -> lacks (N.eqb DOLLAR) b ->
  contextSection [a ++ lit "$$" ++ b] = contextStart ++ (a ++ lit "$" ++ b) ++ contextEnd
  /\ contextSection [a ++ lit "$&" ++ b]
     = contextStart ++ (a ++ lit "{context}" ++ b) ++ contextEnd.
Proof.
  intros a b Ha Hb.
  assert (E : forall t, contextSection [t]
                        = contextStart
                          ++ getSubstitution (lit "{context}") contextStart contextEnd t
                          ++ contextEnd).
  { intros t. unfold contextSection. cbn [List.length Z.of_nat Z.ltb Z.compare Pos.of_succ_nat join].
    unfold replaceFirst.
    replace (indexOf (lit "{context}") contextFormat) with (Some 27%nat)
      by (vm_compute; reflexivity).
    replace (firstn 27 contextFormat) with contextStart by (vm_compute; reflexivity).
    replace (skipn (27 + List.length (lit "{context}")) contextFormat) with contextEnd
      by (vm_compute; reflexivity).
    reflexivity. }
  split; rewrite E, getSubstitution_prefix by exact Ha; do 2 f_equal;
    cbn [app lit List.map list_ascii_of_string getSubstitution];
    change (N_of_ascii "$") with 36%N; change (N_of_ascii "&") with 38%N;
    cbn [N.eqb Pos.eqb]; unfold DOLLAR; cbn [N.eqb Pos.eqb];
    rewrite getSubstitution_plain by exact Hb; reflexivity.
Qed.

Lemma contextSection_dollar_patterns_witness :
  contextSection [lit "costs 5" ++ lit "$$" ++ lit " per unit"]
  = contextStart ++ (lit "costs 5" ++ lit "$" ++ lit " per unit") ++ contextEnd.
Proof.
  apply (proj1 (contextSection_dollar_patterns (lit "costs 5") (lit " per unit")
                  eq_refl eq_refl)).
Defined.

(** ** Summaries *)

(** The request [generateSummary] sends. *)
Definition summaryRequest (content : jsstring) (maxLength : Z) : ChatRequest :=
  mkChatRequest (lit "gpt-3.5-turbo")
    [ mkMessage (lit "system")
        (lit "Summarize the following text concisely in "
         ++ numberToString maxLength
         ++ lit " characters or less. Capture the key points while maintaining accuracy.");
      mkMessage (lit "user") content ]
    0.5%float 100%float 1%float 0%float 0%float.

(** [generateSummary] asks the provider once, for a [maxLength] that is
    a safe integer and not negative (the range in which the prompt prints
    it in plain digits).  The provider's text is returned as it is,
    whatever its length; when the provider fails the call still resolves,
    with the first [maxLength] characters of the content and three dots,
    which is up to three characters more than [maxLength]. *)
Theorem generateSummary_outcomes : forall sdk content maxLength log,
  client sdk = true -> 0 <= maxLength <= 9007199254740991 ->
  (forall text,
      sdkCreateChatCompletion sdk log (summaryRequest content maxLength) = inr text ->
      generateSummary sdk content maxLength log
      = (Ok text, log ++ [SdkCreateChatCompletion (summaryRequest content maxLength)]))
  /\ (forall detail,
        sdkCreateChatCompletion sdk log (summaryRequest content maxLength) = inl detail ->
        exists summary log',
          generateSummary sdk content maxLength log = (Ok summary, log')
          /\ summary = firstn (Z.to_nat maxLength) content ++ lit "..."
          /\ len summary = Z.min maxLength (len content) + 3
          /\ log' = ((log ++ [SdkCreateChatCompletion (summaryRequest content maxLength)])
                       ++ [ConsoleError (lit "Error creating chat completion:")])
                      ++ [ConsoleError (lit "Error generating summary:")]).
Proof.
  intros sdk content maxLength log Hc Hm. split.
  - intros text Ht. unfold generateSummary, isConfigured, createChatCompletion.
    rewrite Hc. cbn [negb].
    unfold tryCatch, bind, getLog, emit, ret, throw. cbn beta iota.
    change (mkChatRequest _ _ _ _ _ _ _) with (summaryRequest content maxLength).
    rewrite Ht. reflexivity.
  - intros detail Hd. unfold generateSummary, isConfigured, createChatCompletion.
    rewrite Hc. cbn [negb].
    unfold tryCatch, bind, getLog, emit, ret, throw. cbn beta iota.
    change (mkChatRequest _ _ _ _ _ _ _) with (summaryRequest content maxLength).
    rewrite Hd. cbn beta iota.
    assert (E : substring content 0 maxLength = firstn (Z.to_nat maxLength) content).
    { unfold substring. set (a := clamp 0 0 (len content)).
      set (b := clamp maxLength 0 (len content)).
      assert (A : Z.min a b = 0) by (unfold a, b, clamp, len; lia).
      rewrite A. cbn [Z.to_nat skipn].
      destruct (Z.le_gt_cases maxLength (len content)) as [L|L].
      - replace (Z.max a b - 0) with maxLength by (unfold a, b, clamp, len in *; lia).
        reflexivity.
      - replace (Z.max a b - 0) with (len content) by (unfold a, b, clamp, len in *; lia).
        unfold len in *. rewrite !firstn_all2 by lia. reflexivity. }
    eexists. eexists. split; [reflexivity|]. rewrite E. repeat split.
    rewrite len_app. unfold len. rewrite length_firstn. cbn. lia.
Qed.

Lemma generateSummary_outcomes_witness :
  exists summary log',
    generateSummary Examples.sdkDown (lit "A long story about boats.") 6 [] = (Ok summary, log')
    /\ summary = firstn (Z.to_nat 6) (lit "A long story about boats.") ++ lit "..."
    /\ len summary = Z.min 6 (len (lit "A long story about boats.")) + 3
    /\ log' = (([] ++ [SdkCreateChatCompletion
                         (summaryRequest (lit "A long story about boats.") 6)])
                 ++ [ConsoleError (lit "Error creating chat completion:")])
                ++ [ConsoleError (lit "Error generating summary:")].
Proof.
  apply (proj2 (generateSummary_outcomes Examples.sdkDown (lit "A long story about boats.")
                  6 [] eq_refl ltac:(lia)) (lit "429 rate limit")).
  reflexivity.
Defined.

End PromptFacts.

(* ------------------------------------------------------------------ *)
(** * More on the embedding service: batches and chunks *)

Module EmbeddingFlowFacts.

Import OpenaiClient EmbeddingService EmbeddingServiceFacts.

(** The provider call for one text: the cleaned text goes out. *)
Definition callFor (model text : jsstring) : event :=
  SdkCreateEmbedding model (cleanText text).

(** A provider that answers every request. *)
Definition answers (sdk : Sdk) : Prop :=
  forall log model input, exists v, sdkCreateEmbedding sdk log model input = inr v.

Definition itemOf (t : jsstring) : ProcessedItem :=
  mkProcessedItem t (cleanText t) (guardEstimate t).

Lemma mapR_processItem_all : forall texts,
  (forall t, In t texts -> guardEstimate t <= maxContentLength) ->
  mapR processItem texts = Ok (List.map itemOf texts).
Proof.
  induction texts as [|t texts IH]; intros H; [reflexivity|].
  cbn [mapR List.map]. unfold processItem at 1. fold (guardEstimate t).
  replace (guardEstimate t >? maxContentLength) with false.
  - rewrite IH by (intros t' Ht'; apply H; right; exact Ht'). reflexivity.
  - symmetry. rewrite Z.gtb_ltb. apply Z.ltb_ge. apply H. left. reflexivity.
Qed.

Lemma createEmbedding_answer : forall sdk text model log v,
  client sdk = true -> sdkCreateEmbedding sdk log model text = inr v ->
  createEmbedding sdk text model log = (Ok v, log ++ [SdkCreateEmbedding model text]).
Proof.
  intros sdk text model log v Hc Hv. unfold createEmbedding. rewrite Hc. cbn [negb].
  unfold tryCatch, bind, getLog, emit, ret, throw. cbn beta iota. rewrite Hv. reflexivity.
Qed.

Lemma createEmbedding_failure : forall sdk text model log detail,
  client sdk = true -> sdkCreateEmbedding sdk log model text = inl detail ->
  createEmbedding sdk text model log
  = (Throw (External detail),
     (log ++ [SdkCreateEmbedding model text])
       ++ [ConsoleError (lit "Error creating embedding:")]).
Proof.
  intros sdk text model log detail Hc Hv. unfold createEmbedding. rewrite Hc. cbn [negb].
  unfold tryCatch, bind, getLog, emit, ret, throw. cbn beta iota. rewrite Hv. reflexivity.
Qed.

Lemma embedItems_all : forall sdk model texts results log,
  client sdk = true -> answers sdk ->
  exists out,
    embedItems sdk model (List.map itemOf texts) results log
    = (Ok (results ++ out), log ++ List.map (callFor model) texts)
    /\ List.map er_text out = texts
    /\ List.map er_processedText out = List.map cleanText texts
    /\ List.map er_tokenEstimate out = List.map guardEstimate texts.
Proof.
  intros sdk model texts. induction texts as [|t texts IH]; intros results log Hc Ha.
  - exists []. cbn. unfold ret. rewrite !app_nil_r. auto.
  - destruct (Ha log model (cleanText t)) as [v Hv].
    cbn [List.map embedItems]. unfold bind at 1, tryCatch at 1, bind at 1.
    cbn [pi_processedText itemOf].
    rewrite (createEmbedding_answer sdk (cleanText t) model log v Hc Hv).
    unfold ret at 1. cbn beta iota.
    destruct (IH (results ++ [mkEmbeddingResult t (cleanText t) v (guardEstimate t)])
                (log ++ [SdkCreateEmbedding model (cleanText t)]) Hc Ha)
      as (out & E & H1 & H2 & H3).
    exists (mkEmbeddingResult t (cleanText t) v (guardEstimate t) :: out).
    cbn [originalText pi_tokenEstimate itemOf].
    rewrite E. rewrite <- !app_assoc. cbn [app List.map er_text er_processedText
                                            er_tokenEstimate callFor].
    unfold callFor in *. rewrite H1, H2, H3. auto.
Qed.

Lemma generateEmbeddings_batch : forall sdk texts model log,
  client sdk = true -> answers sdk ->
  (forall t, In t texts -> guardEstimate t <= 8000) ->
  exists results,
    generateEmbeddings sdk (Many texts) model log
    = (Ok (Several results), log ++ List.map (callFor model) texts)
    /\ List.map er_text results = texts
    /\ List.map er_processedText results = List.map cleanText texts
    /\ List.map er_tokenEstimate results = List.map guardEstimate texts.
Proof.
  intros sdk texts model log Hc Ha Hle.
  unfold generateEmbeddings, isConfigured. rewrite Hc. cbn [negb textArray].
  unfold bind at 1, lift. rewrite (mapR_processItem_all texts Hle).
  destruct (embedItems_all sdk model texts [] log Hc Ha) as (out & E & H).
  unfold bind. rewrite E. cbn [app]. exists out. split; [reflexivity|exact H].
Qed.

(** With the client set up, every text within the limit and a provider
    that answers, a batch resolves with one entry per text, in the order
    of the texts: each keeps the text as given, carries its cleaned form
    and the estimate of the cleaned form, and the provider was called
    once per text, in that order, with the cleaned text. *)
Theorem generateEmbeddings_batch_in_order : forall sdk texts model log,
  client sdk = true -> answers sdk ->
  (forall t, In t texts -> guardEstimate t <= 8000) ->
  exists results,
    generateEmbeddings sdk (Many texts) model log
    = (Ok (Several results), log ++ List.map (callFor model) texts)
    /\ List.map er_text results = texts
    /\ List.map er_processedText results = List.map cleanText texts
    /\ List.map er_tokenEstimate results = List.map guardEstimate texts.
Proof.
  exact generateEmbeddings_batch.
Qed.

Lemma generateEmbeddings_batch_in_order_witness :
  exists results,
    generateEmbeddings Examples.sdkUp (Many [lit " a  b "; lit "c"]) defaultModel []
    = (Ok (Several results),
       [] ++ List.map (callFor defaultModel) [lit " a  b "; lit "c"])
    /\ List.map er_text results = [lit " a  b "; lit "c"]
    /\ List.map er_processedText results = List.map cleanText [lit " a  b "; lit "c"]
    /\ List.map er_tokenEstimate results = List.map guardEstimate [lit " a  b "; lit "c"].
Proof.
  apply (generateEmbeddings_batch_in_order Examples.sdkUp [lit " a  b "; lit "c"]
           defaultModel [] eq_refl).
  - intros log model input. exists [1%float]. reflexivity.
  - intros t [<-|[<-|[]]]; vm_compute; discriminate.
Defined.

Lemma generateEmbeddings_failure : forall sdk c model log t rest detail,
  client sdk = true -> textArray c = t :: rest ->
  (forall t', In t' (textArray c) -> guardEstimate t' <= 8000) ->
  sdkCreateEmbedding sdk log model (cleanText t) = inl detail ->
  generateEmbeddings sdk c model log
  = (Throw (External detail),
     ((log ++ [callFor model t])
        ++ [ConsoleError (lit "Error creating embedding:")])
       ++ [ConsoleError (lit "Error generating embedding:")]).
Proof.
  intros sdk c model log t rest detail Hc Ht Hle Hd.
  unfold generateEmbeddings, isConfigured. rewrite Hc. cbn [negb].
  unfold bind at 1, lift. rewrite (mapR_processItem_all _ Hle), Ht.
  cbn [List.map embedItems]. unfold bind at 1, bind at 1, tryCatch at 1, bind at 1.
  cbn [pi_processedText itemOf].
  rewrite (createEmbedding_failure sdk (cleanText t) model log detail Hc Hd).
  reflexivity.
Qed.

(** A provider failure is not swallowed here: the first text the
    provider fails on ends the batch; the call rejects with that failure
    after exactly one provider call and two log lines, and no later text
    is sent. *)
Theorem generateEmbeddings_first_failure : forall sdk c model log t rest detail,
  client sdk = true -> textArray c = t :: rest ->
  (forall t', In t' (textArray c) -> guardEstimate t' <= 8000) ->
  sdkCreateEmbedding sdk log model (cleanText t) = inl detail ->
  generateEmbeddings sdk c model log
  = (Throw (External detail),
     ((log ++ [callFor model t])
        ++ [ConsoleError (lit "Error creating embedding:")])
       ++ [ConsoleError (lit "Error generating embedding:")]).
Proof.
  exact generateEmbeddings_failure.
Qed.

Lemma generateEmbeddings_first_failure_witness :
  generateEmbeddings Examples.sdkDown (Many [lit "a"; lit "b"]) defaultModel []
  = (Throw (External (lit "429 rate limit")),
     (([] ++ [callFor defaultModel (lit "a")])
        ++ [ConsoleError (lit "Error creating embedding:")])
       ++ [ConsoleError (lit "Error generating embedding:")]).
Proof.
  apply (generateEmbeddings_first_failure Examples.sdkDown (Many [lit "a"; lit "b"])
           defaultModel [] (lit "a") [lit "b"] (lit "429 rate limit") eq_refl eq_refl).
  - intros t [<-|[<-|[]]]; vm_compute; discriminate.
  - reflexivity.
Defined.

(** ** Chunks *)

Lemma attachEmbeddings_all : forall chunks results,
  List.length results = List.length chunks ->
  exists out,
    attachEmbeddings chunks results = Ok out
    /\ List.map ec_text out = List.map text chunks
    /\ List.map ec_startChar out = List.map startChar chunks
    /\ List.map ec_endChar out = List.map endChar chunks
    /\ List.map ec_tokenEstimate out = List.map er_tokenEstimate results.
Proof.
  induction chunks as [|c chunks IH]; intros [|r results] H; try discriminate.
  - exists []. cbn. auto.
  - cbn [List.length] in H. injection H as H.
    destruct (IH results H) as (out & E & H1 & H2 & H3 & H4).
    cbn [attachEmbeddings]. rewrite E. eexists. split; [reflexivity|].
    cbn [List.map ec_text ec_startChar ec_endChar ec_tokenEstimate].
    rewrite H1, H2, H3, H4. auto.
Qed.

(** [embedChunks] keeps the chunks as they are and in order: with every
    chunk within the limit and a provider that answers, the result has
    one entry per chunk with the same text and offsets, the token
    estimate is that of the cleaned text, and the provider saw the
    cleaned texts in chunk order.  An empty list resolves at once, also
    without a client.  One chunk over the limit rejects the whole call
    before any provider call. *)
Theorem embedChunks_keeps_chunks : forall sdk chunks model log,
  embedChunks sdk [] model log = (Ok [], log)
  /\ (client sdk = true -> answers sdk ->
      (forall c, In c chunks -> guardEstimate (text c) <= 8000) ->
      exists out,
        embedChunks sdk chunks model log
        = (Ok out, log ++ List.map (fun c => callFor model (text c)) chunks)
        /\ List.map ec_text out = List.map text chunks
        /\ List.map ec_startChar out = List.map startChar chunks
        /\ List.map ec_endChar out = List.map endChar chunks
        /\ List.map ec_tokenEstimate out
           = List.map (fun c => guardEstimate (text c)) chunks)
  /\ (client sdk = true ->
      forall c, In c chunks -> 8000 < guardEstimate (text c) ->
      exists est, 8000 < est
        /\ embedChunks sdk chunks model log = (Throw (ContentTooLarge est 8000), log)).
Proof.
  intros sdk chunks model log. split; [reflexivity|]. split.
  - intros Hc Ha Hle. destruct chunks as [|c0 chunks0] eqn:Ec.
    + exists []. cbn. unfold ret. rewrite app_nil_r. auto.
    + rewrite <- Ec in *. unfold embedChunks.
      replace (Nat.eqb (List.length chunks) 0) with false by (rewrite Ec; reflexivity).
      destruct (generateEmbeddings_batch sdk (List.map text chunks) model log Hc Ha)
        as (results & E & H1 & H2 & H3).
      { intros t Ht. apply in_map_iff in Ht. destruct Ht as (c & <- & Hin).
        apply Hle. exact Hin. }
      unfold bind. rewrite E. cbn beta iota.
      destruct (attachEmbeddings_all chunks results) as (out & A & G1 & G2 & G3 & G4).
      { rewrite <- (length_map er_text results), H1, length_map. reflexivity. }
      unfold lift. rewrite A. exists out. rewrite !map_map in *.
      rewrite G4, H3. auto.
  - intros Hc c Hin Hgt. unfold embedChunks.
    destruct chunks as [|c0 chunks0] eqn:Ec; [contradiction|].
    rewrite <- Ec in *.
    replace (Nat.eqb (List.length chunks) 0) with false by (rewrite Ec; reflexivity).
    unfold bind, generateEmbeddings, isConfigured. rewrite Hc. cbn [negb textArray].
    unfold bind, lift.
    destruct (mapR processItem (List.map text chunks)) as [items|e] eqn:E.
    + pose proof (mapR_processItem_Ok _ _ E (text c) (in_map text _ _ Hin)).
      unfold maxContentLength in *. lia.
    + destruct (mapR_processItem_Throw _ _ E) as (t' & _ & Hgt' & ->).
      exists (guardEstimate t'). split; [exact Hgt'|reflexivity].
Qed.

Lemma embedChunks_keeps_chunks_witness :
  exists out,
    embedChunks Examples.sdkUp [mkChunk (lit "a  b") 0 4] defaultModel []
    = (Ok out, [] ++ List.map (fun c => callFor defaultModel (text c))
                       [mkChunk (lit "a  b") 0 4])
    /\ List.map ec_text out = List.map text [mkChunk (lit "a  b") 0 4]
    /\ List.map ec_startChar out = List.map startChar [mkChunk (lit "a  b") 0 4]
    /\ List.map ec_endChar out = List.map endChar [mkChunk (lit "a  b") 0 4]
    /\ List.map ec_tokenEstimate out
       = List.map (fun c => guardEstimate (text c)) [mkChunk (lit "a  b") 0 4].
Proof.
  apply (proj1 (proj2 (embedChunks_keeps_chunks Examples.sdkUp [mkChunk (lit "a  b") 0 4]
                         defaultModel [])) eq_refl).
  - intros log model input. exists [1%float]. reflexivity.
  - intros c [<-|[]]. vm_compute. discriminate.
Defined.

End EmbeddingFlowFacts.

(* ------------------------------------------------------------------ *)
(** * More on the search: threshold, limit, order and failures *)

Module SearchFacts.

Import VectorRepository VectorRepositoryFacts.

(** ** The order of [float8] in the database *)

Definition sf_nan (a : spec_float) : bool :=
  match a with S754_nan => true | _ => false end.

(** [pg_lt] on the specification of binary64. *)
Definition sf_lt (a b : spec_float) : bool :=
  if sf_nan b then negb (sf_nan a)
  else if sf_nan a then false
  else SFltb a b.

Lemma is_nan_spec : forall x, PrimFloat.is_nan x = sf_nan (Prim2SF x).
Proof.
  intros x. unfold PrimFloat.is_nan. rewrite FloatAxioms.eqb_spec.
  destruct (Prim2SF x) as [s|s| |s m e]; try reflexivity.
  - destruct s; reflexivity.
  - unfold SFeqb, SFcompare. rewrite Z.compare_refl.
    change (Pos.compare_cont Eq m m) with (Pos.compare m m).
    rewrite Pos.compare_refl. destruct s; reflexivity.
Qed.

Lemma pg_lt_spec : forall x y, pg_lt x y = sf_lt (Prim2SF x) (Prim2SF y).
Proof.
  intros x y. unfold pg_lt, sf_lt. rewrite !is_nan_spec, ltb_spec. reflexivity.
Qed.

Ltac compare_cases :=
  repeat match goal with
         | |- context [Z.compare ?x ?y] => destruct (Z.compare_spec x y)
         | |- context [Pos.compare_cont Eq ?x ?y] =>
             change (Pos.compare_cont Eq x y) with (Pos.compare x y);
             destruct (Pos.compare_spec x y)
         end.

Lemma sf_lt_trans : forall a b c,
  sf_lt a b = true -> sf_lt b c = true -> sf_lt a c = true.
Proof.
  intros [sa|sa| |sa ma ea] [sb|sb| |sb mb eb] [sc|sc| |sc mc ec];
    unfold sf_lt, SFltb, SFcompare; cbn [sf_nan negb];
    try (intros; discriminate); try (intros; reflexivity);
    try (destruct sa); try (destruct sb); try (destruct sc);
    try (intros; discriminate); try (intros; reflexivity);
    compare_cases; cbn [CompOpp]; intros; try discriminate; try reflexivity;
    subst; lia.
Qed.

Lemma sf_lt_irrefl : forall a, sf_lt a a = false.
Proof.
  intros [s|s| |s m e]; unfold sf_lt, SFltb, SFcompare; cbn [sf_nan negb];
    try reflexivity; try (destruct s; reflexivity).
  rewrite Z.compare_refl. change (Pos.compare_cont Eq m m) with (Pos.compare m m).
  rewrite Pos.compare_refl. destruct s; reflexivity.
Qed.

Lemma pg_lt_trans : forall x y z,
  pg_lt x y = true -> pg_lt y z = true -> pg_lt x z = true.
Proof.
  intros x y z. rewrite !pg_lt_spec. apply sf_lt_trans.
Qed.

Lemma pg_lt_asym : forall x y, pg_lt x y = true -> pg_lt y x = false.
Proof.
  intros x y H. destruct (pg_lt y x) eqn:E; [|reflexivity].
  pose proof (pg_lt_trans x y x H E) as T.
  rewrite pg_lt_spec, sf_lt_irrefl in T. discriminate.
Qed.

(** ** Sorted results *)

(** No earlier row is below a later one. *)
Definition notBelow (a b : Match) : Prop :=
  pg_lt (m_similarity a) (m_similarity b) = false.

Definition descending (ms : list Match) : Prop := StronglySorted notBelow ms.

Lemma insertDesc_descending : forall m sorted,
  descending sorted -> descending (insertDesc m sorted).
Proof.
  intros m sorted. induction sorted as [|x rest IH]; intros H; cbn [insertDesc].
  - repeat constructor.
  - inversion H as [|? ? Hrest Hx]; subst.
    destruct (pg_lt (m_similarity x) (m_similarity m)) eqn:E.
    + constructor; [exact H|]. constructor.
      * apply pg_lt_asym. exact E.
      * rewrite Forall_forall in *. intros y Hy. specialize (Hx y Hy).
        unfold notBelow in *. destruct (pg_lt (m_similarity m) (m_similarity y)) eqn:F;
          [|reflexivity].
        rewrite (pg_lt_trans _ _ _ E F) in Hx. discriminate.
    + constructor; [apply IH; exact Hrest|].
      rewrite Forall_forall in *. intros y Hy. apply insertDesc_In in Hy.
      destruct Hy as [->|Hy]; [exact E|apply Hx; exact Hy].
Qed.

Lemma orderBySimilarityDesc_descending : forall ms, descending (orderBySimilarityDesc ms).
Proof.
  induction ms as [|m ms IH]; cbn; [constructor|].
  apply insertDesc_descending. exact IH.
Qed.

Lemma descending_firstn : forall n ms, descending ms -> descending (firstn n ms).
Proof.
  induction n as [|n IH]; intros [|m ms] H; cbn [firstn]; try constructor.
  - apply IH. inversion H; assumption.
  - inversion H as [|? ? _ Hm]; subst. rewrite Forall_forall in *.
    intros y Hy. apply Hm. eapply firstn_In'. exact Hy.
Qed.

Lemma descending_filter : forall f ms, descending ms -> descending (filter f ms).
Proof.
  intros f. induction ms as [|m ms IH]; intros H; cbn [filter]; [constructor|].
  inversion H as [|? ? Hms Hm]; subst.
  destruct (f m); [|apply IH; exact Hms].
  constructor; [apply IH; exact Hms|].
  rewrite Forall_forall in *. intros y Hy. apply filter_In in Hy. apply Hm. tauto.
Qed.

Lemma clientFilter_descending : forall options data,
  descending data -> descending (clientFilter options data).
Proof.
  intros options data H. unfold clientFilter.
  repeat match goal with
         | |- context [if ?b then _ else _] => destruct b
         | |- context [match ?o with Some _ => _ | None => _ end] => destruct o
         end; repeat apply descending_filter; exact H.
Qed.

Definition thresholdOf (options : Options) : float :=
  match threshold options with
  | Some t => t
  | None => defaultSimilarityThreshold
  end.

Definition matchCountOf (options : Options) : Z :=
  match matchCount options with
  | Some n => n
  | None => defaultMatchCount
  end.

(** What a search that resolves went through. *)
Lemma findSimilarChunks_Ok : forall dist supabase q userId options log results log',
  findSimilarChunks dist supabase q userId options log = (Ok results, log') ->
  sb_client supabase = true
  /\ rpcFailure supabase log = None
  /\ log' = log ++ [RpcMatchContentChunks userId]
  /\ exists rows,
       match_content_chunks dist (content_chunks supabase) q (thresholdOf options)
         (matchCountOf options) userId = inr rows
       /\ results = clientFilter options rows.
Proof.
  intros dist supabase q userId options log results log' H.
  unfold findSimilarChunks in H.
  destruct (sb_client supabase); [|discriminate].
  cbn [negb] in H. unfold rpc in H.
  unfold tryCatch, bind, getLog, emit, ret, throw in H. cbn beta iota in H.
  fold (thresholdOf options) in H. fold (matchCountOf options) in H.
  destruct (rpcFailure supabase log); cbn in H; [discriminate|].
  destruct (match_content_chunks _ _ _ _ _ _) as [err|rows] eqn:E;
    cbn in H; [discriminate|].
  inversion H; subst. repeat split. exists rows. split; reflexivity.
Qed.

(** A search that resolves gives rows whose similarity is above the
    threshold (0.75 unless given), at most [matchCount] of them (5 unless
    given), in an order in which no row is below a later one; with
    [contentTypes] or [contentIds] given, only rows of those. *)
Theorem findSimilarChunks_ranked :
  forall dist supabase q userId options log results log',
    findSimilarChunks dist supabase q userId options log = (Ok results, log') ->
    (forall r, In r results -> pg_gt (m_similarity r) (thresholdOf options) = true)
    /\ 0 <= matchCountOf options
    /\ Z.of_nat (List.length results) <= matchCountOf options
    /\ descending results
    /\ (contentTypes options <> [] ->
        forall r, In r results -> includes (contentTypes options) (m_content_type r) = true)
    /\ (contentIds options <> [] ->
        forall r, In r results -> includes (contentIds options) (m_content_id r) = true).
Proof.
  intros dist supabase q userId options log results log' H.
  destruct (findSimilarChunks_Ok _ _ _ _ _ _ _ _ H) as (_ & _ & _ & rows & E & ->).
  unfold match_content_chunks in E.
  destruct (Z.ltb_spec (matchCountOf options) 0) as [L|L]; [discriminate|].
  injection E as E'. symmetry in E'.
  assert (Above : forall r, In r rows -> pg_gt (m_similarity r) (thresholdOf options) = true).
  { intros r Hr. rewrite E' in Hr.
    apply firstn_In', orderBySimilarityDesc_In, in_map_iff in Hr.
    destruct Hr as (c & <- & Hc). apply filter_In in Hc. destruct Hc as [_ Hc].
    unfold selected in Hc. apply andb_true_iff in Hc. destruct Hc as [_ Hc]. exact Hc. }
  assert (Len : forall data, (List.length (clientFilter options data) <= List.length data)%nat).
  { intros data. unfold clientFilter.
    repeat match goal with
           | |- context [if ?b then _ else _] => destruct b
           | |- context [match ?o with Some _ => _ | None => _ end] => destruct o
           end;
      repeat (eapply Nat.le_trans; [apply filter_length_le|]); apply Nat.le_refl. }
  repeat split.
  - intros r Hr. apply Above. eapply clientFilter_In. exact Hr.
  - exact L.
  - specialize (Len rows). rewrite E' in Len at 2. rewrite length_firstn in Len. lia.
  - apply clientFilter_descending. rewrite E'.
    apply descending_firstn, orderBySimilarityDesc_descending.
  - intros Hne r Hr. unfold clientFilter in Hr.
    destruct (contentTypes options) as [|t ts] eqn:T; [congruence|].
    cbn [List.length Z.of_nat Z.ltb Z.compare] in Hr.
    repeat match type of Hr with
           | context [if ?b then _ else _] => destruct b
           | context [match ?o with Some _ => _ | None => _ end] => destruct o
           end;
      repeat (apply filter_In in Hr; destruct Hr as [Hr ?]); assumption.
  - intros Hne r Hr. unfold clientFilter in Hr.
    destruct (contentIds options) as [|t ts] eqn:T; [congruence|].
    cbn [List.length Z.of_nat Z.ltb Z.compare] in Hr.
    repeat match type of Hr with
           | context [if ?b then _ else _] => destruct b
           | context [match ?o with Some _ => _ | None => _ end] => destruct o
           end;
      repeat (apply filter_In in Hr; destruct Hr as [Hr ?]); assumption.
Qed.

Lemma findSimilarChunks_ranked_witness :
  descending [project Examples.distance [1%float; 0%float] Examples.rowA].
Proof.
  apply (findSimilarChunks_ranked Examples.distance Examples.store
           [1%float; 0%float] (lit "A") noOptions []
           [project Examples.distance [1%float; 0%float] Examples.rowA]
           [RpcMatchContentChunks (lit "A")]).
  vm_compute. reflexivity.
Defined.

(** A search never hides a failure behind an empty result: without a
    client it rejects before any request; when the request fails it
    rejects with that failure after one log line; and when it resolves,
    the client was there, the request did not fail, and exactly one
    request went out, carrying the caller's [userId]. *)
Theorem findSimilarChunks_fails_fast : forall dist supabase q userId options log,
  (sb_client supabase = false ->
     findSimilarChunks dist supabase q userId options log
     = (Throw SupabaseNotInitialized, log))
  /\ (sb_client supabase = true -> forall detail,
        rpcFailure supabase log = Some detail ->
        findSimilarChunks dist supabase q userId options log
        = (Throw (External detail),
           (log ++ [RpcMatchContentChunks userId])
             ++ [ConsoleError (lit "Error finding similar chunks:")]))
  /\ (forall results log',
        findSimilarChunks dist supabase q userId options log = (Ok results, log') ->
        sb_client supabase = true /\ rpcFailure supabase log = None
        /\ log' = log ++ [RpcMatchContentChunks userId]).
Proof.
  intros dist supabase q userId options log. split; [|split].
  - intros H. unfold findSimilarChunks. rewrite H. reflexivity.
  - intros H detail Hd. unfold findSimilarChunks. rewrite H. cbn [negb].
    unfold rpc. unfold tryCatch, bind, getLog, emit, ret, throw. cbn beta iota.
    rewrite Hd. reflexivity.
  - intros results log' H.
    destruct (findSimilarChunks_Ok _ _ _ _ _ _ _ _ H) as (A & B & C & _). auto.
Qed.

Lemma findSimilarChunks_fails_fast_witness :
  findSimilarChunks Examples.distance
    (mkSupabase false Examples.table (fun _ => None))
    [1%float; 0%float] (lit "A") noOptions []
  = (Throw SupabaseNotInitialized, []).
Proof.
  apply (proj1 (findSimilarChunks_fails_fast Examples.distance
                  (mkSupabase false Examples.table (fun _ => None))
                  [1%float; 0%float] (lit "A") noOptions [])).
  reflexivity.
Defined.

End SearchFacts.

(* ------------------------------------------------------------------ *)
(** * Properties of the writes *)

Module PersistenceFacts.

Import VectorRepository Persistence EmbeddingService.

Definition isReserved (k : jsstring) : bool :=
  JS.eqb k (lit "startChar") || JS.eqb k (lit "endChar") || JS.eqb k (lit "tokenEstimate").

(** The record made for the chunk at position [i] of the list. *)
Lemma recordsFrom_nth : forall chunks index userId contentType contentId contentSource
                               metadata i c,
  nth_error chunks i = Some c ->
  exists r,
    nth_error (recordsFrom index chunks userId contentType contentId contentSource metadata) i
    = Some r
    /\ r_chunk_index r = index + Z.of_nat i
    /\ r_user_id r = userId /\ r_content_type r = contentType
    /\ r_content_id r = contentId /\ r_content_source r = contentSource
    /\ r_chunk_text r = ec_text c /\ r_embedding r = ec_embedding c
    /\ r_metadata r (lit "startChar") = Some (VNum (ec_startChar c))
    /\ r_metadata r (lit "endChar") = Some (VNum (ec_endChar c))
    /\ r_metadata r (lit "tokenEstimate") = Some (VNum (ec_tokenEstimate c))
    /\ (forall k, isReserved k = false -> r_metadata r k = metadata k).
Proof.
  induction chunks as [|c0 chunks IH];
    intros index userId contentType contentId contentSource metadata i c H.
  - destruct i; discriminate.
  - destruct i as [|i]; cbn [nth_error recordsFrom] in *.
    + inversion H; subst c0. eexists. split; [reflexivity|].
      cbn [r_chunk_index r_user_id r_content_type r_content_id r_content_source
           r_chunk_text r_embedding r_metadata].
      repeat split; try reflexivity; try lia.
      intros k Hk. unfold isReserved in Hk.
      apply orb_false_iff in Hk. destruct Hk as [Hk H3].
      apply orb_false_iff in Hk. destruct Hk as [H1 H2].
      unfold setProp. rewrite H1, H2, H3. reflexivity.
    + destruct (IH (index + 1) userId contentType contentId contentSource metadata i c H)
        as (r & E & Hi & Rest).
      exists r. split; [exact E|]. split; [lia|exact Rest].
Qed.

Lemma recordsFrom_length : forall chunks index userId contentType contentId contentSource
                                  metadata,
  List.length (recordsFrom index chunks userId contentType contentId contentSource metadata)
  = List.length chunks.
Proof.
  induction chunks as [|c chunks IH]; intros; cbn [recordsFrom List.length];
    [reflexivity|]. rewrite IH. reflexivity.
Qed.

(** [storeContentChunks] rejects without a client before anything else,
    resolves with nothing and writes nothing for an empty list, and
    otherwise makes one insert of one record per chunk: the record of the
    chunk at position [i] has [chunk_index = i], the caller's [userId],
    the chunk's text and embedding, and the caller's metadata with
    [startChar], [endChar] and [tokenEstimate] set from the chunk (a key of
    that name in the caller's metadata is overwritten).  The data of the
    insert is returned; its error is logged and thrown on. *)
Theorem storeContentChunks_records :
  forall supabase tables chunks userId contentType contentId contentSource metadata log,
    let records := recordsFrom 0 chunks userId contentType contentId contentSource metadata in
    (sb_client supabase = false ->
       storeContentChunks supabase tables chunks userId contentType contentId
         contentSource metadata log = (Throw SupabaseNotInitialized, log))
    /\ (sb_client supabase = true -> chunks = [] ->
        storeContentChunks supabase tables chunks userId contentType contentId
          contentSource metadata log = (Ok [], log))
    /\ (sb_client supabase = true -> chunks <> [] ->
        match insertContentChunks tables log records with
        | inr data =>
            storeContentChunks supabase tables chunks userId contentType contentId
              contentSource metadata log
            = (Ok data, log ++ [inr (InsertContentChunks records)])
        | inl error =>
            storeContentChunks supabase tables chunks userId contentType contentId
              contentSource metadata log
            = (Throw (External error),
               (log ++ [inr (InsertContentChunks records)])
                 ++ [inl (ConsoleError (lit "Error storing content chunks:"))])
        end)
    /\ List.length records = List.length chunks
    /\ (forall i c, nth_error chunks i = Some c ->
          exists r, nth_error records i = Some r
            /\ r_chunk_index r = Z.of_nat i /\ r_user_id r = userId
            /\ r_chunk_text r = ec_text c /\ r_embedding r = ec_embedding c
            /\ r_metadata r (lit "startChar") = Some (VNum (ec_startChar c))
            /\ r_metadata r (lit "endChar") = Some (VNum (ec_endChar c))
            /\ r_metadata r (lit "tokenEstimate") = Some (VNum (ec_tokenEstimate c))
            /\ (forall k, isReserved k = false -> r_metadata r k = metadata k)).
Proof.
  intros supabase tables chunks userId contentType contentId contentSource metadata log records.
  split; [|split; [|split; [|split]]].
  - intros H. unfold storeContentChunks. rewrite H. reflexivity.
  - intros H ->. unfold storeContentChunks. rewrite H. reflexivity.
  - intros H Hne. unfold storeContentChunks. rewrite H. cbn [negb].
    destruct chunks as [|c chunks]; [congruence|]. cbn [List.length Nat.eqb].
    unfold tryCatch2, bind2, getLog2, emit2, ret2, throw2. cbn beta iota.
    fold records. destruct (insertContentChunks tables log records); reflexivity.
  - apply recordsFrom_length.
  - intros i c Hc.
    destruct (recordsFrom_nth chunks 0 userId contentType contentId contentSource
                metadata i c Hc) as (r & E & Hi & Hu & _ & _ & _ & Rest).
    exists r. split; [exact E|]. split; [lia|]. split; [exact Hu|exact Rest].
Qed.

Lemma storeContentChunks_records_witness :
  storeContentChunks (mkSupabase true [] (fun _ => None))
    (mkTables (fun _ _ => inr []) (fun _ _ => inl (lit "down")))
    [] (lit "A") (lit "custom_text") (lit "c1") (lit "t") emptyObject []
  = (Ok [], []).
Proof.
  apply (proj1 (proj2 (storeContentChunks_records (mkSupabase true [] (fun _ => None))
                         (mkTables (fun _ _ => inr []) (fun _ _ => inl (lit "down")))
                         [] (lit "A") (lit "custom_text") (lit "c1") (lit "t")
                         emptyObject []))); reflexivity.
Defined.

End PersistenceFacts.

(* ------------------------------------------------------------------ *)
(** * Properties of the query processor *)

Module QueryProcessorFacts.

Import OpenaiClient VectorRepository Persistence QueryProcessor.
Import EmbeddingService EmbeddingServiceFacts EmbeddingFlowFacts ResponseGenerator.

(** ** Running the two kinds of computation *)

Lemma events_app : forall l1 l2, events (l1 ++ l2) = events l1 ++ events l2.
Proof.
  induction l1 as [|[e|d] l1 IH]; intros l2; cbn [app events]; rewrite ?IH; reflexivity.
Qed.

Lemma events_inl : forall es, events (List.map inl es) = es.
Proof.
  induction es as [|e es IH]; cbn [List.map events]; rewrite ?IH; reflexivity.
Qed.

Lemma liftM_run : forall (A : Type) (m : M A) log r ext,
  m (events log) = (r, events log ++ ext) ->
  liftM m log = (r, log ++ List.map inl ext).
Proof.
  intros A m log r ext H. unfold liftM. rewrite H.
  rewrite skipn_app, skipn_all, Nat.sub_diag. reflexivity.
Qed.

Lemma bind2_Ok : forall (A B : Type) (m : M2 A) (k : A -> M2 B) log a log',
  m log = (Ok a, log') -> bind2 m k log = k a log'.
Proof. intros A B m k log a log' H. unfold bind2. rewrite H. reflexivity. Qed.

Lemma bind2_Throw : forall (A B : Type) (m : M2 A) (k : A -> M2 B) log e log',
  m log = (Throw e, log') -> bind2 m k log = (Throw e, log').
Proof. intros A B m k log e log' H. unfold bind2. rewrite H. reflexivity. Qed.

(** ** The calls of [processQuery], one by one *)

Lemma generateEmbeddings_single : forall sdk t model log v,
  client sdk = true -> guardEstimate t <= 8000 ->
  sdkCreateEmbedding sdk log model (cleanText t) = inr v ->
  generateEmbeddings sdk (Single t) model log
  = (Ok (One (Some (mkEmbeddingResult t (cleanText t) v (guardEstimate t)))),
     log ++ [callFor model t]).
Proof.
  intros sdk t model log v Hc Hle Hv.
  unfold generateEmbeddings, isConfigured. rewrite Hc. cbn [negb textArray].
  unfold bind at 1, lift.
  rewrite (mapR_processItem_all [t]) by (intros t' [<-|[]]; exact Hle).
  cbn [List.map embedItems]. unfold bind at 1, bind at 1, tryCatch at 1, bind at 1.
  cbn [pi_processedText itemOf].
  rewrite (createEmbedding_answer sdk (cleanText t) model log v Hc Hv).
  reflexivity.
Qed.

(** The options [processQuery] hands to the search. *)
Definition searchOptions (options : QueryOptions) : Options :=
  mkOptions (Some (numOr (qo_threshold options) QueryProcessor.defaultSimilarityThreshold))
    (Some (intOr (qo_maxChunks options) defaultMaxChunks))
    (qo_contentTypes options) (qo_contentIds options) None None.

(** The rows the search then finds. *)
Definition found (dist : list float -> list float -> float) (supabase : Supabase)
           (q : list float) (userId : jsstring) (options : QueryOptions) : list Match :=
  clientFilter (searchOptions options)
    (firstn (Z.to_nat (intOr (qo_maxChunks options) defaultMaxChunks))
       (orderBySimilarityDesc
          (List.map (project dist q)
             (filter (selected dist q
                        (numOr (qo_threshold options)
                           QueryProcessor.defaultSimilarityThreshold) userId)
                (content_chunks supabase))))).

Lemma findSimilarChunks_run : forall dist supabase q userId options log,
  sb_client supabase = true -> rpcFailure supabase log = None ->
  0 <= intOr (qo_maxChunks options) defaultMaxChunks ->
  findSimilarChunks dist supabase q userId (searchOptions options) log
  = (Ok (found dist supabase q userId options), log ++ [RpcMatchContentChunks userId]).
Proof.
  intros dist supabase q userId options log Hc Hr Hn.
  unfold findSimilarChunks. rewrite Hc. cbn [negb]. unfold rpc.
  unfold tryCatch, bind, getLog, emit, ret, throw. cbn beta iota. rewrite Hr.
  unfold match_content_chunks. cbn [searchOptions threshold matchCount].
  replace (intOr (qo_maxChunks options) defaultMaxChunks <? 0) with false
    by (symmetry; apply Z.ltb_ge; exact Hn).
  reflexivity.
Qed.

Lemma storeChatHistory_run : forall supabase tables userId query q response ids log,
  sb_client supabase = true ->
  storeChatHistory supabase tables userId query q response ids log
  = match insertChatHistory tables log (mkHistoryRecord userId query q response ids) with
    | inr row =>
        (Ok row, log ++ [inr (InsertChatHistory (mkHistoryRecord userId query q response ids))])
    | inl error =>
        (Throw (External error),
         (log ++ [inr (InsertChatHistory (mkHistoryRecord userId query q response ids))])
           ++ [inl (ConsoleError (lit "Error storing chat history:"))])
    end.
Proof.
  intros supabase tables userId query q response ids log Hc.
  unfold storeChatHistory. rewrite Hc. cbn [negb].
  unfold tryCatch2, bind2, getLog2, emit2, ret2, throw2. cbn beta iota.
  destruct (insertChatHistory tables log _); reflexivity.
Qed.

Lemma storeChatHistory_Ok : forall supabase tables userId query q response ids log row,
  sb_client supabase = true ->
  insertChatHistory tables log (mkHistoryRecord userId query q response ids) = inr row ->
  storeChatHistory supabase tables userId query q response ids log
  = (Ok row, log ++ [inr (InsertChatHistory (mkHistoryRecord userId query q response ids))]).
Proof.
  intros supabase tables userId query q response ids log row Hc Hrow.
  rewrite storeChatHistory_run by exact Hc. rewrite Hrow. reflexivity.
Qed.

Lemma storeChatHistory_Throw : forall supabase tables userId query q response ids log error,
  sb_client supabase = true ->
  insertChatHistory tables log (mkHistoryRecord userId query q response ids) = inl error ->
  storeChatHistory supabase tables userId query q response ids log
  = (Throw (External error),
     (log ++ [inr (InsertChatHistory (mkHistoryRecord userId query q response ids))])
       ++ [inl (ConsoleError (lit "Error storing chat history:"))]).
Proof.
  intros supabase tables userId query q response ids log error Hc Hrow.
  rewrite storeChatHistory_run by exact Hc. rewrite Hrow. reflexivity.
Qed.

(** What [generateResponse] resolves with for a provider that always
    gives the same answer. *)
Definition replyOf (answer : jsstring + jsstring) : jsstring :=
  match answer with
  | inr text => text
  | inl _ => apology
  end.

Lemma generateResponse_run : forall sdk query texts avatarConfig log answer,
  client sdk = true ->
  sdkCreateChatCompletion sdk log (ResponseGeneratorFacts.requestOf query texts avatarConfig)
  = answer ->
  exists ext,
    generateResponse sdk query texts avatarConfig log = (Ok (replyOf answer), log ++ ext)
    /\ hd_error ext
       = Some (SdkCreateChatCompletion
                 (ResponseGeneratorFacts.requestOf query texts avatarConfig)).
Proof.
  intros sdk query texts avatarConfig log [detail|text] Hc Ha.
  - rewrite (ResponseGeneratorFacts.generateResponse_failure _ _ _ _ _ _ Hc Ha).
    eexists. rewrite <- !app_assoc. split; reflexivity.
  - rewrite (ResponseGeneratorFacts.generateResponse_answer _ _ _ _ _ _ Hc Ha).
    eexists. split; reflexivity.
Qed.

(** The history record of a query. *)
Definition historyOf (userId query : jsstring) (v : list float) (response : jsstring)
           (chunks : list Match) : HistoryRecord :=
  mkHistoryRecord userId (cleanText query) v response (List.map m_id chunks).

(** The request the language model gets for a query. *)
Definition chatCall (query : jsstring) (chunks : list Match)
           (avatarConfig : AvatarConfig) : entry :=
  inl (SdkCreateChatCompletion
         (ResponseGeneratorFacts.requestOf (cleanText query)
            (List.map m_content_text chunks) avatarConfig)).

(** Everything before the history insert works: the embedding provider
    answers [v], the search request goes through, and the language model
    gives [answer], a text or a failure. *)
Record upstream (sdk : Sdk) (supabase : Supabase) (v : list float)
       (answer : jsstring + jsstring) : Prop := {
  u_client : client sdk = true;
  u_supabase : sb_client supabase = true;
  u_embedding : forall log model input, sdkCreateEmbedding sdk log model input = inr v;
  u_rpc : forall log, rpcFailure supabase log = None;
  u_chat : forall log req, sdkCreateChatCompletion sdk log req = answer
}.

Lemma hd_error_In : forall (A : Type) (l : list A) x, hd_error l = Some x -> In x l.
Proof. intros A [|y l] x H; [discriminate|]. injection H as ->. left. reflexivity. Qed.

(** [processQuery] up to the history insert. *)
Lemma processQuery_upto_history :
  forall sdk dist supabase tables v answer query userId avatarConfig options log,
    upstream sdk supabase v answer ->
    estimateTokenCount (cleanText query) <= 8000 ->
    0 <= intOr (qo_maxChunks options) defaultMaxChunks ->
    let chunks := found dist supabase v userId options in
    let record := historyOf userId query v (replyOf answer) chunks in
    exists pre,
      In (chatCall query chunks avatarConfig) pre
      /\ processQuery sdk dist supabase tables query userId avatarConfig options log
         = match insertChatHistory tables pre record with
           | inr _ =>
               (Ok (mkQueryResult (cleanText query) (replyOf answer) chunks
                      (negb (Nat.eqb (List.length chunks) 0))),
                pre ++ [inr (InsertChatHistory record)])
           | inl error =>
               (Throw (External error),
                ((pre ++ [inr (InsertChatHistory record)])
                   ++ [inl (ConsoleError (lit "Error storing chat history:"))])
                  ++ [inl (ConsoleError (lit "Error processing query:"))])
           end.
Proof.
  intros sdk dist supabase tables v answer query userId avatarConfig options log
         [Hc Hs He Hr Ha] Hle Hn chunks record.
  assert (G : guardEstimate (cleanText query) <= 8000).
  { unfold guardEstimate. rewrite CleaningFacts.cleanText_fixed. exact Hle. }
  unfold processQuery, tryCatch2.
  erewrite bind2_Ok;
    [|apply liftM_run; apply generateEmbeddings_single; [exact Hc|exact G|apply He]].
  erewrite bind2_Ok; [|reflexivity]. cbn [embeddingOfResult er_embedding].
  fold (searchOptions options).
  erewrite bind2_Ok;
    [|apply liftM_run; apply findSimilarChunks_run; [exact Hs|apply Hr|exact Hn]].
  fold chunks.
  set (log2 := (log ++ List.map inl [callFor defaultModel (cleanText query)])
                 ++ List.map inl [RpcMatchContentChunks userId]).
  destruct (generateResponse_run sdk (cleanText query)
              (List.map m_content_text chunks) avatarConfig (events log2)
              answer Hc (Ha _ _)) as (ext & G1 & G2).
  exists (log2 ++ List.map inl ext). split.
  { apply in_or_app. right. unfold chatCall.
    apply in_map. apply hd_error_In. exact G2. }
  unfold record, historyOf.
  destruct (Nat.eqb (List.length chunks) 0) eqn:E.
  - assert (E0 : chunks = []) by (destruct chunks; [reflexivity|discriminate]).
    rewrite E0 in *. cbn [List.map] in *.
    erewrite bind2_Ok; [|apply liftM_run; exact G1].
    destruct (insertChatHistory tables (log2 ++ List.map inl ext) _) as [error|row] eqn:Hrow.
    + erewrite bind2_Throw; [|apply storeChatHistory_Throw; [exact Hs|exact Hrow]].
      reflexivity.
    + erewrite bind2_Ok; [|apply storeChatHistory_Ok; [exact Hs|exact Hrow]].
      reflexivity.
  - erewrite bind2_Ok; [|apply liftM_run; exact G1].
    destruct (insertChatHistory tables (log2 ++ List.map inl ext) _) as [error|row] eqn:Hrow.
    + erewrite bind2_Throw; [|apply storeChatHistory_Throw; [exact Hs|exact Hrow]].
      reflexivity.
    + erewrite bind2_Ok; [|apply storeChatHistory_Ok; [exact Hs|exact Hrow]].
      reflexivity.
Qed.

(** A provider whose embeddings work and whose language model is out
    of quota; a chat history that stores, and one that is down. *)
Definition sdkMute : Sdk :=
  mkSdk true (fun _ _ _ => inr [1%float; 0%float]) (fun _ _ => inl (lit "429 rate limit")).

Definition sdkTalks : Sdk :=
  mkSdk true (fun _ _ _ => inr [1%float; 0%float]) (fun _ _ => inr (lit "Hi!")).

Definition historyUp : Tables :=
  mkTables (fun _ _ => inr []) (fun _ record => inr (mkHistoryRow 1%N record 0)).

Definition historyDown : Tables :=
  mkTables (fun _ _ => inr []) (fun _ _ => inl (lit "down")).

Definition anyOptions : QueryOptions := mkQueryOptions None None [] [].

(** A failure of the language model is invisible to the caller of
    [processQuery]: with the embedding, the search and the history insert
    working, the query resolves whatever the model does; the response is
    the model's text or, when the model fails, the fixed apology, and
    that response is written to the chat history, as the last effect,
    with the cleaned query and the ids of the chunks returned. *)
Theorem processQuery_answer_or_apology :
  forall sdk dist supabase tables v answer query userId avatarConfig options log,
    upstream sdk supabase v answer ->
    (forall log' record, exists row, insertChatHistory tables log' record = inr row) ->
    estimateTokenCount (cleanText query) <= 8000 ->
    0 <= intOr (qo_maxChunks options) defaultMaxChunks ->
    let chunks := found dist supabase v userId options in
    exists pre,
      processQuery sdk dist supabase tables query userId avatarConfig options log
      = (Ok (mkQueryResult (cleanText query)
               match answer with
               | inr text => text
               | inl _ => apology
               end
               chunks (negb (Nat.eqb (List.length chunks) 0))),
         pre ++ [inr (InsertChatHistory
                        (mkHistoryRecord userId (cleanText query) v
                           match answer with
                           | inr text => text
                           | inl _ => apology
                           end
                           (List.map m_id chunks)))]).
Proof.
  intros sdk dist supabase tables v answer query userId avatarConfig options log
         Hu Hh Hle Hn chunks.
  destruct (processQuery_upto_history sdk dist supabase tables v answer query userId
              avatarConfig options log Hu Hle Hn) as (pre & _ & H).
  exists pre. rewrite H.
  destruct (Hh pre (historyOf userId query v (replyOf answer)
                      (found dist supabase v userId options))) as [row ->].
  reflexivity.
Qed.

Lemma processQuery_answer_or_apology_witness :
  exists pre,
    processQuery sdkMute Examples.distance Examples.store historyUp
      (lit "Who is there?") (lit "A") emptyConfig anyOptions []
    = (Ok (mkQueryResult (cleanText (lit "Who is there?")) apology
             (found Examples.distance Examples.store [1%float; 0%float] (lit "A") anyOptions)
             (negb (Nat.eqb
                      (List.length
                         (found Examples.distance Examples.store [1%float; 0%float]
                            (lit "A") anyOptions)) 0))),
       pre ++ [inr (InsertChatHistory
                      (mkHistoryRecord (lit "A") (cleanText (lit "Who is there?"))
                         [1%float; 0%float] apology
                         (List.map m_id
                            (found Examples.distance Examples.store [1%float; 0%float]
                               (lit "A") anyOptions))))]).
Proof.
  apply (processQuery_answer_or_apology sdkMute Examples.distance Examples.store historyUp
           [1%float; 0%float] (inl (lit "429 rate limit")) (lit "Who is there?") (lit "A")
           emptyConfig anyOptions []).
  - constructor; reflexivity.
  - intros log' record. exists (mkHistoryRow 1%N record 0). reflexivity.
  - vm_compute. discriminate.
  - vm_compute. discriminate.
Defined.

(** An answer can be generated and then lost: when only the history
    insert fails, [processQuery] rejects with the insert's error although
    the language model was called and answered; the rejection is logged
    twice, by the repository and by the processor. *)
Theorem processQuery_history_failure :
  forall sdk dist supabase tables v answer error query userId avatarConfig options log,
    upstream sdk supabase v answer ->
    (forall log' record, insertChatHistory tables log' record = inl error) ->
    estimateTokenCount (cleanText query) <= 8000 ->
    0 <= intOr (qo_maxChunks options) defaultMaxChunks ->
    let chunks := found dist supabase v userId options in
    exists pre record,
      In (chatCall query chunks avatarConfig) pre
      /\ h_system_response record
         = match answer with
           | inr text => text
           | inl _ => apology
           end
      /\ processQuery sdk dist supabase tables query userId avatarConfig options log
         = (Throw (External error),
            pre ++ [inr (InsertChatHistory record);
                    inl (ConsoleError (lit "Error storing chat history:"));
                    inl (ConsoleError (lit "Error processing query:"))]).
Proof.
  intros sdk dist supabase tables v answer error query userId avatarConfig options log
         Hu Hh Hle Hn chunks.
  destruct (processQuery_upto_history sdk dist supabase tables v answer query userId
              avatarConfig options log Hu Hle Hn) as (pre & Hin & H).
  exists pre, (historyOf userId query v (replyOf answer) chunks).
  split; [exact Hin|]. split; [reflexivity|].
  rewrite H. fold chunks. rewrite Hh. rewrite <- !app_assoc. reflexivity.
Qed.

Lemma processQuery_history_failure_witness :
  exists pre record,
    In (chatCall (lit "Who is there?")
          (found Examples.distance Examples.store [1%float; 0%float] (lit "A") anyOptions)
          emptyConfig) pre
    /\ h_system_response record = lit "Hi!"
    /\ processQuery sdkTalks Examples.distance Examples.store historyDown
         (lit "Who is there?") (lit "A") emptyConfig anyOptions []
       = (Throw (External (lit "down")),
          pre ++ [inr (InsertChatHistory record);
                  inl (ConsoleError (lit "Error storing chat history:"));
                  inl (ConsoleError (lit "Error processing query:"))]).
Proof.
  apply (processQuery_history_failure sdkTalks Examples.distance Examples.store historyDown
           [1%float; 0%float] (inr (lit "Hi!")) (lit "down") (lit "Who is there?") (lit "A")
           emptyConfig anyOptions []).
  - constructor; reflexivity.
  - reflexivity.
  - vm_compute. discriminate.
  - vm_compute. discriminate.
Defined.

(** A query is rejected before anything is searched, generated or
    stored when its embedding cannot be made: a cleaned query estimated
    above 8000 tokens rejects without any provider call, and a provider
    failure rejects, with the provider's error, after that one call; in
    both cases the log holds no search request, no chat request and no
    insert. *)
Theorem processQuery_embedding_failure :
  forall sdk dist supabase tables query userId avatarConfig options log,
    client sdk = true ->
    (8000 < estimateTokenCount (cleanText query) ->
       processQuery sdk dist supabase tables query userId avatarConfig options log
       = (Throw (ContentTooLarge (estimateTokenCount (cleanText query)) 8000),
          log ++ [inl (ConsoleError (lit "Error processing query:"))]))
    /\ (estimateTokenCount (cleanText query) <= 8000 ->
        forall detail,
          sdkCreateEmbedding sdk (events log) defaultModel (cleanText query) = inl detail ->
          processQuery sdk dist supabase tables query userId avatarConfig options log
          = (Throw (External detail),
             log ++ [inl (SdkCreateEmbedding defaultModel (cleanText query));
                     inl (ConsoleError (lit "Error creating embedding:"));
                     inl (ConsoleError (lit "Error generating embedding:"));
                     inl (ConsoleError (lit "Error processing query:"))])).
Proof.
  intros sdk dist supabase tables query userId avatarConfig options log Hc.
  assert (F : cleanText (cleanText query) = cleanText query)
    by apply CleaningFacts.cleanText_fixed.
  split.
  - intros Hgt. unfold processQuery, tryCatch2.
    rewrite (bind2_Throw _ _ _ _ _
               (ContentTooLarge (estimateTokenCount (cleanText query)) 8000) log).
    + reflexivity.
    + unfold liftM, generateEmbeddings, isConfigured. rewrite Hc. cbn [negb textArray].
      unfold bind at 1, lift. cbn [mapR]. unfold processItem. rewrite F.
      replace (estimateTokenCount (cleanText query) >? maxContentLength) with true
        by (symmetry; rewrite Z.gtb_ltb; apply Z.ltb_lt; exact Hgt).
      rewrite skipn_all, app_nil_r. reflexivity.
  - intros Hle detail Hd. unfold processQuery, tryCatch2.
    rewrite (bind2_Throw _ _ _ _ _ (External detail)
               (log ++ List.map inl
                         [SdkCreateEmbedding defaultModel (cleanText query);
                          ConsoleError (lit "Error creating embedding:");
                          ConsoleError (lit "Error generating embedding:")])).
    + unfold bind2, emit2, throw2. cbn [List.map]. rewrite <- !app_assoc. reflexivity.
    + apply liftM_run.
      rewrite (generateEmbeddings_failure sdk (Single (cleanText query)) defaultModel
                 (events log) (cleanText query) [] detail Hc eq_refl).
      * unfold callFor. rewrite F. rewrite <- !app_assoc. reflexivity.
      * intros t [<-|[]]. unfold guardEstimate. rewrite F. exact Hle.
      * rewrite F. exact Hd.
Qed.

Lemma processQuery_embedding_failure_witness :
  processQuery Examples.sdkDown Examples.distance Examples.store historyUp
    (lit "Who is there?") (lit "A") emptyConfig anyOptions []
  = (Throw (External (lit "429 rate limit")),
     [] ++ [inl (SdkCreateEmbedding defaultModel (cleanText (lit "Who is there?")));
            inl (ConsoleError (lit "Error creating embedding:"));
            inl (ConsoleError (lit "Error generating embedding:"));
            inl (ConsoleError (lit "Error processing query:"))]).
Proof.
  apply (proj2 (processQuery_embedding_failure Examples.sdkDown Examples.distance
                  Examples.store historyUp (lit "Who is there?") (lit "A") emptyConfig
                  anyOptions [] eq_refl)).
  - vm_compute. discriminate.
  - reflexivity.
Defined.


Lemma liftM_Ok : forall (A : Type) (m : M A) log a log',
  liftM m log = (Ok a, log') -> exists l, m (events log) = (Ok a, l).
Proof.
  intros A m log a log' H. unfold liftM in H.
  destruct (m (events log)) as [r l]. injection H as -> _. exists l. reflexivity.
Qed.

Lemma storeChatHistory_Ok_inv :
  forall supabase tables userId query q response ids log row log',
    storeChatHistory supabase tables userId query q response ids log = (Ok row, log') ->
    log' = log ++ [inr (InsertChatHistory (mkHistoryRecord userId query q response ids))].
Proof.
  intros supabase tables userId query q response ids log row log' H.
  unfold storeChatHistory in H. destruct (sb_client supabase); [|discriminate].
  cbn [negb] in H. unfold tryCatch2, bind2, getLog2, emit2, ret2, throw2 in H.
  cbn beta iota in H.
  destruct (insertChatHistory tables log _); [discriminate|].
  injection H as _ <-. reflexivity.
Qed.

(** Whatever the providers and the store do, a query that resolves
    gives back the cleaned query; [hasResults] says whether chunks came
    back; there are at most [maxChunks] of them (5 when the option is
    absent or 0), each the projection of a stored row of the caller whose
    similarity is above the threshold (0.75 when the option is absent, 0
    or NaN); and the last effect is the insert of a chat history row for
    the caller holding that query, that response and the ids of those
    chunks. *)
Theorem processQuery_result :
  forall sdk dist supabase tables query userId avatarConfig options log res log',
    processQuery sdk dist supabase tables query userId avatarConfig options log
    = (Ok res, log') ->
    qr_query res = cleanText query
    /\ qr_hasResults res = negb (Nat.eqb (List.length (qr_similarChunks res)) 0)
    /\ Z.of_nat (List.length (qr_similarChunks res))
       <= intOr (qo_maxChunks options) defaultMaxChunks
    /\ (forall r, In r (qr_similarChunks res) ->
          pg_gt (m_similarity r)
            (numOr (qo_threshold options) QueryProcessor.defaultSimilarityThreshold) = true
          /\ exists c q, In c (content_chunks supabase) /\ user_id c = userId
                         /\ r = project dist q c)
    /\ exists pre q,
         log' = pre ++ [inr (InsertChatHistory
                               (mkHistoryRecord userId (cleanText query) q
                                  (qr_response res)
                                  (List.map m_id (qr_similarChunks res))))].
Proof.
  intros sdk dist supabase tables query userId avatarConfig options log res log' H.
  unfold processQuery, tryCatch2 in H.
  match type of H with
  | context [match ?body with _ => _ end] =>
      destruct body as [[r|e] l] eqn:B;
        [|unfold bind2, emit2, throw2 in H; discriminate]
  end.
  injection H as -> ->.
  unfold bind2 at 1 in B.
  destruct (liftM _ log) as [[er|e] l1] eqn:B1; [|discriminate].
  unfold bind2 at 1 in B.
  destruct (embeddingOfResult er) as [q|e]; [|discriminate].
  unfold bind2 at 1 in B. fold (searchOptions options) in B.
  destruct (liftM _ l1) as [[chunks|e] l2] eqn:B3; [|discriminate].
  destruct (liftM_Ok _ _ _ _ _ B3) as [l2' B3'].
  destruct (SearchFacts.findSimilarChunks_Ok _ _ _ _ _ _ _ _ B3') as (_ & _ & _ & rows & E & Hchunks).
  assert (Hrows : forall r, In r chunks ->
            pg_gt (m_similarity r)
              (numOr (qo_threshold options) QueryProcessor.defaultSimilarityThreshold) = true
            /\ exists c q', In c (content_chunks supabase) /\ user_id c = userId
                            /\ r = project dist q' c).
  { intros x Hx. rewrite Hchunks in Hx. apply VectorRepositoryFacts.clientFilter_In in Hx. split.
    - unfold match_content_chunks in E.
      destruct (SearchFacts.matchCountOf (searchOptions options) <? 0); [discriminate|].
      injection E as E'. rewrite <- E' in Hx.
      apply VectorRepositoryFacts.firstn_In',
        VectorRepositoryFacts.orderBySimilarityDesc_In, in_map_iff in Hx.
      destruct Hx as (c & <- & Hc). apply filter_In in Hc. destruct Hc as [_ Hc].
      unfold selected in Hc. apply andb_true_iff in Hc. destruct Hc as [_ Hc]. exact Hc.
    - destruct (VectorRepositoryFacts.match_content_chunks_owner _ _ _ _ _ _ _ _ E Hx)
        as (c & Hin & Hu & Hp).
      exists c, q. auto. }
  assert (Hlen : Z.of_nat (List.length chunks)
                 <= intOr (qo_maxChunks options) defaultMaxChunks).
  { assert (Len : (List.length chunks <= List.length rows)%nat).
    { rewrite Hchunks. unfold clientFilter.
      repeat match goal with
             | |- context [if ?b then _ else _] => destruct b
             | |- context [match ?o with Some _ => _ | None => _ end] => destruct o
             end;
        repeat (eapply Nat.le_trans; [apply filter_length_le|]); apply Nat.le_refl. }
    unfold match_content_chunks in E.
    change (SearchFacts.matchCountOf (searchOptions options))
      with (intOr (qo_maxChunks options) defaultMaxChunks) in E.
    destruct (Z.ltb_spec (intOr (qo_maxChunks options) defaultMaxChunks) 0) as [L|L];
      [discriminate|].
    injection E as E'. rewrite <- E' in Len. rewrite length_firstn in Len. lia. }
  destruct (Nat.eqb (List.length chunks) 0) eqn:Z0.
  - assert (E0 : chunks = []) by (destruct chunks; [reflexivity|discriminate]).
    unfold bind2 at 1 in B.
    destruct (liftM _ l2) as [[response|e] l3]; [|discriminate].
    unfold bind2 at 1 in B.
    destruct (storeChatHistory _ _ _ _ _ _ _ l3) as [[row|e] l4] eqn:B5; [|discriminate].
    apply storeChatHistory_Ok_inv in B5. unfold ret2 in B. injection B as <- <-.
    cbn [qr_query qr_hasResults qr_similarChunks qr_response List.length Nat.eqb negb].
    split; [reflexivity|]. split; [reflexivity|]. split; [lia|].
    split; [intros r []|]. exists l3, q. exact B5.
  - unfold bind2 at 1 in B.
    destruct (liftM _ l2) as [[response|e] l3]; [|discriminate].
    unfold bind2 at 1 in B.
    destruct (storeChatHistory _ _ _ _ _ _ _ l3) as [[row|e] l4] eqn:B5; [|discriminate].
    apply storeChatHistory_Ok_inv in B5. unfold ret2 in B. injection B as <- <-.
    cbn [qr_query qr_hasResults qr_similarChunks qr_response].
    rewrite Z0. split; [reflexivity|]. split; [reflexivity|]. split; [exact Hlen|].
    split; [exact Hrows|]. exists l3, q. exact B5.
Qed.

Lemma processQuery_result_witness :
  match processQuery sdkTalks Examples.distance Examples.store historyUp
          (lit "Who is there?") (lit "A") emptyConfig anyOptions [] with
  | (Ok res, _) =>
      qr_query res = cleanText (lit "Who is there?")
      /\ qr_hasResults res = negb (Nat.eqb (List.length (qr_similarChunks res)) 0)
  | (Throw _, _) => False
  end.
Proof.
  destruct (processQuery sdkTalks Examples.distance Examples.store historyUp
              (lit "Who is there?") (lit "A") emptyConfig anyOptions [])
    as [[res|e] log'] eqn:H.
  - destruct (processQuery_result _ _ _ _ _ _ _ _ _ _ _ H) as (H1 & H2 & _).
    split; [exact H1|exact H2].
  - vm_compute in H. discriminate.
Defined.

End QueryProcessorFacts.

(* ------------------------------------------------------------------ *)
(** * Properties of the in-memory similarity search *)

Module SimilarityFacts.

Import EmbeddingService.

Arguments mkScored {Doc}.
Arguments doc {Doc}.
Arguments similarity {Doc}.
Arguments scoreOf {Doc}.
Arguments insertByScore {Doc}.
Arguments sortByScore {Doc}.
Arguments findSimilarEmbeddings {Doc}.

Section Documents.

Variable Doc : Type.
Variable embeddingOf : Doc -> option (list float).

Lemma insertByScore_In : forall (m x : (Scored Doc)) sorted,
  In x (insertByScore m sorted) <-> x = m \/ In x sorted.
Proof.
  intros m x sorted. induction sorted as [|y rest IH]; cbn [insertByScore].
  - cbn [In]. intuition.
  - destruct (PrimFloat.ltb _ _); cbn [In]; [intuition|].
    rewrite IH. intuition.
Qed.

Lemma insertByScore_length : forall (m : (Scored Doc)) sorted,
  List.length (insertByScore m sorted) = S (List.length sorted).
Proof.
  intros m sorted. induction sorted as [|y rest IH]; cbn [insertByScore]; [reflexivity|].
  destruct (PrimFloat.ltb _ _); cbn [List.length]; [reflexivity|].
  rewrite IH. reflexivity.
Qed.

Lemma fold_insert_In : forall (ds acc : list (Scored Doc)) x,
  In x (fold_left (fun sorted m => insertByScore m sorted) ds acc) <-> In x ds \/ In x acc.
Proof.
  induction ds as [|d ds IH]; intros acc x; cbn [fold_left].
  - cbn [In]. intuition.
  - rewrite IH, insertByScore_In. cbn [In]. intuition.
Qed.

Lemma fold_insert_length : forall (ds acc : list (Scored Doc)),
  List.length (fold_left (fun sorted m => insertByScore m sorted) ds acc)
  = (List.length ds + List.length acc)%nat.
Proof.
  induction ds as [|d ds IH]; intros acc; cbn [fold_left]; [reflexivity|].
  rewrite IH, insertByScore_length. cbn [List.length]. lia.
Qed.

(** Sorting keeps the elements. *)
Lemma sortByScore_In : forall (ds : list (Scored Doc)) x, In x (sortByScore ds) <-> In x ds.
Proof.
  intros ds x. unfold sortByScore. rewrite fold_insert_In. cbn [In]. intuition.
Qed.

Lemma sortByScore_length : forall ds : list (Scored Doc),
  List.length (sortByScore ds) = List.length ds.
Proof.
  intros ds. unfold sortByScore. rewrite fold_insert_length. cbn [List.length]. lia.
Qed.

Lemma slice0_In : forall (A : Type) (xs : list A) end_ x, In x (slice0 xs end_) -> In x xs.
Proof.
  intros A xs end_ x H. unfold slice0 in H.
  rewrite <- (firstn_skipn (Z.to_nat
    (if end_ <? 0 then Z.max (Z.of_nat (List.length xs) + end_) 0
     else Z.min end_ (Z.of_nat (List.length xs)))) xs).
  apply in_or_app. left. exact H.
Qed.

Lemma slice0_length : forall (A : Type) (xs : list A) end_,
  0 <= end_ -> Z.of_nat (List.length (slice0 xs end_)) <= end_.
Proof.
  intros A xs end_ H. unfold slice0.
  destruct (Z.ltb_spec end_ 0) as [L|L]; [lia|].
  rewrite length_firstn. lia.
Qed.

Lemma slice0_all : forall (A : Type) (xs : list A) end_,
  Z.of_nat (List.length xs) <= end_ -> slice0 xs end_ = xs.
Proof.
  intros A xs end_ H. unfold slice0.
  destruct (Z.ltb_spec end_ 0) as [L|L]; [lia|].
  rewrite Z.min_r by exact H. rewrite Nat2Z.id. apply firstn_all.
Qed.

Definition thresholdOf (options : SimilarityOptions) : float :=
  match so_threshold options with
  | Some t => t
  | None => 0.7%float
  end.

Definition maxResultsOf (options : SimilarityOptions) : Z :=
  match so_maxResults options with
  | Some n => n
  | None => 5
  end.

Definition includeScoresOf (options : SimilarityOptions) : bool :=
  match so_includeScores options with
  | Some b => b
  | None => true
  end.

(** The documents that pass the threshold, scored. *)
Definition passing (q : list float) (documents : list Doc) (options : SimilarityOptions)
  : list (Scored Doc) :=
  filter (fun d => PrimFloat.leb (thresholdOf options) (scoreOf d))
    (List.map (fun d => mkScored d (Some (cosineSimilarity (Some q) (embeddingOf d))))
       documents).

Lemma findSimilarEmbeddings_eq : forall q documents options,
  findSimilarEmbeddings embeddingOf (Some q) documents options
  = let filtered := slice0 (sortByScore (passing q documents options))
                      (maxResultsOf options) in
    if includeScoresOf options then filtered
    else List.map (fun d => mkScored (doc d) None) filtered.
Proof.
  intros q documents options. unfold findSimilarEmbeddings.
  fold (thresholdOf options). fold (maxResultsOf options). fold (includeScoresOf options).
  destruct documents as [|d documents].
  - cbn [List.length Nat.eqb]. unfold passing, sortByScore, slice0.
    cbn [List.map filter fold_left]. rewrite firstn_nil.
    destruct (includeScoresOf options); reflexivity.
  - cbn [List.length Nat.eqb]. fold (passing q (d :: documents) options).
    destruct (includeScoresOf options); reflexivity.
Qed.

Lemma passing_In : forall q documents options (d : (Scored Doc)),
  In d (passing q documents options) <->
  In (doc d) documents
  /\ similarity d = Some (cosineSimilarity (Some q) (embeddingOf (doc d)))
  /\ PrimFloat.leb (thresholdOf options)
       (cosineSimilarity (Some q) (embeddingOf (doc d))) = true.
Proof.
  intros q documents options d. unfold passing. rewrite filter_In, in_map_iff. split.
  - intros [(x & <- & Hx) Hs]. cbn [doc similarity]. auto.
  - intros (Hin & Hs & Hle). split.
    + exists (doc d). split; [|exact Hin]. destruct d as [x s]. cbn in *. rewrite Hs.
      reflexivity.
    + unfold scoreOf. rewrite Hs. exact Hle.
Qed.

(** Every result of [findSimilarEmbeddings] is one of the documents
    passed in, scored against the query at or above the threshold (0.7
    unless given), so a document whose similarity is NaN is never
    returned; it carries that score, or no score when [includeScores] is
    false; and for a [maxResults] that is not negative (5 unless given)
    there are at most that many. *)
Theorem findSimilarEmbeddings_sound : forall q documents options,
  (forall d, In d (findSimilarEmbeddings embeddingOf q documents options) ->
     exists v, q = Some v
       /\ In (doc d) documents
       /\ PrimFloat.leb (thresholdOf options)
            (cosineSimilarity q (embeddingOf (doc d))) = true
       /\ similarity d = (if includeScoresOf options
                          then Some (cosineSimilarity q (embeddingOf (doc d)))
                          else None))
  /\ (0 <= maxResultsOf options ->
      Z.of_nat (List.length (findSimilarEmbeddings embeddingOf q documents options))
      <= maxResultsOf options).
Proof.
  intros [v|] documents options; [|split; [intros d []|intros H; exact H]].
  rewrite findSimilarEmbeddings_eq. cbv zeta. split.
  - intros d Hd. exists v. split; [reflexivity|].
    destruct (includeScoresOf options).
    + apply slice0_In, sortByScore_In, passing_In in Hd. tauto.
    + apply in_map_iff in Hd. destruct Hd as (x & <- & Hx).
      apply slice0_In, sortByScore_In, passing_In in Hx. cbn [doc similarity]. tauto.
  - intros H. destruct (includeScoresOf options); rewrite ?length_map;
      apply slice0_length; exact H.
Qed.

(** With room for all of them nothing is lost: when [maxResults] is at
    least the number of documents, every document scored at or above the
    threshold is among the results, and with or without scores the same
    documents come back in the same order. *)
Theorem findSimilarEmbeddings_complete : forall v documents options,
  Z.of_nat (List.length documents) <= maxResultsOf options ->
  (forall x, In x documents ->
     PrimFloat.leb (thresholdOf options)
       (cosineSimilarity (Some v) (embeddingOf x)) = true ->
     In x (List.map doc
             (findSimilarEmbeddings embeddingOf (Some v) documents options)))
  /\ List.map doc (findSimilarEmbeddings embeddingOf (Some v) documents options)
     = List.map doc
         (findSimilarEmbeddings embeddingOf (Some v) documents
            (mkSimilarityOptions (Some (thresholdOf options)) (Some (maxResultsOf options))
               (Some (negb (includeScoresOf options))))).
Proof.
  intros v documents options Hroom. split.
  - intros x Hin Hle. rewrite findSimilarEmbeddings_eq. cbv zeta.
    assert (All : slice0 (sortByScore (passing v documents options)) (maxResultsOf options)
                  = sortByScore (passing v documents options)).
    { apply slice0_all. rewrite sortByScore_length. unfold passing.
      pose proof (filter_length_le
                    (fun d : (Scored Doc) => PrimFloat.leb (thresholdOf options) (scoreOf d))
                    (List.map (fun d => mkScored d
                                 (Some (cosineSimilarity (Some v) (embeddingOf d))))
                       documents)) as L.
      rewrite length_map in L. lia. }
    rewrite All.
    assert (P : In (mkScored x (Some (cosineSimilarity (Some v) (embeddingOf x))))
                  (sortByScore (passing v documents options))).
    { apply sortByScore_In, passing_In. cbn [doc similarity]. auto. }
    destruct (includeScoresOf options).
    + apply in_map_iff. eexists. split; [|exact P]. reflexivity.
    + rewrite map_map. cbn [doc]. apply in_map_iff. eexists. split; [|exact P]. reflexivity.
  - rewrite !findSimilarEmbeddings_eq. cbv zeta.
    change (passing v documents
              (mkSimilarityOptions (Some (thresholdOf options))
                 (Some (maxResultsOf options)) (Some (negb (includeScoresOf options)))))
      with (passing v documents options).
    cbn [maxResultsOf includeScoresOf so_maxResults so_includeScores].
    destruct (includeScoresOf options); cbn [negb]; rewrite map_map; cbn [doc]; reflexivity.
Qed.

End Documents.

Lemma findSimilarEmbeddings_sound_witness :
  exists v, Some [1%float; 0%float] = Some v
    /\ In [1%float; 0%float] [[0%float; 1%float]; [1%float; 0%float]]
    /\ PrimFloat.leb 0.7%float
         (cosineSimilarity (Some [1%float; 0%float]) (Some [1%float; 0%float])) = true
    /\ Some 1%float = Some (cosineSimilarity (Some [1%float; 0%float])
                              (Some [1%float; 0%float])).
Proof.
  apply (proj1 (findSimilarEmbeddings_sound (list float) (@Some (list float))
                  (Some [1%float; 0%float]) [[0%float; 1%float]; [1%float; 0%float]]
                  (mkSimilarityOptions None None None))
           (mkScored [1%float; 0%float] (Some 1%float))).
  vm_compute. left. reflexivity.
Defined.

Lemma findSimilarEmbeddings_complete_witness :
  In [1%float; 0%float]
    (List.map doc
       (findSimilarEmbeddings (@Some (list float)) (Some [1%float; 0%float])
          [[0%float; 1%float]; [1%float; 0%float]] (mkSimilarityOptions None None None))).
Proof.
  apply (proj1 (findSimilarEmbeddings_complete (list float) (@Some (list float))
                  [1%float; 0%float] [[0%float; 1%float]; [1%float; 0%float]]
                  (mkSimilarityOptions None None None) ltac:(vm_compute; discriminate))).
  - right. left. reflexivity.
  - vm_compute. reflexivity.
Defined.

End SimilarityFacts.

(* ------------------------------------------------------------------ *)
(** * Properties of the ingestion of custom text *)

Module IngestionFacts.

Import OpenaiClient VectorRepository Persistence ContentIngestion.
Import EmbeddingService EmbeddingServiceFacts EmbeddingFlowFacts.

Lemma zOr_zero : forall x, zOr x 0 = x.
Proof. intros x. unfold zOr. destruct (Z.eqb_spec x 0); congruence. Qed.

(** An option that is absent or not negative. *)
Definition notNegative (x : option Z) : Prop :=
  match x with
  | Some v => 0 <= v
  | None => True
  end.

Lemma intOr_positive : forall x d, notNegative x -> 0 < d -> 0 < QueryProcessor.intOr x d.
Proof.
  intros [v|] d H Hd; cbn [QueryProcessor.intOr]; [|exact Hd].
  destruct (Z.eqb_spec v 0); cbn in H; lia.
Qed.

Lemma generateEmbeddings_one_of_many : forall sdk t model log v,
  client sdk = true -> guardEstimate t <= 8000 ->
  sdkCreateEmbedding sdk log model (cleanText t) = inr v ->
  generateEmbeddings sdk (Many [t]) model log
  = (Ok (Several [mkEmbeddingResult t (cleanText t) v (guardEstimate t)]),
     log ++ [callFor model t]).
Proof.
  intros sdk t model log v Hc Hle Hv.
  unfold generateEmbeddings, isConfigured. rewrite Hc. cbn [negb textArray].
  unfold bind at 1, lift.
  rewrite (mapR_processItem_all [t]) by (intros t' [<-|[]]; exact Hle).
  cbn [List.map embedItems]. unfold bind at 1, bind at 1, tryCatch at 1, bind at 1.
  cbn [pi_processedText itemOf].
  rewrite (createEmbedding_answer sdk (cleanText t) model log v Hc Hv).
  reflexivity.
Qed.

Section Ingestion.

Variable sdk : Sdk.
Variable supabase : Supabase.
Variable tables : Tables.
Variable CUSTOM_TEXT : jsstring.
Variable extractKeywords : jsstring -> Z -> list jsstring.
Variable dateNow : list entry -> Z.
Variable random1000 : list entry -> Z.
Variable toISOString : list entry -> jsstring.

#[local] Abbreviation ingest :=
  (ingestCustomText sdk supabase tables CUSTOM_TEXT extractKeywords dateNow random1000
     toISOString).

(** The content id made at the start of a call. *)
Definition contentIdAt (log : list entry) : jsstring :=
  lit "custom_" ++ ResponseGenerator.numberToString (dateNow log)
    ++ lit "_" ++ ResponseGenerator.numberToString (random1000 log).

(** A text of fewer than 100 characters is refused before anything is
    cleaned, embedded or stored: the call resolves (it never rejects)
    with [success: false] and the message of the short-text error, after
    one error log line.  The length is that of the text as given, white
    space included. *)
Theorem ingestCustomText_too_short : forall fuel text userId title options log,
  len text < 100 ->
  ingest fuel text userId title options log
  = (Resolved (Failure CUSTOM_TEXT TextTooShort),
     log ++ [inl (ConsoleError (lit "Error ingesting custom text:"))]).
Proof.
  intros fuel text userId title options log H. unfold ingestCustomText.
  replace (len text <? 100) with true by (symmetry; apply Z.ltb_lt; exact H).
  rewrite orb_true_r. reflexivity.
Qed.

(** The caller cannot switch the overlap off: [options.overlap || 150]
    turns 0 into 150.  So with a chunk size and an overlap that are absent
    or not negative, a text of at least 100 characters whose cleaned form
    is longer than the chunk size (1500 unless given) is never ingested:
    after any number of passes the call is still in the loop of
    [chunkText]; no embedding request and no insert was made and no error
    line was written (the log records those; the [console.log] line that
    announces the content id comes before the chunking and is not part of
    it). *)
Theorem ingestCustomText_hangs : forall text userId title options log,
  100 <= len text ->
  notNegative (io_chunkSize options) -> notNegative (io_overlap options) ->
  QueryProcessor.intOr (io_chunkSize options) 1500 < len (cleanText text) ->
  forall fuel, exists startChar chunks,
    ingest fuel text userId title options log = (Chunking startChar chunks, log).
Proof.
  intros text userId title options log Hlen Hc Ho Hbig fuel.
  pose proof (intOr_positive _ 1500 Hc ltac:(lia)) as Pc.
  pose proof (intOr_positive _ 150 Ho ltac:(lia)) as Po.
  unfold ingestCustomText.
  replace (len text <? 100) with false by (symmetry; apply Z.ltb_ge; exact Hlen).
  assert (T : truthy text = true).
  { destruct text; [cbn in Hlen; lia|reflexivity]. }
  rewrite T. cbn [negb orb].
  unfold chunkText.
  assert (T' : truthy (cleanText text) = true).
  { destruct (cleanText text); [cbn in Hbig; lia|reflexivity]. }
  rewrite T'. cbn [negb].
  replace (len (cleanText text) <=? QueryProcessor.intOr (io_chunkSize options) 1500)
    with false by (symmetry; apply Z.leb_gt; exact Hbig).
  destruct (TextProcessorFacts.chunkLoop_keeps_running fuel (cleanText text)
              (QueryProcessor.intOr (io_chunkSize options) 1500)
              (QueryProcessor.intOr (io_overlap options) 150) 0 [] Po ltac:(lia))
    as (startChar & chunks & -> & _).
  exists startChar, chunks. reflexivity.
Qed.

(** The record written for a text that fits in one chunk. *)
Definition oneRecord (text userId : jsstring) (title : option jsstring)
           (v : list float) (log : list entry) : ChunkRecord :=
  let cleaned := cleanText text in
  mkChunkRecord userId CUSTOM_TEXT (contentIdAt log) (strOr title (lit "Custom Text")) 0
    cleaned
    (setProp
       (setProp
          (setProp
             (metadataOf title (extractKeywords text 10)
                (toISOString (log ++ [inl (SdkCreateEmbedding defaultModel cleaned)])))
             (lit "startChar") (VNum 0))
          (lit "endChar") (VNum (len cleaned)))
       (lit "tokenEstimate") (VNum (estimateTokenCount cleaned)))
    v.

(** A text of at least 100 characters whose cleaned form fits in one
    chunk is embedded once and stored with one insert of one record: the
    record holds the cleaned text, chunk index 0, the offsets 0 and the
    length of the cleaned text, and its token estimate.  The call reports
    that estimate as [totalTokens], and as [chunksProcessed] the number of
    rows the insert gave back. *)
Theorem ingestCustomText_one_chunk :
  forall fuel text userId title options log v data,
    let cleaned := cleanText text in
    let call := inl (SdkCreateEmbedding defaultModel cleaned) in
    let record := oneRecord text userId title v log in
    100 <= len text -> cleaned <> [] ->
    len cleaned <= QueryProcessor.intOr (io_chunkSize options) 1500 ->
    estimateTokenCount cleaned <= 8000 ->
    client sdk = true -> sb_client supabase = true ->
    sdkCreateEmbedding sdk (events log) defaultModel cleaned = inr v ->
    insertContentChunks tables (log ++ [call]) [record] = inr data ->
    ingest fuel text userId title options log
    = (Resolved (Success CUSTOM_TEXT (contentIdAt log) (strOr title (lit "Custom Text"))
                   (Z.of_nat (List.length data)) (estimateTokenCount cleaned)
                   (metadataOf title (extractKeywords text 10)
                      (toISOString (log ++ [call])))),
       log ++ [call; inr (InsertContentChunks [record])]).
Proof.
  intros fuel text userId title options log v data cleaned call record
         Hlen Hne Hfit Hest Hc Hs Hv Hd.
  assert (F : cleanText cleaned = cleaned) by apply CleaningFacts.cleanText_fixed.
  unfold ingestCustomText.
  replace (len text <? 100) with false by (symmetry; apply Z.ltb_ge; exact Hlen).
  assert (T : truthy text = true).
  { destruct text; [cbn in Hlen; lia|reflexivity]. }
  rewrite T. cbn [negb orb]. fold cleaned. fold (contentIdAt log).
  unfold chunkText.
  assert (T' : truthy cleaned = true).
  { destruct cleaned; [congruence|reflexivity]. }
  rewrite T'. cbn [negb].
  replace (len cleaned <=? QueryProcessor.intOr (io_chunkSize options) 1500)
    with true by (symmetry; apply Z.leb_le; exact Hfit).
  assert (E : liftM (embedChunks sdk [mkChunk cleaned 0 (len cleaned)] defaultModel) log
              = (Ok [mkEmbeddedChunk cleaned 0 (len cleaned) v (estimateTokenCount cleaned)],
                 log ++ [call])).
  { apply (QueryProcessorFacts.liftM_run _ _ _ _ [SdkCreateEmbedding defaultModel cleaned]).
    unfold embedChunks. cbn [List.length Nat.eqb List.map TextProcessor.text]. unfold bind at 1.
    rewrite (generateEmbeddings_one_of_many sdk cleaned defaultModel (events log) v Hc).
    - unfold lift, callFor, guardEstimate. rewrite F. reflexivity.
    - unfold guardEstimate. rewrite F. exact Hest.
    - rewrite F. exact Hv. }
  erewrite QueryProcessorFacts.bind2_Ok; [|exact E].
  unfold bind2 at 1, getLog2.
  unfold storeContentChunks. rewrite Hs. cbn [negb List.length Nat.eqb].
  unfold tryCatch2, bind2, getLog2, emit2, ret2, throw2. cbn beta iota.
  cbn [recordsFrom ec_text ec_startChar ec_endChar ec_tokenEstimate ec_embedding].
  match goal with
  | |- context [insertContentChunks tables ?l ?r] =>
      change (insertContentChunks tables l r)
        with (insertContentChunks tables (log ++ [call]) [record])
  end.
  rewrite Hd.
  unfold totalTokensOf. cbn [fold_left ec_tokenEstimate]. rewrite zOr_zero.
  rewrite <- app_assoc. reflexivity.
Qed.

(** White space counts towards the 100 characters but not towards the
    chunks: a text of at least 100 characters that cleans to the empty
    string is reported as ingested, with no chunk, no token, nothing
    embedded and nothing stored, and this without a provider client; the
    database client is still asked for. *)
Theorem ingestCustomText_blank : forall fuel text userId title options log,
  100 <= len text -> cleanText text = [] ->
  ingest fuel text userId title options log
  = if sb_client supabase
    then (Resolved (Success CUSTOM_TEXT (contentIdAt log) (strOr title (lit "Custom Text"))
                      0 0 (metadataOf title (extractKeywords text 10) (toISOString log))),
          log)
    else (Resolved (Failure CUSTOM_TEXT (Raised SupabaseNotInitialized)),
          log ++ [inl (ConsoleError (lit "Error ingesting custom text:"))]).
Proof.
  intros fuel text userId title options log Hlen Hblank.
  unfold ingestCustomText.
  replace (len text <? 100) with false by (symmetry; apply Z.ltb_ge; exact Hlen).
  assert (T : truthy text = true).
  { destruct text; [cbn in Hlen; lia|reflexivity]. }
  rewrite T, Hblank. cbn [negb orb].
  unfold chunkText. cbn [truthy negb].
  unfold bind2 at 1, liftM, embedChunks. cbn [List.length Nat.eqb]. unfold ret.
  rewrite skipn_all. cbn [List.map]. rewrite app_nil_r.
  unfold bind2 at 1, getLog2. unfold bind2, storeContentChunks.
  destruct (sb_client supabase); reflexivity.
Qed.

End Ingestion.

(** An environment for the examples: the clock stands still, the
    keywords are empty, every insert gives one row back. *)
Definition oneRow : Tables :=
  mkTables (fun _ _ => inr [mkStoredChunk 1%N (lit "c") 0 0])
           (fun _ record => inr (mkHistoryRow 1%N record 0)).

Definition ingestExample (supabase : Supabase) :=
  ingestCustomText Examples.sdkUp supabase oneRow (lit "custom_text")
    (fun _ _ => []) (fun _ => 0) (fun _ => 0) (fun _ => lit "2024-01-01T00:00:00.000Z").

Definition noIngestOptions : IngestOptions := mkIngestOptions None None.

Lemma ingestCustomText_too_short_witness :
  ingestExample Examples.store 0%nat (lit "Too short a text.") (lit "A") None
    noIngestOptions []
  = (Resolved (Failure (lit "custom_text") TextTooShort),
     [] ++ [inl (ConsoleError (lit "Error ingesting custom text:"))]).
Proof.
  apply (ingestCustomText_too_short Examples.sdkUp Examples.store oneRow (lit "custom_text")
           (fun _ _ => []) (fun _ => 0) (fun _ => 0)
           (fun _ => lit "2024-01-01T00:00:00.000Z")
           0%nat (lit "Too short a text.") (lit "A") None noIngestOptions []).
  vm_compute. reflexivity.
Defined.

Lemma ingestCustomText_hangs_witness :
  exists startChar chunks,
    ingestExample Examples.store 7%nat Examples.paragraph (lit "A") None
      (mkIngestOptions (Some 10) (Some 0)) []
    = (Chunking startChar chunks, []).
Proof.
  apply (ingestCustomText_hangs Examples.sdkUp Examples.store oneRow (lit "custom_text")
           (fun _ _ => []) (fun _ => 0) (fun _ => 0)
           (fun _ => lit "2024-01-01T00:00:00.000Z")
           Examples.paragraph (lit "A") None (mkIngestOptions (Some 10) (Some 0)) []).
  - vm_compute. discriminate.
  - cbn. lia.
  - cbn. lia.
  - vm_compute. reflexivity.
Defined.

Lemma ingestCustomText_one_chunk_witness :
  exists contentId metadata record,
    ingestExample Examples.store 0%nat Examples.paragraph (lit "A") None noIngestOptions []
    = (Resolved (Success (lit "custom_text") contentId (lit "Custom Text") 1 25 metadata),
       [] ++ [inl (SdkCreateEmbedding defaultModel (cleanText Examples.paragraph));
              inr (InsertContentChunks [record])])
    /\ r_chunk_text record = cleanText Examples.paragraph
    /\ r_chunk_index record = 0.
Proof.
  eexists _, _, _. split; [|split].
  - apply (ingestCustomText_one_chunk Examples.sdkUp Examples.store oneRow
             (lit "custom_text") (fun _ _ => []) (fun _ => 0) (fun _ => 0)
             (fun _ => lit "2024-01-01T00:00:00.000Z")
             0%nat Examples.paragraph (lit "A") None noIngestOptions [] [1%float]
             [mkStoredChunk 1%N (lit "c") 0 0]).
    + vm_compute. discriminate.
    + vm_compute. discriminate.
    + vm_compute. discriminate.
    + vm_compute. discriminate.
    + reflexivity.
    + reflexivity.
    + reflexivity.
    + reflexivity.
  - reflexivity.
  - reflexivity.
Defined.

Lemma ingestCustomText_blank_witness :
  ingestExample Examples.store 0%nat (repeat SP 100) (lit "A") None noIngestOptions []
  = (Resolved (Success (lit "custom_text") (lit "custom_0_0") (lit "Custom Text") 0 0
                 (metadataOf None [] (lit "2024-01-01T00:00:00.000Z"))),
     []).
Proof.
  apply (ingestCustomText_blank Examples.sdkUp Examples.store oneRow (lit "custom_text")
           (fun _ _ => []) (fun _ => 0) (fun _ => 0)
           (fun _ => lit "2024-01-01T00:00:00.000Z")
           0%nat (repeat SP 100) (lit "A") None noIngestOptions []).
  - vm_compute. discriminate.
  - vm_compute. reflexivity.
Defined.

End IngestionFacts.

(* ------------------------------------------------------------------ *)
(** * Properties of the keyword search *)

Module KeywordSearchFacts.

Import OpenaiClient VectorRepository KeywordSearch EmbeddingService.

(** ** Keys *)

Lemma eqb_refl : forall s, JS.eqb s s = true.
Proof.
  induction s as [|c s IH]; [reflexivity|].
  simpl. rewrite N.eqb_refl, IH. reflexivity.
Qed.

Lemma eqb_spec : forall s t, reflect (s = t) (JS.eqb s t).
Proof.
  intros s t. destruct (JS.eqb s t) eqn:E; constructor.
  - apply VectorRepositoryFacts.eqb_eq. exact E.
  - intros ->. rewrite eqb_refl in E. discriminate.
Qed.

Lemma own_Some : forall key o g, own key o = Some g -> In (key, g) o.
Proof.
  intros key o g. induction o as [|[k g0] o IH]; cbn [own]; [discriminate|].
  destruct (eqb_spec k key) as [->|N].
  - intros H. injection H as ->. left. reflexivity.
  - intros H. right. apply IH. exact H.
Qed.

Lemma own_None : forall key o, own key o = None -> ~ In key (List.map fst o).
Proof.
  intros key o. induction o as [|[k g0] o IH]; cbn [own List.map fst In]; [tauto|].
  destruct (eqb_spec k key) as [->|N]; [discriminate|].
  intros H [E|E]; [congruence|]. apply IH; assumption.
Qed.

Lemma update_keys : forall key f o, List.map fst (update key f o) = List.map fst o.
Proof.
  intros key f o. induction o as [|[k g0] o IH]; cbn [update]; [reflexivity|].
  destruct (JS.eqb k key); cbn [List.map fst]; rewrite ?IH; reflexivity.
Qed.

Lemma update_In : forall key f o k g',
  NoDup (List.map fst o) -> In (k, g') (update key f o) ->
  (k = key /\ exists g, In (key, g) o /\ g' = f g) \/ (k <> key /\ In (k, g') o).
Proof.
  intros key f o k g'. induction o as [|[k0 g0] o IH]; cbn [update List.map fst]; [intros _ []|].
  intros ND H. inversion ND as [|? ? Hnot ND']; subst.
  destruct (eqb_spec k0 key) as [->|N].
  - destruct H as [H|H].
    + injection H as <- <-. left. split; [reflexivity|]. exists g0. split; [left|]; reflexivity.
    + right. split; [|right; exact H].
      intros ->. apply Hnot. apply (in_map fst) in H. exact H.
  - destruct H as [H|H].
    + injection H as <- <-. right. split; [exact N|left; reflexivity].
    + destruct (IH ND' H) as [(-> & g & Hg & ->)|[Hk Hin]].
      * left. split; [reflexivity|]. exists g. split; [right; exact Hg|reflexivity].
      * right. split; [exact Hk|right; exact Hin].
Qed.

(** ** The group of a content id *)

Definition matchOf (c : Match) : KeywordMatch :=
  mkKeywordMatch (m_id c) (m_content_text c) (m_similarity c).

(** The chunks of one content, in the order found. *)
Definition ofContent (k : jsstring) (chunks : list Match) : list Match :=
  filter (fun c => JS.eqb (m_content_id c) k) chunks.

(** The running maximum: a similarity replaces it when it is greater. *)
Definition raise (mx : float) (c : Match) : float :=
  if PrimFloat.ltb mx (m_similarity c) then m_similarity c else mx.

Definition maxOf (cs : list Match) : float := fold_left raise cs 0%float.

Definition typeOf (cs : list Match) : jsstring :=
  match cs with
  | c :: _ => m_content_type c
  | [] => []
  end.

(** What the search reports for the content [k]: its id, the type of
    its first chunk, its chunks in the order found, and the running
    maximum of their similarities, from 0. *)
Definition groupOf (k : jsstring) (chunks : list Match) : Group :=
  mkGroup k (typeOf (ofContent k chunks)) (List.map matchOf (ofContent k chunks))
    (maxOf (ofContent k chunks)).

Lemma ofContent_snoc_same : forall k done c,
  m_content_id c = k -> ofContent k (done ++ [c]) = ofContent k done ++ [c].
Proof.
  intros k done c E. unfold ofContent. rewrite filter_app. cbn [filter].
  rewrite E, eqb_refl. reflexivity.
Qed.

Lemma ofContent_snoc_other : forall k done c,
  m_content_id c <> k -> ofContent k (done ++ [c]) = ofContent k done.
Proof.
  intros k done c E. unfold ofContent. rewrite filter_app. cbn [filter].
  destruct (eqb_spec (m_content_id c) k); [contradiction|]. apply app_nil_r.
Qed.

Lemma ofContent_In : forall k chunks c,
  In c (ofContent k chunks) <-> In c chunks /\ m_content_id c = k.
Proof.
  intros k chunks c. unfold ofContent. rewrite filter_In.
  destruct (eqb_spec (m_content_id c) k); intuition congruence.
Qed.

Lemma typeOf_snoc : forall cs c, cs <> [] -> typeOf (cs ++ [c]) = typeOf cs.
Proof. intros [|x cs] c H; [contradiction|reflexivity]. Qed.

Lemma record_groupOf : forall k done c,
  m_content_id c = k -> ofContent k done <> [] ->
  record c (groupOf k done) = groupOf k (done ++ [c]).
Proof.
  intros k done c E Hne. unfold groupOf, record.
  cbn [g_contentId g_contentType g_matches g_maxSimilarity].
  rewrite (ofContent_snoc_same _ _ _ E), typeOf_snoc by exact Hne.
  rewrite map_app. unfold maxOf. rewrite fold_left_app. reflexivity.
Qed.

Lemma first_groupOf : forall k done c,
  m_content_id c = k -> ofContent k done = [] ->
  record c (mkGroup k (m_content_type c) [] 0%float) = groupOf k (done ++ [c]).
Proof.
  intros k done c E Hnil. unfold groupOf, record.
  cbn [g_contentId g_contentType g_matches g_maxSimilarity].
  rewrite (ofContent_snoc_same _ _ _ E), Hnil. reflexivity.
Qed.

(** ** The object after the chunks [done] *)

Definition matchesIn (o : grouped) : nat :=
  list_sum (List.map (fun p => List.length (g_matches (snd p))) o).

Record grouping (done : list Match) (o : grouped) : Prop := {
  keys_nodup : NoDup (List.map fst o);
  keys_plain : forall k, In k (List.map fst o) -> includes objectPrototypeKeys k = false;
  groups_are : forall k g, In (k, g) o -> ofContent k done <> [] /\ g = groupOf k done;
  groups_all : forall c, In c done -> In (m_content_id c) (List.map fst o);
  groups_total : matchesIn o = List.length done
}.

Lemma grouping_start : grouping [] [].
Proof. constructor; try (intros; contradiction); [constructor|reflexivity]. Qed.

Lemma matchesIn_update : forall c o,
  In (m_content_id c) (List.map fst o) ->
  matchesIn (update (m_content_id c) (record c) o) = S (matchesIn o).
Proof.
  intros c o. unfold matchesIn, list_sum.
  induction o as [|[k g0] o IH]; cbn [List.map fst In update]; [intros []|].
  intros H. destruct (eqb_spec k (m_content_id c)) as [E|N].
  - cbn [List.map fold_right snd record g_matches]. rewrite length_app.
    cbn [List.length]. lia.
  - destruct H as [H|H]; [contradiction|].
    cbn [List.map fold_right snd]. rewrite (IH H). lia.
Qed.

Lemma addChunk_step : forall done o c o',
  grouping done o -> addChunk o c = Ok o' -> grouping (done ++ [c]) o'.
Proof.
  intros done o c o' [ND Plain Are All Total] H. unfold addChunk in H.
  destruct (own (m_content_id c) o) as [g|] eqn:O.
  - injection H as <-. apply own_Some in O.
    assert (Key : In (m_content_id c) (List.map fst o)).
    { apply (in_map fst) in O. exact O. }
    constructor.
    + rewrite update_keys. exact ND.
    + rewrite update_keys. exact Plain.
    + intros k g' Hin. destruct (update_In _ _ _ _ _ ND Hin) as [(-> & g0 & Hg0 & ->)|[Hk Hin']].
      * destruct (Are _ _ Hg0) as [Hne ->]. split.
        -- rewrite ofContent_snoc_same by reflexivity. intros E.
           apply app_eq_nil in E. destruct E as [_ E]. discriminate.
        -- apply record_groupOf; [reflexivity|exact Hne].
      * destruct (Are _ _ Hin') as [Hne ->].
        unfold groupOf. rewrite ofContent_snoc_other by congruence. split; [exact Hne|reflexivity].
    + intros x Hx. rewrite update_keys. apply in_app_or in Hx. destruct Hx as [Hx|[<-|[]]].
      * apply All. exact Hx.
      * exact Key.
    + rewrite matchesIn_update by exact Key. rewrite Total, length_app. cbn [List.length]. lia.
  - destruct (includes objectPrototypeKeys (m_content_id c)) eqn:P; [discriminate|].
    injection H as <-. apply own_None in O.
    assert (Hnil : ofContent (m_content_id c) done = []).
    { destruct (ofContent (m_content_id c) done) as [|x xs] eqn:E; [reflexivity|].
      exfalso. apply O.
      assert (Hx : In x (ofContent (m_content_id c) done)) by (rewrite E; left; reflexivity).
      apply ofContent_In in Hx. destruct Hx as [Hx <-]. apply All. exact Hx. }
    constructor.
    + rewrite map_app. cbn [List.map fst]. apply NoDup_app.
      * exact ND.
      * constructor; [intros []|constructor].
      * intros k Hk [<-|[]]. contradiction.
    + intros k Hk. rewrite map_app in Hk. apply in_app_or in Hk.
      destruct Hk as [Hk|[<-|[]]]; [apply Plain; exact Hk|exact P].
    + intros k g' Hin. apply in_app_or in Hin. destruct Hin as [Hin|[Hin|[]]].
      * destruct (Are _ _ Hin) as [Hne ->].
        assert (m_content_id c <> k).
        { intros <-. apply O. apply (in_map fst) in Hin. exact Hin. }
        unfold groupOf. rewrite ofContent_snoc_other by assumption.
        split; [exact Hne|reflexivity].
      * injection Hin as <- <-. split.
        -- rewrite ofContent_snoc_same by reflexivity. intros E.
           apply app_eq_nil in E. destruct E as [_ E]. discriminate.
        -- apply first_groupOf; [reflexivity|exact Hnil].
    + intros x Hx. rewrite map_app. apply in_or_app. apply in_app_or in Hx.
      destruct Hx as [Hx|[<-|[]]]; [left; apply All; exact Hx|right; left; reflexivity].
    + unfold matchesIn in *. rewrite map_app, list_sum_app, Total, length_app.
      cbn [List.map list_sum fold_right snd record g_matches List.length app]. lia.
Qed.


Definition typeError : thrown :=
  External (lit "TypeError: Cannot read properties of undefined (reading 'push')").

Lemma forEach_prototype_key : forall chunks done o c,
  grouping done o -> In c chunks ->
  includes objectPrototypeKeys (m_content_id c) = true ->
  forEach chunks o = Throw typeError.
Proof.
  induction chunks as [|x chunks IH]; intros done o c G Hin P; [contradiction|].
  cbn [forEach]. destruct (addChunk o x) as [o1|e] eqn:A.
  - destruct Hin as [->|Hin].
    + exfalso. unfold addChunk in A.
      destruct (own (m_content_id c) o) as [g|] eqn:O.
      * apply own_Some, (in_map fst) in O. apply (keys_plain _ _ G) in O.
        cbn [fst] in O. congruence.
      * rewrite P in A. discriminate.
    + apply (IH (done ++ [x]) o1 c); [|exact Hin|exact P].
      apply (addChunk_step _ o); assumption.
  - unfold addChunk in A. destruct (own (m_content_id x) o); [discriminate|].
    destruct (includes objectPrototypeKeys (m_content_id x)); [|discriminate].
    injection A as <-. reflexivity.
Qed.

(** ** The order of the results *)








(** ** The running maximum *)








(** ** The search as a whole *)

Definition keywordOptions (options : QueryProcessor.QueryOptions) : Options :=
  mkOptions (Some (numOr (QueryProcessor.qo_threshold options) 0.7%float))
    (Some (QueryProcessor.intOr (QueryProcessor.qo_maxChunks options) 20))
    (QueryProcessor.qo_contentTypes options) (QueryProcessor.qo_contentIds options)
    None None.





(** The groups are kept in a plain object, so a content id that names a
    property of [Object.prototype] (such as [constructor]) finds that
    property instead of a group: when such a chunk is among those found,
    the search rejects with a TypeError, after the embedding and the
    search request were made. *)
Theorem searchByKeyword_prototype_key :
  forall sdk dist supabase keyword userId options log e log1 chunks log2 c,
    generateEmbeddings sdk (Single (cleanText keyword)) defaultModel log
    = (Ok (One (Some e)), log1) ->
    findSimilarChunks dist supabase (er_embedding e) userId (keywordOptions options) log1
    = (Ok chunks, log2) ->
    In c chunks ->
    includes objectPrototypeKeys (m_content_id c) = true ->
    searchByKeyword sdk dist supabase keyword userId options log
    = (Throw typeError, log2 ++ [ConsoleError (lit "Error searching by keyword:")]).
Proof.
  intros sdk dist supabase keyword userId options log e log1 chunks log2 c HE HF Hc HP.
  unfold searchByKeyword, tryCatch, bind. rewrite HE. cbn beta iota.
  unfold lift. cbn [QueryProcessor.embeddingOfResult]. cbn beta iota.
  fold (keywordOptions options). rewrite HF. cbn beta iota.
  rewrite (forEach_prototype_key chunks [] [] c grouping_start Hc HP).
  reflexivity.
Qed.

(** A store in which the caller has a content called [constructor]. *)
Definition rowConstructor : Row :=
  mkRow 3%N (lit "A") (lit "custom_text") (lit "constructor") (lit "")
    0 (lit "same") Examples.noMetadata [1%float; 0%float] 0.

Definition storeConstructor : Supabase :=
  mkSupabase true [rowConstructor] (fun _ => None).



Lemma searchByKeyword_prototype_key_witness :
  fst (searchByKeyword QueryProcessorFacts.sdkTalks Examples.distance storeConstructor (lit "same") (lit "A")
         QueryProcessorFacts.anyOptions [])
  = Throw typeError.
Proof.
  erewrite (searchByKeyword_prototype_key QueryProcessorFacts.sdkTalks Examples.distance storeConstructor
              (lit "same") (lit "A") QueryProcessorFacts.anyOptions []
              (mkEmbeddingResult (lit "same") (lit "same") [1%float; 0%float] 1)
              [SdkCreateEmbedding defaultModel (lit "same")]
              [project Examples.distance [1%float; 0%float] rowConstructor]
              [SdkCreateEmbedding defaultModel (lit "same");
               RpcMatchContentChunks (lit "A")]
              (project Examples.distance [1%float; 0%float] rowConstructor)).
  - reflexivity.
  - vm_compute. reflexivity.
  - vm_compute. reflexivity.
  - left. reflexivity.
  - vm_compute. reflexivity.
Defined.

End KeywordSearchFacts.
